(** * TPS-UID v1 (TPSUID7RB): the binary identifier codec of src/src/index.ts

    A shallow embedding of the class [TPSUID7RB] (index.ts, lines 773-1497)
    and of the parts of the JavaScript runtime it calls, followed by the
    theorems that settle the specification's claims about it.

    Conventions.
    - A [Uint8Array] is a list of integers in [0, 256).
    - A JavaScript string is held as the list of the code points its UTF-16
      code units spell: a surrogate pair is one code point, an unpaired
      surrogate is a code point in D800..DFFF.  A string is well formed
      when every code point is a Unicode scalar value.
    - A thrown [Error] is a value of [error], one constructor per message
      of the source; a function that can throw returns a [result].
    - The runtime is Node.js, where [Buffer] is defined; whether [require]
      is defined is a field of the platform, as the source tests it. *)

From Stdlib Require Import String Ascii ZArith List Bool Lia.
Import ListNotations.
Open Scope Z_scope.

(** ** Errors and results *)

(** The messages of the [throw new Error(...)] statements of the class. *)
Inductive error : Type :=
| EpochNotNonNegInt          (* 'epochMs must be a non-negative integer' *)
| EpochExceeds48             (* 'epochMs exceeds 48-bit range' *)
| EpochNotValid48            (* 'epochMs must be a valid 48-bit non-negative integer' *)
| TooShort                   (* 'TPSUID7RB: too short' *)
| BadMagic                   (* 'TPSUID7RB: bad magic' *)
| UnsupportedVersion (ver : Z) (* 'TPSUID7RB: unsupported version ...' *)
| LengthOverflow             (* 'TPSUID7RB: length overflow' *)
| MissingPrefix              (* 'TPSUID7RB: missing prefix' *)
| U48NotSafe                 (* 'TPSUID7RB: u48 not safe integer' *)
| UvarintNotNonNegInt        (* 'uvarint must be non-negative int' *)
| UvarintOverflow            (* 'uvarint overflow' *)
| UvarintTooLarge            (* 'uvarint too large' *)
| UvarintTooLong             (* 'uvarint too long' *)
| CompressionNotAvailable    (* 'TPSUID7RB: compression not available' *)
| CompressionNotInBrowser    (* 'TPSUID7RB: compression not available in browser' *)
| DecompressionFailed        (* 'TPSUID7RB: decompression failed' *)
| DecompressionNotInBrowser  (* 'TPSUID7RB: decompression not available in browser' *)
| NotSealed                  (* 'TPSUID7RB: not a sealed UID' *)
| LengthOverflowTruncated    (* 'TPSUID7RB: length overflow (truncated)' *)
| MissingSignatureData       (* 'TPSUID7RB: missing signature data' *)
| UnsupportedSealType (t : Z) (* 'TPSUID7RB: unsupported seal type 0x..' *)
| InvalidSignatureLength (n : Z) (* 'TPSUID7RB: invalid Ed25519 signature length ..' *)
| SignatureVerificationFailed (* 'TPSUID7RB: signature verification failed' *)
| SigningFailed              (* 'TPSUID7RB: signing failed (check key format)' *)
| SigningNotInBrowser        (* 'TPSUID7RB: signing not available in browser' *)
| VerificationNotInBrowser   (* 'TPSUID7RB: verification not available in browser' *)
| NoCrypto                   (* 'TPSUID7RB: no crypto available' *)
| TPSUnrecognizedFormat      (* 'TPS: unrecognized format' *)
| TPSOnlyGreg                (* 'TPS: only T:greg.* parsing is supported' *)
| TPSMissingYear             (* 'TPS: missing year component' *)
| TPSEpochFailed.            (* 'TPS: failed to compute epochMs' *)

Inductive result (A : Type) : Type :=
| OK (a : A)
| Err (e : error).
Arguments OK {A} a.
Arguments Err {A} e.

Definition bind {A B : Type} (r : result A) (k : A -> result B) : result B :=
  match r with
  | OK a => k a
  | Err e => Err e
  end.

Notation "x <- e ;; k" := (bind e (fun x => k))
  (at level 61, e at next level, right associativity).
Notation "' pat <- e ;; k" := (bind e (fun x => match x with pat => k end))
  (at level 61, pat pattern, e at next level, right associativity).

(** The names the specification (section 7) gives to the failures. *)
Inductive error_kind : Type :=
| MalformedInput
| UnsupportedVersionKind
| RangeViolation
| Truncation
| VarintTooLong
| CompressionUnavailable
| CompressionFailure
| NotSealedKind
| MissingSignatureDataKind
| SignatureInvalid
| OtherFailure.

Definition kind_of (e : error) : error_kind :=
  match e with
  | EpochNotNonNegInt | EpochExceeds48 | EpochNotValid48 => RangeViolation
  | UvarintNotNonNegInt => RangeViolation
  | TooShort | BadMagic | MissingPrefix => MalformedInput
  | UnsupportedVersion _ => UnsupportedVersionKind
  | LengthOverflow | LengthOverflowTruncated | UvarintOverflow => Truncation
  | UvarintTooLarge | UvarintTooLong => VarintTooLong
  | CompressionNotAvailable | CompressionNotInBrowser
  | DecompressionNotInBrowser => CompressionUnavailable
  | DecompressionFailed => CompressionFailure
  | NotSealed => NotSealedKind
  | MissingSignatureData => MissingSignatureDataKind
  | SignatureVerificationFailed => SignatureInvalid
  | _ => OtherFailure
  end.

(** ** The JavaScript runtime *)

Module JS.

(** *** Numbers and 32-bit integer operators *)

(** A JavaScript number as far as this class looks at it: an integer, or a
    value on which [Number.isInteger] is false (a fraction, NaN, an
    infinity). Every comparison of the source stands behind an
    [isInteger] test. *)
Inductive number : Type :=
| Int (z : Z)
| NonInteger.

Definition ToUint32 (z : Z) : Z := z mod 2 ^ 32.

Definition ToInt32 (z : Z) : Z :=
  let m := z mod 2 ^ 32 in
  if 2 ^ 31 <=? m then m - 2 ^ 32 else m.

(** [a << s]: both sides to 32 bits, the count taken modulo 32. *)
Definition shl (a s : Z) : Z :=
  ToInt32 (Z.shiftl (ToInt32 a) (ToUint32 s mod 32)).

(** [a >>> s] *)
Definition ushr (a s : Z) : Z :=
  Z.shiftr (ToUint32 a) (ToUint32 s mod 32).

(** [a | b], [a & b] and [a ^ b] *)
Definition bor (a b : Z) : Z := ToInt32 (Z.lor (ToInt32 a) (ToInt32 b)).
Definition band (a b : Z) : Z := ToInt32 (Z.land (ToInt32 a) (ToInt32 b)).
Definition bxor (a b : Z) : Z := ToInt32 (Z.lxor (ToInt32 a) (ToInt32 b)).

(** [Number.isSafeInteger] on an integer *)
Definition isSafeInteger (n : Z) : bool :=
  (- (2 ^ 53 - 1) <=? n) && (n <=? 2 ^ 53 - 1).

(** *** Typed arrays *)

Definition bytes : Type := list Z.

Definition byte_ok (b : Z) : Prop := 0 <= b < 256.
Definition bytes_ok (l : bytes) : Prop := Forall byte_ok l.

Definition len {A : Type} (l : list A) : Z := Z.of_nat (length l).

(** [a[i]], read below the length only *)
Definition get (a : bytes) (i : Z) : Z := nth (Z.to_nat i) a 0.

(** [a.slice(from, to)] and [a.slice(from)] for indices that are not
    negative; both clamp at the length. *)
Definition slice {A : Type} (a : list A) (from to : Z) : list A :=
  firstn (Z.to_nat to - Z.to_nat from) (skipn (Z.to_nat from) a).
Definition slice_from {A : Type} (a : list A) (from : Z) : list A :=
  skipn (Z.to_nat from) a.

(** [new Uint8Array(n)]: n zeros *)
Definition new_Uint8Array (n : Z) : bytes := repeat 0 (Z.to_nat n).

(** [out.set(src, offset)] for a source that fits at the offset *)
Definition set (out src : bytes) (offset : Z) : bytes :=
  firstn (Z.to_nat offset) out ++ src
    ++ skipn (Z.to_nat offset + length src) out.

(** [out[i] = v]: the value is stored modulo 256 *)
Definition store (out : bytes) (i v : Z) : bytes := set out [v mod 256] i.

(** *** Strings *)

Definition jsstring : Type := list Z.

(** A literal of ASCII characters *)
Fixpoint lit (s : string) : jsstring :=
  match s with
  | EmptyString => []
  | String a r => Z.of_N (N_of_ascii a) :: lit r
  end.

Definition is_surrogate (c : Z) : bool := (0xD800 <=? c) && (c <=? 0xDFFF).

Definition scalar_value (c : Z) : Prop :=
  0 <= c <= 0x10FFFF /\ is_surrogate c = false.

(** A string with no unpaired surrogate: what the specification calls a
    valid UTF-8 string. *)
Definition well_formed (s : jsstring) : Prop := Forall scalar_value s.

(** [s.startsWith(p)] *)
Fixpoint startsWith (s p : jsstring) {struct p} : bool :=
  match p, s with
  | [], _ => true
  | c :: p', d :: s' => (c =? d) && startsWith s' p'
  | _ :: _, [] => false
  end.

(** WhiteSpace and LineTerminator of ECMAScript, the characters [trim]
    removes. *)
Definition is_whitespace (c : Z) : bool :=
  ((0x09 <=? c) && (c <=? 0x0D)) || (c =? 0x20) || (c =? 0xA0)
  || (c =? 0x1680) || ((0x2000 <=? c) && (c <=? 0x200A))
  || (c =? 0x2028) || (c =? 0x2029) || (c =? 0x202F) || (c =? 0x205F)
  || (c =? 0x3000) || (c =? 0xFEFF).

Fixpoint trimStart (s : jsstring) : jsstring :=
  match s with
  | c :: r => if is_whitespace c then trimStart r else s
  | [] => []
  end.

Definition trimEnd (s : jsstring) : jsstring := rev (trimStart (rev s)).

(** [s.trim()] *)
Definition trim (s : jsstring) : jsstring := trimEnd (trimStart s).

(** [s.replace(/c/g, d)] for a single character c *)
Definition replace_all (c d : Z) (s : jsstring) : jsstring :=
  map (fun x => if x =? c then d else x) s.

Fixpoint drop_eq (s : jsstring) : jsstring :=
  match s with
  | c :: r => if c =? 61 then drop_eq r else s
  | [] => []
  end.

(** [s.replace(/=+$/g, '')]: the run of '=' at the end is removed *)
Definition strip_padding (s : jsstring) : jsstring := rev (drop_eq (rev s)).

(** *** TextEncoder and TextDecoder (WHATWG Encoding, UTF-8) *)

(** [new TextEncoder().encode(s)]: UTF-8, an unpaired surrogate encoded
    as U+FFFD. *)
Definition utf8_encode_cp (c0 : Z) : bytes :=
  let c := if is_surrogate c0 then 0xFFFD else c0 in
  if c <? 0x80 then [c]
  else if c <? 0x800 then [0xC0 + c / 64; 0x80 + c mod 64]
  else if c <? 0x10000 then
    [0xE0 + c / 4096; 0x80 + (c / 64) mod 64; 0x80 + c mod 64]
  else
    [0xF0 + c / 262144; 0x80 + (c / 4096) mod 64;
     0x80 + (c / 64) mod 64; 0x80 + c mod 64].

Definition TextEncoder_encode (s : jsstring) : bytes :=
  flat_map utf8_encode_cp s.

(** The state of the standard's UTF-8 decoder. *)
Record utf8_state : Type := {
  code_point : Z;
  bytes_needed : Z;
  bytes_seen : Z;
  lower_boundary : Z;
  upper_boundary : Z
}.

Definition utf8_init : utf8_state :=
  {| code_point := 0; bytes_needed := 0; bytes_seen := 0;
     lower_boundary := 0x80; upper_boundary := 0xBF |}.

(** The decoder on a byte read with no sequence open: a code point to
    emit, or the state after a lead byte.  [b mod 32] is [b & 0x1F]. *)
Definition utf8_lead (b : Z) : Z + utf8_state :=
  if b <=? 0x7F then inl b
  else if (0xC2 <=? b) && (b <=? 0xDF) then
    inr {| code_point := b mod 32; bytes_needed := 1; bytes_seen := 0;
           lower_boundary := 0x80; upper_boundary := 0xBF |}
  else if (0xE0 <=? b) && (b <=? 0xEF) then
    inr {| code_point := b mod 16; bytes_needed := 2; bytes_seen := 0;
           lower_boundary := if b =? 0xE0 then 0xA0 else 0x80;
           upper_boundary := if b =? 0xED then 0x9F else 0xBF |}
  else if (0xF0 <=? b) && (b <=? 0xF4) then
    inr {| code_point := b mod 8; bytes_needed := 3; bytes_seen := 0;
           lower_boundary := if b =? 0xF0 then 0x90 else 0x80;
           upper_boundary := if b =? 0xF4 then 0x8F else 0xBF |}
  else inl 0xFFFD.

(** The decoder with error mode "replacement": a byte outside the
    boundaries closes the open sequence with U+FFFD and is read again as
    a first byte; an open sequence at the end of the input gives U+FFFD. *)
Fixpoint utf8_decode (st : utf8_state) (bs : bytes) : jsstring :=
  match bs with
  | [] => if bytes_needed st =? 0 then [] else [0xFFFD]
  | b :: rest =>
      if bytes_needed st =? 0 then
        match utf8_lead b with
        | inl c => c :: utf8_decode utf8_init rest
        | inr st' => utf8_decode st' rest
        end
      else if (b <? lower_boundary st) || (upper_boundary st <? b) then
        0xFFFD ::
        match utf8_lead b with
        | inl c => c :: utf8_decode utf8_init rest
        | inr st' => utf8_decode st' rest
        end
      else
        let cp := code_point st * 64 + b mod 64 in
        if bytes_seen st + 1 =? bytes_needed st then
          cp :: utf8_decode utf8_init rest
        else
          utf8_decode
            {| code_point := cp; bytes_needed := bytes_needed st;
               bytes_seen := bytes_seen st + 1;
               lower_boundary := 0x80; upper_boundary := 0xBF |} rest
  end.

(** [new TextDecoder().decode(bs)]: the options are the defaults, so
    [fatal] is false (replacement) and [ignoreBOM] is false: a byte order
    mark U+FEFF at the start of the output is removed. *)
Definition TextDecoder_decode (bs : bytes) : jsstring :=
  match utf8_decode utf8_init bs with
  | c :: r => if c =? 0xFEFF then r else c :: r
  | [] => []
  end.

(** *** Buffer: base64 *)

Definition b64_char (v : Z) : Z :=
  if v <? 26 then 65 + v
  else if v <? 52 then 97 + (v - 26)
  else if v <? 62 then 48 + (v - 52)
  else if v =? 62 then 43
  else 47.

(** [Buffer.from(b).toString('base64')]: RFC 4648 with padding *)
Fixpoint base64_encode (b : bytes) : jsstring :=
  match b with
  | [] => []
  | [x] => [b64_char (x / 4); b64_char (x mod 4 * 16); 61; 61]
  | [x; y] =>
      [b64_char (x / 4); b64_char (x mod 4 * 16 + y / 16);
       b64_char (y mod 16 * 4); 61]
  | x :: y :: z :: rest =>
      b64_char (x / 4) :: b64_char (x mod 4 * 16 + y / 16)
        :: b64_char (y mod 16 * 4 + z / 64) :: b64_char (z mod 64)
        :: base64_encode rest
  end.

(** *** Date (ECMAScript time values, UTC) *)

Definition msPerDay : Z := 86400000.

Definition Day (t : Z) : Z := t / msPerDay.

(** Year, month (1..12) and day of the month of a day number, in the
    proleptic Gregorian calendar. *)
Definition civil_from_days (d : Z) : Z * Z * Z :=
  let z := d + 719468 in
  let era := z / 146097 in
  let doe := z - era * 146097 in
  let yoe := (doe - doe / 1460 + doe / 36524 - doe / 146096) / 365 in
  let y := yoe + era * 400 in
  let doy := doe - (365 * yoe + yoe / 4 - yoe / 100) in
  let mp := (5 * doy + 2) / 153 in
  let dd := doy - (153 * mp + 2) / 5 + 1 in
  let m := if mp <? 10 then mp + 3 else mp - 9 in
  (if m <=? 2 then y + 1 else y, m, dd).

Definition getUTCFullYear (t : Z) : Z := fst (fst (civil_from_days (Day t))).
Definition getUTCMonth (t : Z) : Z := snd (fst (civil_from_days (Day t))) - 1.
Definition getUTCDate (t : Z) : Z := snd (civil_from_days (Day t)).
Definition getUTCHours (t : Z) : Z := (t / 3600000) mod 24.
Definition getUTCMinutes (t : Z) : Z := (t / 60000) mod 60.
Definition getUTCSeconds (t : Z) : Z := (t / 1000) mod 60.

(** *** Number to string, for integers *)

Fixpoint digits (u : Decimal.uint) : jsstring :=
  match u with
  | Decimal.Nil => []
  | Decimal.D0 r => 48 :: digits r
  | Decimal.D1 r => 49 :: digits r
  | Decimal.D2 r => 50 :: digits r
  | Decimal.D3 r => 51 :: digits r
  | Decimal.D4 r => 52 :: digits r
  | Decimal.D5 r => 53 :: digits r
  | Decimal.D6 r => 54 :: digits r
  | Decimal.D7 r => 55 :: digits r
  | Decimal.D8 r => 56 :: digits r
  | Decimal.D9 r => 57 :: digits r
  end.

(** [n.toString()] and the conversion of a template literal *)
Definition toString (n : Z) : jsstring :=
  match Z.to_int n with
  | Decimal.Pos u => digits u
  | Decimal.Neg u => 45 :: digits u
  end.

(** [s.padStart(n, '0')] *)
Definition padStart0 (n : nat) (s : jsstring) : jsstring :=
  repeat 48 (n - length s) ++ s.

End JS.

(** ** The platform services *)

(** What the class obtains from Node.js at run time.  A [None] stands for
    a call that throws.
    - [crypto_sign data key] is the whole [try] block of [signEd25519]:
      the preparation of the key object and [crypto.sign(null, data, key)].
    - [crypto_verify data key signature] is
      [crypto.verify(null, data, key, signature)].
    - [crypto_randomBytes n] and [crypto_getRandomValues n] are the bytes
      the generators hand out in the run under consideration.
    - [Buffer_from_base64 s] is [Buffer.from(s, 'base64')], a lenient
      decoder that never throws.
    - [Float] holds the coordinates given to [generate], with the
      conversion a template literal applies to them. *)
Record Platform : Type := {
  has_require : bool;
  zlib_deflateRawSync : JS.bytes -> option JS.bytes;
  zlib_inflateRawSync : JS.bytes -> option JS.bytes;
  PrivateKey : Type;
  PublicKey : Type;
  crypto_sign : JS.bytes -> PrivateKey -> option JS.bytes;
  crypto_verify : JS.bytes -> PublicKey -> JS.bytes -> option bool;
  crypto_randomBytes : Z -> option JS.bytes;
  crypto_getRandomValues : Z -> option JS.bytes;
  Buffer_from_base64 : JS.jsstring -> JS.bytes;
  Float : Type;
  Float_toString : Float -> JS.jsstring
}.

(** ** The class TPSUID7RB *)

Module TPSUID7RB.
Import JS.

(** [TPSUID7RBEncodeOptions]; [None] is an absent (undefined) field. *)
Record TPSUID7RBEncodeOptions : Type := {
  opt_compress : option bool;
  opt_epochMs : option number
}.

(** [TPSUID7RBDecodeResult] *)
Record TPSUID7RBDecodeResult : Type := {
  version : jsstring;
  epochMs : Z;
  compressed : bool;
  nonce : Z;
  tps : jsstring
}.

Definition MAGIC : bytes := [0x54; 0x50; 0x55; 0x37].
Definition VER : Z := 0x01.
Definition PREFIX : jsstring := lit "tpsuid7rb_".

(** The class [[A-Za-z0-9_-]] of [REGEX] *)
Definition is_b64url_char (c : Z) : bool :=
  ((65 <=? c) && (c <=? 90)) || ((97 <=? c) && (c <=? 122))
  || ((48 <=? c) && (c <=? 57)) || (c =? 95) || (c =? 45).

(** [REGEX.test(s)] for [REGEX = /^tpsuid7rb_[A-Za-z0-9_-]+$/]: the
    pattern is anchored at both ends and has no flags. *)
Definition REGEX_test (s : jsstring) : bool :=
  startsWith s PREFIX
  && match skipn (length PREFIX) s with
     | [] => false
     | body => forallb is_b64url_char body
     end.

(** *** Binary helpers (index.ts 1085-1158) *)

Definition writeU48 (epochMs : Z) : bytes :=
  let b := new_Uint8Array 6 in
  let v := epochMs in
  let b := store b 0 (Z.land (Z.shiftr v 40) 0xff) in
  let b := store b 1 (Z.land (Z.shiftr v 32) 0xff) in
  let b := store b 2 (Z.land (Z.shiftr v 24) 0xff) in
  let b := store b 3 (Z.land (Z.shiftr v 16) 0xff) in
  let b := store b 4 (Z.land (Z.shiftr v 8) 0xff) in
  let b := store b 5 (Z.land v 0xff) in
  b.

Definition readU48 (bytes : bytes) (offset : Z) : result Z :=
  let v :=
    Z.shiftl (get bytes offset) 40 +
    Z.shiftl (get bytes (offset + 1)) 32 +
    Z.shiftl (get bytes (offset + 2)) 24 +
    Z.shiftl (get bytes (offset + 3)) 16 +
    Z.shiftl (get bytes (offset + 4)) 8 +
    get bytes (offset + 5) in
  let n := v in
  if negb (isSafeInteger n) then Err U48NotSafe else OK n.

(** The [while (x >= 0x80)] loop of [uvarintEncode].  [x] is below 2^32
    and loses seven bits in each round, so four rounds are the most the
    loop runs; [fuel] is never used up (lemma [uvarintEncode_loop_fuel]). *)
Fixpoint uvarintEncode_loop (fuel : nat) (x : Z) (out : list Z) : list Z :=
  match fuel with
  | S fuel' =>
      if 0x80 <=? x then
        uvarintEncode_loop fuel' (ushr x 7) (out ++ [bor (band x 0x7f) 0x80])
      else out ++ [x]
  | O => out ++ [x]
  end.

(** [n] is a length here: an integer. *)
Definition uvarintEncode (n : Z) : result bytes :=
  if n <? 0 then Err UvarintNotNonNegInt
  else
    let x := ushr n 0 in
    OK (uvarintEncode_loop 5 x []).

(** The [while (true)] loop of [uvarintDecode], on the bytes from
    [offset + i] on: no byte left is [offset + i >= bytes.length]. *)
Fixpoint uvarintDecode_loop (rest : bytes) (x s i : Z) : result (Z * Z) :=
  match rest with
  | [] => Err UvarintOverflow
  | b :: rest' =>
      if b <? 0x80 then
        if (9 <? i) || ((i =? 9) && (1 <? b)) then Err UvarintTooLarge
        else
          let x := bor x (shl b s) in
          OK (ushr x 0, i + 1)
      else
        let x := bor x (shl (band b 0x7f) s) in
        let s := s + 7 in
        let i := i + 1 in
        if 10 <? i then Err UvarintTooLong
        else uvarintDecode_loop rest' x s i
  end.

(** Returns [{ value, bytesRead }]. *)
Definition uvarintDecode (bytes : bytes) (offset : Z) : result (Z * Z) :=
  uvarintDecode_loop (slice_from bytes offset) 0 0 0.

(** *** Base64url helpers (index.ts 1165-1204), the branch taken when
    [Buffer] is defined *)

Definition base64UrlEncode (bytes : bytes) : jsstring :=
  strip_padding (replace_all 47 95 (replace_all 43 45 (base64_encode bytes))).

Section WithPlatform.

Variable P : Platform.

(** [epochMsFromTPSString] (index.ts 1021-1079) reads the time out of the
    payload text with regular expressions and [Date.UTC]; it returns a
    number or throws.  The codec only uses its outcome, so it is a
    variable here: what is proved holds whatever it computes. *)
Variable epochMsFromTPSString : jsstring -> result number.

Definition base64UrlDecode (b64url : jsstring) : bytes :=
  let padLen := Z.rem (4 - Z.rem (len b64url) 4) 4 in
  let b64 :=
    replace_all 95 47
      (replace_all 45 43 (b64url ++ repeat 61 (Z.to_nat padLen))) in
  Buffer_from_base64 P b64.

(** *** Compression helpers (index.ts 1211-1240) *)

Definition deflateRaw (data : bytes) : result bytes :=
  if has_require P then
    match zlib_deflateRawSync P data with
    | Some out => OK out
    | None => Err CompressionNotAvailable
    end
  else Err CompressionNotInBrowser.

Definition inflateRaw (data : bytes) : result bytes :=
  if has_require P then
    match zlib_inflateRawSync P data with
    | Some out => OK out
    | None => Err DecompressionFailed
    end
  else Err DecompressionNotInBrowser.

(** *** Ed25519 (index.ts 1402-1471) *)

Definition signEd25519 (data : bytes) (privateKey : PrivateKey P)
  : result bytes :=
  if has_require P then
    match crypto_sign P data privateKey with
    | Some signature => OK signature
    | None => Err SigningFailed
    end
  else Err SigningNotInBrowser.

Definition verifyEd25519 (data signature : bytes) (publicKey : PublicKey P)
  : result bool :=
  if has_require P then
    match crypto_verify P data publicKey signature with
    | Some isValid => OK isValid
    | None => OK false
    end
  else Err VerificationNotInBrowser.

(** *** Random bytes (index.ts 1478-1496)

    The generators give fresh bytes at every call.  [encodeBinary] and
    [seal] draw once each, so a value of the platform stands for one
    call and holds the draw of that call; two calls are two values of
    the platform, which may differ in the two generator fields. *)

Definition randomBytes (length : Z) : result bytes :=
  match (if has_require P then crypto_randomBytes P length else None) with
  | Some b => OK b
  | None =>
      match crypto_getRandomValues P length with
      | Some b => OK b
      | None => Err NoCrypto
      end
  end.

(** *** The public API (index.ts 795-977) *)

(** The local [nonce] of the source is computed and not used; it is left
    out. *)
Definition encodeBinary (tps : jsstring)
    (opts : option TPSUID7RBEncodeOptions) : result bytes :=
  let compress :=
    match opts with
    | Some o => match opt_compress o with Some c => c | None => false end
    | None => false
    end in
  epochMs <-
    match (match opts with Some o => opt_epochMs o | None => None end) with
    | Some e => OK e
    | None => epochMsFromTPSString tps
    end ;;
  match epochMs with
  | NonInteger => Err EpochNotNonNegInt
  | Int epochMs =>
      if epochMs <? 0 then Err EpochNotNonNegInt
      else if 0xffffffffffff <? epochMs then Err EpochExceeds48
      else
        let flags := if compress then 0x01 else 0x00 in
        nonceBuf <- randomBytes 4 ;;
        let tpsUtf8 := TextEncoder_encode tps in
        payload <- (if compress then deflateRaw tpsUtf8 else OK tpsUtf8) ;;
        lenVar <- uvarintEncode (len payload) ;;
        let out :=
          new_Uint8Array (4 + 1 + 1 + 6 + 4 + len lenVar + len payload) in
        let offset := 0 in
        let out := set out MAGIC offset in
        let offset := offset + 4 in
        let out := store out offset VER in
        let offset := offset + 1 in
        let out := store out offset flags in
        let offset := offset + 1 in
        let timeBytes := writeU48 epochMs in
        let out := set out timeBytes offset in
        let offset := offset + 6 in
        let out := set out nonceBuf offset in
        let offset := offset + 4 in
        let out := set out lenVar offset in
        let offset := offset + len lenVar in
        let out := set out payload offset in
        OK out
  end.

Definition decodeBinary (bytes : bytes) : result TPSUID7RBDecodeResult :=
  if len bytes <? 17 then Err TooShort
  else if negb (get bytes 0 =? 0x54) || negb (get bytes 1 =? 0x50)
          || negb (get bytes 2 =? 0x55) || negb (get bytes 3 =? 0x37)
  then Err BadMagic
  else
    let ver := get bytes 4 in
    if negb (ver =? VER) then Err (UnsupportedVersion ver)
    else
      let flags := get bytes 5 in
      let compressed := band flags 0x01 =? 0x01 in
      epochMs <- readU48 bytes 6 ;;
      let nonce :=
        ushr (shl (get bytes 12) 24) 0 +
        ushr (shl (get bytes 13) 16) 0 +
        ushr (shl (get bytes 14) 8) 0 +
        get bytes 15 in
      let offset := 16 in
      '(tpsLen, bytesRead) <- uvarintDecode bytes offset ;;
      let offset := offset + bytesRead in
      if len bytes <? offset + tpsLen then Err LengthOverflow
      else
        let payload := slice bytes offset (offset + tpsLen) in
        tpsUtf8 <- (if compressed then inflateRaw payload else OK payload) ;;
        let tps := TextDecoder_decode tpsUtf8 in
        OK {| version := lit "tpsuid7rb"; epochMs := epochMs;
              compressed := compressed; nonce := nonce; tps := tps |}.

Definition encodeBinaryB64 (tps : jsstring)
    (opts : option TPSUID7RBEncodeOptions) : result jsstring :=
  bytes <- encodeBinary tps opts ;;
  OK (PREFIX ++ base64UrlEncode bytes).

Definition decodeBinaryB64 (id : jsstring) : result TPSUID7RBDecodeResult :=
  let s := trim id in
  if negb (startsWith s PREFIX) then Err MissingPrefix
  else
    let b64 := slice_from s (len PREFIX) in
    let bytes := base64UrlDecode b64 in
    decodeBinary bytes.

Definition validateBinaryB64 (id : jsstring) : bool := REGEX_test (trim id).

(** The options of [generate] *)
Record GenerateOptions : Type := {
  latitude : option (Float P);
  longitude : option (Float P);
  altitude : option (Float P);
  gen_compress : option bool
}.

(** [date] is the time value of the [Date]. *)
Definition generateTPSString (date : Z) (opts : option GenerateOptions)
  : jsstring :=
  let fullYear := getUTCFullYear date in
  let m := fullYear / 1000 + 1 in
  let c := Z.rem fullYear 1000 / 100 + 1 in
  let y := Z.rem fullYear 100 in
  let M := getUTCMonth date + 1 in
  let d := getUTCDate date in
  let h := getUTCHours date in
  let n := getUTCMinutes date in
  let s := getUTCSeconds date in
  let pad := fun num => padStart0 2 (toString num) in
  let timePart :=
    lit "T:greg.m" ++ toString m ++ lit ".c" ++ toString c
      ++ lit ".y" ++ toString y ++ lit ".M" ++ pad M ++ lit ".d" ++ pad d
      ++ lit ".h" ++ pad h ++ lit ".n" ++ pad n ++ lit ".s" ++ pad s in
  let spacePart :=
    match opts with
    | Some o =>
        match latitude o, longitude o with
        | Some lat, Some lon =>
            let spacePart :=
              Float_toString P lat ++ lit "," ++ Float_toString P lon in
            match altitude o with
            | Some alt => spacePart ++ lit "," ++ Float_toString P alt ++ lit "m"
            | None => spacePart
            end
        | _, _ => lit "unknown"
        end
    | None => lit "unknown"
    end in
  lit "tps://" ++ spacePart ++ lit "@" ++ timePart.

(** [now] is the time value of [new Date()], the instant the call
    captures. *)
Definition generate (now : Z) (opts : option GenerateOptions)
  : result jsstring :=
  let tps := generateTPSString now opts in
  encodeBinaryB64 tps
    (Some {| opt_compress :=
               match opts with Some o => gen_compress o | None => None end;
             opt_epochMs := Some (Int now) |}).

(** *** Sealing (index.ts 1255-1398) *)

Definition seal (tps : jsstring) (privateKey : PrivateKey P)
    (opts : option TPSUID7RBEncodeOptions) : result bytes :=
  let compress :=
    match opts with
    | Some o => match opt_compress o with Some c => c | None => false end
    | None => false
    end in
  epochMs <-
    match (match opts with Some o => opt_epochMs o | None => None end) with
    | Some e => OK e
    | None => epochMsFromTPSString tps
    end ;;
  match epochMs with
  | NonInteger => Err EpochNotValid48
  | Int epochMs =>
      if (epochMs <? 0) || (0xffffffffffff <? epochMs) then Err EpochNotValid48
      else
        let flags := bor (if compress then 0x01 else 0x00) 0x02 in
        nonceBuf <- randomBytes 4 ;;
        let tpsUtf8 := TextEncoder_encode tps in
        payload <- (if compress then deflateRaw tpsUtf8 else OK tpsUtf8) ;;
        lenVar <- uvarintEncode (len payload) ;;
        let contentLen := 4 + 1 + 1 + 6 + 4 + len lenVar + len payload in
        let content := new_Uint8Array contentLen in
        let offset := 0 in
        let content := set content MAGIC offset in
        let offset := offset + 4 in
        let content := store content offset VER in
        let offset := offset + 1 in
        let content := store content offset flags in
        let offset := offset + 1 in
        let content := set content (writeU48 epochMs) offset in
        let offset := offset + 6 in
        let content := set content nonceBuf offset in
        let offset := offset + 4 in
        let content := set content lenVar offset in
        let offset := offset + len lenVar in
        let content := set content payload offset in
        signature <- signEd25519 content privateKey ;;
        let sealType := 0x01 in
        let final := new_Uint8Array (contentLen + 1 + len signature) in
        let final := set final content 0 in
        let final := set final [sealType] contentLen in
        let final := set final signature (contentLen + 1) in
        OK final
  end.

Definition verifyAndDecode (sealedBytes : bytes) (publicKey : PublicKey P)
  : result TPSUID7RBDecodeResult :=
  if len sealedBytes <? 18 then Err TooShort
  else if negb (get sealedBytes 0 =? 0x54) || negb (get sealedBytes 1 =? 0x50)
          || negb (get sealedBytes 2 =? 0x55) || negb (get sealedBytes 3 =? 0x37)
  then Err BadMagic
  else
    let flags := get sealedBytes 5 in
    if band flags 0x02 =? 0 then Err NotSealed
    else
      let offset := 16 in
      '(tpsLen, bytesRead) <- uvarintDecode sealedBytes offset ;;
      let offset := offset + bytesRead in
      let payloadEnd := offset + tpsLen in
      if len sealedBytes <? payloadEnd then Err LengthOverflowTruncated
      else
        let content := slice sealedBytes 0 payloadEnd in
        if len sealedBytes <=? payloadEnd + 1 then Err MissingSignatureData
        else
          let sealType := get sealedBytes payloadEnd in
          if negb (sealType =? 0x01) then Err (UnsupportedSealType sealType)
          else
            let signature := slice_from sealedBytes (payloadEnd + 1) in
            if negb (len signature =? 64)
            then Err (InvalidSignatureLength (len signature))
            else
              isValid <- verifyEd25519 content signature publicKey ;;
              if negb isValid then Err SignatureVerificationFailed
              else decodeBinary content.

End WithPlatform.

End TPSUID7RB.

(** ** Stating the claims *)

Module Claims.
Import JS TPSUID7RB.

(** What the theorems assume of the platform: inflating undoes
    deflating, the generators give as many bytes as asked for, an Ed25519
    signature has 64 bytes, [Buffer.from(s, 'base64')] decodes the text
    that [toString('base64')] writes, and the text of a number has no
    unpaired surrogate. *)
Record PlatformLaws (P : Platform) : Prop := {
  deflate_bytes :
    forall d c, zlib_deflateRawSync P d = Some c -> bytes_ok c;
  inflate_deflate :
    forall d c, zlib_deflateRawSync P d = Some c ->
      zlib_inflateRawSync P c = Some d;
  randomBytes_length :
    forall n b, crypto_randomBytes P n = Some b -> len b = n /\ bytes_ok b;
  getRandomValues_length :
    forall n b, crypto_getRandomValues P n = Some b ->
      len b = n /\ bytes_ok b;
  signature_length :
    forall d k s, crypto_sign P d k = Some s -> len s = 64 /\ bytes_ok s;
  base64_canonical :
    forall b, bytes_ok b -> Buffer_from_base64 P (base64_encode b) = b;
  float_text :
    forall x, well_formed (Float_toString P x)
}.

(** A private key and the public key that matches it: signing with the
    one succeeds and verifying with the other accepts the signature. *)
Definition key_pair (P : Platform) (sk : PrivateKey P) (pk : PublicKey P)
  : Prop :=
  forall data, exists signature,
    crypto_sign P data sk = Some signature
    /\ crypto_verify P data pk signature = Some true.

(** The first lines of [encodeBinary] and [seal]: the options read with
    their defaults, and the payload block. *)
Definition compress_of (opts : option TPSUID7RBEncodeOptions) : bool :=
  match opts with
  | Some o => match opt_compress o with Some c => c | None => false end
  | None => false
  end.

Definition epoch_of (parse : jsstring -> result number) (tps : jsstring)
    (opts : option TPSUID7RBEncodeOptions) : result number :=
  match (match opts with Some o => opt_epochMs o | None => None end) with
  | Some e => OK e
  | None => parse tps
  end.

Definition payload_of (P : Platform) (compress : bool) (tps : jsstring)
  : result bytes :=
  if compress then deflateRaw P (TextEncoder_encode tps)
  else OK (TextEncoder_encode tps).

(** What [TextDecoder] leaves of a string: a byte order mark in front is
    dropped. *)
Definition strip_bom (s : jsstring) : jsstring :=
  match s with
  | c :: r => if c =? 0xFEFF then r else s
  | [] => []
  end.

(** The options [{ epochMs: n }] and [{ compress: c, epochMs: n }]. *)
Definition with_epoch (n : number) : option TPSUID7RBEncodeOptions :=
  Some {| opt_compress := None; opt_epochMs := Some n |}.

Definition with_compress (c : bool) (n : number)
  : option TPSUID7RBEncodeOptions :=
  Some {| opt_compress := Some c; opt_epochMs := Some n |}.

(** The wire layout of an unsealed token (specification, section 6). *)
Definition token_layout (flags epochMs : Z) (nonceBuf lenVar payload : bytes)
  : bytes :=
  MAGIC ++ [VER] ++ [flags] ++ writeU48 epochMs ++ nonceBuf ++ lenVar
    ++ payload.

(** The sixteen bytes in front of the length field. *)
Definition header (flags epochMs : Z) (nonceBuf : bytes) : bytes :=
  MAGIC ++ [VER] ++ [flags] ++ writeU48 epochMs ++ nonceBuf.

(** The 32-bit value the four nonce bytes spell, big-endian. *)
Definition nonce_of (nonceBuf : bytes) : Z :=
  ushr (shl (get nonceBuf 0) 24) 0 + ushr (shl (get nonceBuf 1) 16) 0
  + ushr (shl (get nonceBuf 2) 8) 0 + get nonceBuf 3.

(** The pattern of [REGEX] read as a property of a string: the prefix,
    then one or more characters of the base64url alphabet. *)
Definition matches_shape (s : jsstring) : Prop :=
  exists body, s = PREFIX ++ body /\ body <> []
    /\ forallb is_b64url_char body = true.

(** The two replacements of [base64UrlEncode] on one character, and the
    two of [base64UrlDecode]. *)
Definition to_url (c : Z) : Z :=
  (fun x => if x =? 47 then 95 else x) ((fun x => if x =? 43 then 45 else x) c).
Definition of_url (c : Z) : Z :=
  (fun x => if x =? 95 then 47 else x) ((fun x => if x =? 45 then 43 else x) c).

(** The text of the encoder: sextets of the alphabet, then padding. *)
Inductive b64_text : jsstring -> nat -> Prop :=
| b64_text_nil : b64_text [] 0
| b64_text_1 (v0 v1 : Z) :
    0 <= v0 < 64 -> 0 <= v1 < 64 ->
    b64_text [b64_char v0; b64_char v1] 2
| b64_text_2 (v0 v1 v2 : Z) :
    0 <= v0 < 64 -> 0 <= v1 < 64 -> 0 <= v2 < 64 ->
    b64_text [b64_char v0; b64_char v1; b64_char v2] 1
| b64_text_4 (v0 v1 v2 v3 : Z) (r : jsstring) (pad : nat) :
    0 <= v0 < 64 -> 0 <= v1 < 64 -> 0 <= v2 < 64 -> 0 <= v3 < 64 ->
    b64_text r pad ->
    b64_text (b64_char v0 :: b64_char v1 :: b64_char v2 :: b64_char v3 :: r)
      pad.

Definition all_whitespace (w : jsstring) : Prop :=
  forallb is_whitespace w = true.

Definition no_whitespace (s : jsstring) : Prop :=
  forallb (fun c => negb (is_whitespace c)) s = true.

(** [sealed[p] = v] and [sealed[p] ^= 0xFF] on a token *)
Definition tamper (token : bytes) (p v : Z) : bytes := store token p v.
Definition flip_byte (token : bytes) (p : Z) : bytes :=
  store token p (bxor (get token p) 0xFF).

(** A sealed token seen from its end: the signature is the last 64
    bytes, the seal type the byte before, the signed region the rest. *)
Definition signed_region (token : bytes) : bytes :=
  slice token 0 (len token - 65).
Definition signature_of (token : bytes) : bytes :=
  slice_from token (len token - 64).

(** Where the payload block starts: behind the length field. *)
Definition payload_start (token : bytes) : Z :=
  match uvarintDecode token 16 with
  | OK (_, bytesRead) => 16 + bytesRead
  | Err _ => len token
  end.

(** The positions of the signed region that hold the version, the time,
    the nonce and the payload block: all of it but the magic, the flags
    and the length field. *)
Definition signed_field (token : bytes) (p : Z) : Prop :=
  p = 4 \/ 6 <= p < 16 \/ payload_start token <= p < len token - 65.

(** The compression option of [generate]. *)
Definition gen_compress_of (P : Platform)
    (opts : option (GenerateOptions P)) : bool :=
  match opts with
  | Some o => match gen_compress P o with Some c => c | None => false end
  | None => false
  end.

End Claims.

(** ** A concrete platform

    An instance of the platform on which the functions can be run: raw
    deflate with stored blocks only, a keyed checksum of 64 bytes in the
    place of Ed25519, a fixed byte sequence for the random generator, and
    a strict base64 decoder. *)

Module Model.
Import JS TPSUID7RB.

(** A raw deflate stream of one stored block (RFC 1951, 3.2.4): the
    header byte 1, the length and its complement, the data. *)
Definition deflate_stored (data : bytes) : option bytes :=
  let n := len data in
  if n <? 65536 then
    if forallb (fun b => (0 <=? b) && (b <? 256)) data then
      Some (1 :: n mod 256 :: n / 256 :: 255 - n mod 256 :: 255 - n / 256
              :: data)
    else None
  else None.

Definition inflate_stored (data : bytes) : option bytes :=
  match data with
  | h :: lo :: hi :: nlo :: nhi :: rest =>
      if (h =? 1) && (lo + nlo =? 255) && (hi + nhi =? 255)
         && (len rest =? lo + 256 * hi)
      then Some rest else None
  | _ => None
  end.

(** The checksum: 64 bytes, each a running hash of the data seeded with
    the key and the byte's index. *)
Definition checksum_byte (key : Z) (data : bytes) (j : Z) : Z :=
  fold_left (fun acc b => (acc * 31 + b + j) mod 256) data ((key + j) mod 256).

Definition checksum (key : Z) (data : bytes) : bytes :=
  map (fun j => checksum_byte key data (Z.of_nat j)) (seq 0 64).

(** Keys are integers; the public key of [sk] is [sk + 1000]; a negative
    private key and a public key below 1000 are malformed. *)
Definition sign (data : bytes) (sk : Z) : option bytes :=
  if sk <? 0 then None else Some (checksum sk data).

Fixpoint bytes_eqb (a b : bytes) : bool :=
  match a, b with
  | [], [] => true
  | x :: a', y :: b' => (x =? y) && bytes_eqb a' b'
  | _, _ => false
  end.

Definition verify (data : bytes) (pk : Z) (signature : bytes) : option bool :=
  if pk <? 1000 then None
  else Some (bytes_eqb signature (checksum (pk - 1000) data)).

Definition random (n : Z) : option bytes :=
  if n <? 0 then None
  else
    Some (map (fun i => (37 * Z.of_nat i + 11) mod 256) (seq 0 (Z.to_nat n))).

Definition b64_value (c : Z) : option Z :=
  if (65 <=? c) && (c <=? 90) then Some (c - 65)
  else if (97 <=? c) && (c <=? 122) then Some (c - 97 + 26)
  else if (48 <=? c) && (c <=? 57) then Some (c - 48 + 52)
  else if c =? 43 then Some 62
  else if c =? 47 then Some 63
  else None.

(** Groups of four characters; a group that is not of the alphabet ends
    the decoding. *)
Fixpoint base64_decode (s : jsstring) : bytes :=
  match s with
  | a :: b :: c :: d :: rest =>
      match b64_value a, b64_value b with
      | Some va, Some vb =>
          let x := va * 4 + vb / 16 in
          match b64_value c with
          | Some vc =>
              let y := vb mod 16 * 16 + vc / 4 in
              match b64_value d with
              | Some vd => x :: y :: vc mod 4 * 64 + vd :: base64_decode rest
              | None => [x; y]
              end
          | None => [x]
          end
      | _, _ => []
      end
  | _ => []
  end.

Definition platform : Platform := {|
  has_require := true;
  zlib_deflateRawSync := deflate_stored;
  zlib_inflateRawSync := inflate_stored;
  PrivateKey := Z;
  PublicKey := Z;
  crypto_sign := sign;
  crypto_verify := verify;
  crypto_randomBytes := random;
  crypto_getRandomValues := fun _ => None;
  Buffer_from_base64 := base64_decode;
  Float := Z;
  Float_toString := toString
|}.

(** A stand-in for the time parser: one fixed instant for every text in
    the URI form. *)
Definition parse_epoch (tps : jsstring) : result number :=
  if startsWith tps (lit "tps://") then OK (Int 1767969025000)
  else Err TPSUnrecognizedFormat.

(** The strings and tokens the examples run on. *)

Definition sample : jsstring :=
  lit "tps://31.95,35.91,800m@T:greg.m3.c1.y26.M01.d09.h14.n30.s25".

(** [sample] with a byte order mark U+FEFF in front *)
Definition sample_bom : jsstring := 0xFEFF :: sample.

Definition unwrap (r : result bytes) : bytes :=
  match r with OK b => b | Err _ => [] end.

Definition sealed_sample : bytes :=
  unwrap (seal platform parse_epoch sample 5
            (Claims.with_epoch (Int 1700000000000))).

Definition unsealed_sample : bytes :=
  unwrap (encodeBinary platform parse_epoch sample
            (Claims.with_epoch (Int 1700000000000))).

(** What [unsealed_sample] and [sealed_sample] decode to. *)
Definition sample_result : TPSUID7RBDecodeResult :=
  {| version := lit "tpsuid7rb"; epochMs := 1700000000000;
     compressed := false; nonce := 187716986; tps := sample |}.

Definition unwrap_text (r : result jsstring) : jsstring :=
  match r with OK s => s | Err _ => [] end.

(** The identifier [generate] gives at 2023-11-14T22:13:20.123Z. *)
Definition generated_id : jsstring :=
  unwrap_text (generate platform parse_epoch 1700000000123 None).

End Model.

(** ** The time text

    [TPSUID7RB.epochMsFromTPSString] (index.ts 1021-1079), which reads
    the epoch out of a payload text, and the functions of the class
    [TPS] that write such texts: [pad], [fromDate] and [toURI]
    (index.ts 324-435, 705-708). *)

(** *** The runtime they call *)

From Stdlib Require DecimalZ DecimalPos.

Module JSText.
Import JS.

(** The code of a one-character literal *)
Definition code (s : string) : Z := hd 0 (lit s).

(** [s.indexOf(c)] for a one-character [c]: the first position, or -1 *)
Fixpoint indexOf (s : jsstring) (c : Z) : Z :=
  match s with
  | [] => -1
  | x :: r =>
      if x =? c then 0
      else let i := indexOf r c in if i <? 0 then -1 else i + 1
  end.

(** [s.includes(c)] *)
Definition includes (s : jsstring) (c : Z) : bool := existsb (Z.eqb c) s.

(** The class [\d] of a pattern without flags: 0 to 9 *)
Definition is_digit (c : Z) : bool := (48 <=? c) && (c <=? 57).

(** What a greedy [\d{1,n}] ([Some n]) or [\d+] ([None]) takes at the
    head of [s]: the longest run of digits, of at most [n]. *)
Fixpoint take_digits (max : option nat) (s : jsstring) : jsstring :=
  match s with
  | c :: r =>
      if is_digit c then
        match max with
        | Some O => []
        | Some (S m) => c :: take_digits (Some m) r
        | None => c :: take_digits None r
        end
      else []
  | [] => []
  end.

(** One attempt of [/\.k(\d{1,n})/], or of [/\.k(-?\d+)/] when [sign] is
    set, at the head of [s]: the text of the group.  After a '-' that is
    not followed by a digit the pattern fails here, with or without the
    '-'. *)
Definition match_here (k : Z) (sign : bool) (max : option nat)
    (s : jsstring) : option jsstring :=
  match s with
  | dot :: k' :: r =>
      if (dot =? code ".") && (k' =? k) then
        let '(minus, r) :=
          match r with
          | c :: r' => if sign && (c =? code "-") then ([c], r') else ([], r)
          | [] => ([], r)
          end in
        match take_digits max r with
        | [] => None
        | ds => Some (minus ++ ds)
        end
      else None
  | _ => None
  end.

(** [s.match(re)[1]] for these patterns, which have no flags: the
    attempt at the leftmost position where one succeeds; [None] is a
    [null] match. *)
Fixpoint regex_match (k : Z) (sign : bool) (max : option nat)
    (s : jsstring) : option jsstring :=
  match match_here k sign max s with
  | Some group => Some group
  | None =>
      match s with
      | [] => None
      | _ :: r => regex_match k sign max r
      end
  end.

(** The digits of a text as a decimal numeral *)
Fixpoint undigits (s : jsstring) : Decimal.uint :=
  match s with
  | [] => Decimal.Nil
  | c :: r =>
      let u := undigits r in
      if c =? 48 then Decimal.D0 u else if c =? 49 then Decimal.D1 u
      else if c =? 50 then Decimal.D2 u else if c =? 51 then Decimal.D3 u
      else if c =? 52 then Decimal.D4 u else if c =? 53 then Decimal.D5 u
      else if c =? 54 then Decimal.D6 u else if c =? 55 then Decimal.D7 u
      else if c =? 56 then Decimal.D8 u else Decimal.D9 u
  end.

(** [parseInt(s, 10)] on the text of a group: digits, with a '-' in
    front for the one signed group.  The value is the integer the digits
    spell, which is what JavaScript computes for up to 15 digits; it
    rounds longer numbers to a double. *)
Definition parseInt (s : jsstring) : Z :=
  match s with
  | c :: r => if c =? code "-" then - Z.of_uint (undigits r)
              else Z.of_uint (undigits s)
  | [] => 0
  end.

(** The day number of a date of the proleptic Gregorian calendar, month
    1 to 12: the inverse of [civil_from_days]. *)
Definition days_from_civil (y m d : Z) : Z :=
  let y := if m <=? 2 then y - 1 else y in
  let era := y / 400 in
  let yoe := y - era * 400 in
  let doy := (153 * (if 2 <? m then m - 3 else m + 9) + 2) / 5 + d - 1 in
  let doe := yoe * 365 + yoe / 4 - yoe / 100 + doy in
  era * 146097 + doe - 719468.

(** [Date.UTC(year, month, date, hours, minutes, seconds)] on integers,
    after ECMAScript: MakeFullYear (a year from 0 to 99 is a year of the
    twentieth century), MakeDay (months beyond 0..11 carry into the
    year), MakeTime, MakeDate and TimeClip; [None] is NaN. *)
Definition Date_UTC (year month date hours minutes seconds : Z) : option Z :=
  let yr := if (0 <=? year) && (year <=? 99) then 1900 + year else year in
  let ym := yr + month / 12 in
  let mn := month mod 12 in
  let day := days_from_civil ym (mn + 1) 1 + date - 1 in
  let time := hours * 3600000 + minutes * 60000 + seconds * 1000 in
  let tv := day * msPerDay + time in
  if Z.abs tv <=? 8640000000000000 then Some tv else None.

(** [parts.join(sep)] *)
Fixpoint join (sep : jsstring) (parts : list jsstring) : jsstring :=
  match parts with
  | [] => []
  | [p] => p
  | p :: rest => p ++ sep ++ join sep rest
  end.

End JSText.

(** *** [epochMsFromTPSString] *)

Module TimeText.
Import JS JSText.

Definition epochMsFromTPSString (tps : jsstring) : result number :=
  time <-
    (if includes tps (code "@") then
       let at_ := indexOf tps (code "@") in
       OK (trim (slice_from tps (at_ + 1)))
     else if startsWith tps (lit "T:") then OK tps
     else Err TPSUnrecognizedFormat) ;;
  if negb (startsWith time (lit "T:greg.")) then Err TPSOnlyGreg
  else
    let mMatch := regex_match (code "m") true None time in
    let cMatch := regex_match (code "c") false None time in
    let yMatch := regex_match (code "y") false (Some 4%nat) time in
    let MMatch := regex_match (code "M") false (Some 2%nat) time in
    let dMatch := regex_match (code "d") false (Some 2%nat) time in
    let hMatch := regex_match (code "h") false (Some 2%nat) time in
    let nMatch := regex_match (code "n") false (Some 2%nat) time in
    let sMatch := regex_match (code "s") false (Some 2%nat) time in
    fullYear <-
      match mMatch, cMatch, yMatch with
      | Some m1, Some c1, Some y1 =>
          let millennium := parseInt m1 in
          let century := parseInt c1 in
          let year := parseInt y1 in
          OK ((millennium - 1) * 1000 + (century - 1) * 100 + year)
      | _, _, Some y1 =>
          let year := parseInt y1 in
          let year :=
            if year <? 100
            then (if year <=? 69 then 2000 + year else 1900 + year)
            else year in
          OK year
      | _, _, None => Err TPSMissingYear
      end ;;
    let month := match MMatch with Some g => parseInt g | None => 1 end in
    let day := match dMatch with Some g => parseInt g | None => 1 end in
    let hour := match hMatch with Some g => parseInt g | None => 0 end in
    let minute := match nMatch with Some g => parseInt g | None => 0 end in
    let second := match sMatch with Some g => parseInt g | None => 0 end in
    match Date_UTC fullYear (month - 1) day hour minute second with
    | Some epoch => OK (Int epoch)
    | None => Err TPSEpochFailed
    end.

End TimeText.

(** *** The class TPS: [pad], [fromDate], [toURI] *)

Module TPS.
Import JS JSText.

Inductive CalendarCode : Type := greg | hij | jul | holo | unix.

(** The code as the string it is *)
Definition CalendarCode_text (c : CalendarCode) : jsstring :=
  match c with
  | greg => lit "greg" | hij => lit "hij" | jul => lit "jul"
  | holo => lit "holo" | unix => lit "unix"
  end.

(** A [CalendarDriver], as far as [fromDate] uses it: its code and its
    own [fromDate], on the time value of the date *)
Record CalendarDriver : Type := {
  driver_code : CalendarCode;
  driver_fromDate : Z -> jsstring
}.

(** The registry [TPS.drivers], a [Map] from codes to drivers *)
Definition Drivers : Type := CalendarCode -> option CalendarDriver.

Definition no_drivers : Drivers := fun _ => None.

(** [pad(n)] on [s = n.toString()], the first line of the function *)
Definition pad (s : jsstring) : jsstring :=
  if len s <? 2 then lit "0" ++ s else s.

(** What [fromDate] gives: a string, or the error 'Calendar driver ...
    not implemented. Register a driver.' *)
Inductive fromDate_result : Type :=
| Text (s : jsstring)
| NotImplemented (calendar : CalendarCode).

Section WithPlatform.

Variable P : Platform.

(** [(date.getTime() / 1000).toFixed(3)] on the time value of the date *)
Variable seconds_toFixed3 : Z -> jsstring.

(** [date] is the time value of the [Date]. *)
Definition fromDate (drivers : Drivers) (date : Z) (calendar : CalendarCode)
  : fromDate_result :=
  match drivers calendar with
  | Some driver => Text (driver_fromDate driver date)
  | None =>
      match calendar with
      | unix =>
          let s := seconds_toFixed3 date in
          Text (lit "T:unix.s" ++ s)
      | greg =>
          let fullYear := getUTCFullYear date in
          let m := fullYear / 1000 + 1 in
          let c := Z.rem fullYear 1000 / 100 + 1 in
          let y := Z.rem fullYear 100 in
          let M := getUTCMonth date + 1 in
          let d := getUTCDate date in
          let h := getUTCHours date in
          let n := getUTCMinutes date in
          let s := getUTCSeconds date in
          Text (lit "T:greg.m" ++ toString m ++ lit ".c" ++ toString c
                  ++ lit ".y" ++ toString y ++ lit ".M" ++ pad (toString M)
                  ++ lit ".d" ++ pad (toString d)
                  ++ lit ".h" ++ pad (toString h)
                  ++ lit ".n" ++ pad (toString n)
                  ++ lit ".s" ++ pad (toString s))
      | _ => NotImplemented calendar
      end
  end.

(** [TPSComponents]; [None] is an absent field, a number is a value of
    the platform's [Float] with its conversion to a string, and
    [extensions] holds the entries in the order [Object.entries] gives
    them. *)
Record TPSComponents : Type := {
  calendar : CalendarCode;
  millennium : option (Float P);
  century : option (Float P);
  year : option (Float P);
  month : option (Float P);
  day : option (Float P);
  hour : option (Float P);
  minute : option (Float P);
  second : option (Float P);
  unixSeconds : option (Float P);
  latitude : option (Float P);
  longitude : option (Float P);
  altitude : option (Float P);
  s2Cell : option jsstring;
  h3Cell : option jsstring;
  plusCode : option jsstring;
  what3words : option jsstring;
  building : option jsstring;
  floor : option jsstring;
  room : option jsstring;
  zone : option jsstring;
  isUnknownLocation : option bool;
  isRedactedLocation : option bool;
  isHiddenLocation : option bool;
  actor : option jsstring;
  signature : option jsstring;
  extensions : option (list (jsstring * jsstring))
}.

(** A field in the place of a condition: a string counts when it is
    there and not empty, a boolean when it is [true]. *)
Definition given (s : option jsstring) : option jsstring :=
  match s with
  | Some (c :: r) => Some (c :: r)
  | _ => None
  end.

Definition holds (b : option bool) : bool :=
  match b with Some true => true | _ => false end.

(** [`.k${n}`] and [`.k${this.pad(n)}`] when the field is there *)
Definition part (k : string) (n : option (Float P)) : jsstring :=
  match n with
  | Some x => lit k ++ Float_toString P x
  | None => []
  end.

Definition padded_part (k : string) (n : option (Float P)) : jsstring :=
  match n with
  | Some x => lit k ++ pad (Float_toString P x)
  | None => []
  end.

Definition toURI (comp : TPSComponents) : jsstring :=
  let spacePart :=
    if holds (isHiddenLocation comp) then lit "L:~"
    else if holds (isRedactedLocation comp) then lit "L:redacted"
    else if holds (isUnknownLocation comp) then lit "L:-"
    else
      match given (s2Cell comp) with
      | Some cell => lit "L:s2=" ++ cell
      | None =>
      match given (h3Cell comp) with
      | Some cell => lit "L:h3=" ++ cell
      | None =>
      match given (plusCode comp) with
      | Some plus => lit "L:plus=" ++ plus
      | None =>
      match given (what3words comp) with
      | Some w3w => lit "L:w3w=" ++ w3w
      | None =>
      match given (building comp) with
      | Some bldg =>
          let spacePart := lit "L:bldg=" ++ bldg in
          let spacePart :=
            match given (floor comp) with
            | Some f => spacePart ++ lit ".floor=" ++ f
            | None => spacePart
            end in
          let spacePart :=
            match given (room comp) with
            | Some r => spacePart ++ lit ".room=" ++ r
            | None => spacePart
            end in
          match given (zone comp) with
          | Some z => spacePart ++ lit ".zone=" ++ z
          | None => spacePart
          end
      | None =>
          match latitude comp, longitude comp with
          | Some lat, Some lon =>
              let spacePart :=
                lit "L:" ++ Float_toString P lat ++ lit ","
                  ++ Float_toString P lon in
              match altitude comp with
              | Some alt => spacePart ++ lit "," ++ Float_toString P alt
                              ++ lit "m"
              | None => spacePart
              end
          | _, _ => lit "L:-"
          end
      end end end end end in
  let actorPart :=
    match given (actor comp) with
    | Some a => lit "/A:" ++ a
    | None => []
    end in
  let timePart := lit "T:" ++ CalendarCode_text (calendar comp) in
  let timePart :=
    match calendar comp, unixSeconds comp with
    | unix, Some u => timePart ++ lit ".s" ++ Float_toString P u
    | _, _ =>
        timePart ++ part ".m" (millennium comp) ++ part ".c" (century comp)
          ++ part ".y" (year comp) ++ padded_part ".M" (month comp)
          ++ padded_part ".d" (day comp) ++ padded_part ".h" (hour comp)
          ++ padded_part ".n" (minute comp) ++ padded_part ".s" (second comp)
    end in
  let timePart :=
    match given (signature comp) with
    | Some sig => timePart ++ lit "!" ++ sig
    | None => timePart
    end in
  let extPart :=
    match extensions comp with
    | Some (entry :: entries) =>
        let extStrings :=
          map (fun '(k, v) => k ++ lit "=" ++ v) (entry :: entries) in
        lit ";" ++ join (lit ".") extStrings
    | _ => []
    end in
  lit "tps://" ++ spacePart ++ actorPart ++ lit "/" ++ timePart ++ extPart.

End WithPlatform.

End TPS.

(** *** Stating the time properties *)

Module TimeFacts.
Import JS JSText TPS.

(** What is true of every day of a year counted from the first of
    March, 0 to 365: the month and the day [civil_from_days] gives are a
    month and a day, and [days_from_civil] counts them back. *)
Definition doy_checked (doy : Z) : bool :=
  let mp := (5 * doy + 2) / 153 in
  let dd := doy - (153 * mp + 2) / 5 + 1 in
  let m := if mp <? 10 then mp + 3 else mp - 9 in
  (1 <=? m) && (m <=? 12) && (1 <=? dd) && (dd <=? 31)
  && ((153 * (if 2 <? m then m - 3 else m + 9) + 2) / 5 + dd - 1 =? doy).

(** What is true of the text of an integer from 0 to 99, padded or not:
    one or two digits that spell it, two when padded. *)
Definition two_digits_checked (v : Z) : bool :=
  forallb is_digit (toString v) && (1 <=? len (toString v))
  && (len (toString v) <=? 2) && (parseInt (toString v) =? v)
  && forallb is_digit (pad (toString v)) && (len (pad (toString v)) =? 2)
  && (parseInt (pad (toString v)) =? v)
  && (parseInt (padStart0 2 (toString v)) =? v).

(** Where a run of digits ends: at the end of the text or at a character
    that is not a digit. *)
Definition stops (r : jsstring) : Prop :=
  match r with
  | [] => True
  | c :: _ => is_digit c = false
  end.

Definition fits (max : option nat) (ds : jsstring) : Prop :=
  match max with
  | Some n => (length ds <= n)%nat
  | None => True
  end.

(** A text without the character '@' *)
Definition at_free (s : jsstring) : Prop := includes s (code "@") = false.

Definition at_free_field (s : option jsstring) : Prop :=
  match s with Some t => at_free t | None => True end.

(** Components none of whose texts has an '@' in it *)
Definition at_free_components (P : Platform) (comp : TPSComponents P)
  : Prop :=
  at_free_field (s2Cell P comp) /\ at_free_field (h3Cell P comp)
  /\ at_free_field (plusCode P comp) /\ at_free_field (what3words P comp)
  /\ at_free_field (building P comp) /\ at_free_field (floor P comp)
  /\ at_free_field (room P comp) /\ at_free_field (zone P comp)
  /\ at_free_field (actor P comp) /\ at_free_field (signature P comp)
  /\ match extensions P comp with
     | Some entries =>
         Forall (fun '(k, v) => at_free k /\ at_free v) entries
     | None => True
     end.

(** The last instant of the range of a [Date] *)
Definition maxTime : Z := 8640000000000000.

(** Components to run [toURI] on, at the concrete platform, whose
    numbers are integers. *)
Definition as_float (z : Z) : option (Float Model.platform) := Some z.

Definition sample_components : TPSComponents Model.platform :=
  {| calendar := greg;
     millennium := as_float 3; century := as_float 1; year := as_float 26;
     month := as_float 1; day := as_float 9; hour := as_float 14; minute := as_float 30;
     second := as_float 25; unixSeconds := None;
     latitude := as_float 31; longitude := as_float 35; altitude := None;
     s2Cell := None; h3Cell := None; plusCode := None; what3words := None;
     building := None; floor := None; room := None; zone := None;
     isUnknownLocation := None; isRedactedLocation := None;
     isHiddenLocation := None;
     actor := Some (lit "node:gw-01"); signature := None;
     extensions := Some [(lit "f", lit "4")] |}.

End TimeFacts.

(** ** A platform without [require]

    The concrete platform as a browser has it: no [require], so no
    zlib and no [node:crypto], and the random bytes from
    [crypto.getRandomValues]. *)

Module Browser.

Definition platform : Platform := {|
  has_require := false;
  zlib_deflateRawSync := fun _ => None;
  zlib_inflateRawSync := fun _ => None;
  PrivateKey := Z;
  PublicKey := Z;
  crypto_sign := fun _ _ => None;
  crypto_verify := fun _ _ _ => None;
  crypto_randomBytes := fun _ => None;
  crypto_getRandomValues := Model.random;
  Buffer_from_base64 := Model.base64_decode;
  Float := Z;
  Float_toString := JS.toString
|}.

End Browser.

(** ** Stating the properties of seals *)

Module SealFacts.
Import JS TPSUID7RB.

(** The errors [verifyAndDecode] raises when the bytes behind the flags
    do not frame a seal: a length field that does not end, a payload
    block or a signature that is not there, a seal type other than 1, a
    signature that is not of 64 bytes. *)
Definition seal_framing_error (e : error) : Prop :=
  e = UvarintTooLarge \/ e = UvarintTooLong
  \/ e = LengthOverflowTruncated \/ e = MissingSignatureData
  \/ (exists t, e = UnsupportedSealType t)
  \/ (exists n, e = InvalidSignatureLength n).

(** The platform in a run in which the random generator hands out the
    bytes [nonceBuf]; everything else as in [P]. *)
Definition with_nonce (P : Platform) (nonceBuf : bytes) : Platform := {|
  has_require := has_require P;
  zlib_deflateRawSync := zlib_deflateRawSync P;
  zlib_inflateRawSync := zlib_inflateRawSync P;
  PrivateKey := PrivateKey P;
  PublicKey := PublicKey P;
  crypto_sign := crypto_sign P;
  crypto_verify := crypto_verify P;
  crypto_randomBytes := fun _ => Some nonceBuf;
  crypto_getRandomValues := fun _ => Some nonceBuf;
  Buffer_from_base64 := Buffer_from_base64 P;
  Float := Float P;
  Float_toString := Float_toString P
|}.

(** A text of 64 bytes that begins with U+0000, and the token [seal]
    makes of it: its length field is the one byte 0x40. *)
Definition nul_sample : jsstring :=
  0 :: lit "tps://unknown@T:greg.m3.c1.y26.M01.d09.h14.n30.s25;note=abcdefg".

Definition nul_sealed : bytes :=
  Model.unwrap (seal Model.platform Model.parse_epoch nul_sample 5
                  (Claims.with_epoch (Int 1700000000000))).

End SealFacts.

(** * Properties *)

Import JS TPSUID7RB.

Lemma OK_inj {A : Type} (a b : A) : OK a = OK b -> a = b.
Proof. intros H. injection H as H. exact H. Qed.

(** ** Lists and typed arrays *)

Lemma len_app {A : Type} (l1 l2 : list A) : len (l1 ++ l2) = len l1 + len l2.
Proof. unfold len. rewrite length_app. lia. Qed.

Lemma len_nonneg {A : Type} (l : list A) : 0 <= len l.
Proof. unfold len. lia. Qed.

Lemma len_cons {A : Type} (a : A) (l : list A) : len (a :: l) = 1 + len l.
Proof. unfold len. simpl length. lia. Qed.

Lemma bytes_ok_app (l1 l2 : bytes) :
  bytes_ok (l1 ++ l2) <-> bytes_ok l1 /\ bytes_ok l2.
Proof. unfold bytes_ok. apply Forall_app. Qed.

Lemma get_app_l (l1 l2 : bytes) (i : Z) :
  0 <= i < len l1 -> get (l1 ++ l2) i = get l1 i.
Proof.
  unfold get, len. intros H. apply app_nth1. lia.
Qed.

Lemma get_app_r (l1 l2 : bytes) (i : Z) :
  len l1 <= i -> get (l1 ++ l2) i = get l2 (i - len l1).
Proof.
  unfold get, len. intros H. rewrite app_nth2 by lia.
  f_equal. lia.
Qed.

Lemma slice_from_app (l1 l2 : bytes) :
  slice_from (l1 ++ l2) (len l1) = l2.
Proof.
  unfold slice_from, len. rewrite Nat2Z.id.
  rewrite skipn_app, skipn_all, Nat.sub_diag. reflexivity.
Qed.

Lemma slice_app_mid (l1 l2 l3 : bytes) :
  slice (l1 ++ l2 ++ l3) (len l1) (len l1 + len l2) = l2.
Proof.
  unfold slice, len. rewrite Nat2Z.id.
  rewrite skipn_app, skipn_all, Nat.sub_diag. simpl.
  replace (Z.to_nat (Z.of_nat (length l1) + Z.of_nat (length l2)) - length l1)%nat
    with (length l2 + 0)%nat by lia.
  rewrite firstn_app_2. simpl. apply app_nil_r.
Qed.

Lemma slice_0_app (l1 l2 : bytes) : slice (l1 ++ l2) 0 (len l1) = l1.
Proof.
  apply (slice_app_mid [] l1 l2).
Qed.

(** Filling a fresh array piece by piece gives the concatenation. *)
Lemma set_fill (done src : bytes) (n : nat) :
  set (done ++ repeat 0 (length src + n)) src (len done)
  = (done ++ src) ++ repeat 0 n.
Proof.
  unfold set, len. rewrite Nat2Z.id.
  rewrite firstn_app, firstn_all, Nat.sub_diag. simpl. rewrite app_nil_r.
  rewrite skipn_app.
  rewrite skipn_all2 by lia.
  replace (length done + length src - length done)%nat with (length src) by lia.
  rewrite repeat_app, skipn_app, repeat_length, Nat.sub_diag.
  rewrite skipn_all2 by (rewrite repeat_length; lia).
  simpl. rewrite <- app_assoc. reflexivity.
Qed.

(** ** The 32-bit operators *)

Lemma ToUint32_range (z : Z) : 0 <= ToUint32 z < 2 ^ 32.
Proof. unfold ToUint32. apply Z.mod_pos_bound. lia. Qed.

Lemma ToUint32_small (z : Z) : 0 <= z < 2 ^ 32 -> ToUint32 z = z.
Proof. unfold ToUint32. intros H. apply Z.mod_small. exact H. Qed.

Lemma ToUint32_ToInt32 (z : Z) : ToUint32 (ToInt32 z) = ToUint32 z.
Proof.
  unfold ToUint32, ToInt32. cbv zeta.
  destruct (2 ^ 31 <=? z mod 2 ^ 32).
  - replace (z mod 2 ^ 32 - 2 ^ 32) with (z mod 2 ^ 32 + (-1) * 2 ^ 32) by lia.
    rewrite Z.mod_add by lia. apply Z.mod_mod. lia.
  - apply Z.mod_mod. lia.
Qed.

Lemma ToInt32_small (z : Z) : 0 <= z < 2 ^ 31 -> ToInt32 z = z.
Proof.
  unfold ToInt32. cbv zeta. intros H.
  rewrite Z.mod_small by lia.
  destruct (Z.leb_spec (2 ^ 31) z); lia.
Qed.

Lemma ToUint32_lor (a b : Z) :
  ToUint32 (Z.lor a b) = Z.lor (ToUint32 a) (ToUint32 b).
Proof.
  unfold ToUint32. rewrite <- !Z.land_ones by lia.
  apply Z.land_lor_distr_l.
Qed.

Lemma ToUint32_land (a b : Z) :
  ToUint32 (Z.land a b) = Z.land (ToUint32 a) (ToUint32 b).
Proof.
  unfold ToUint32. rewrite <- !Z.land_ones by lia.
  apply Z.bits_inj'. intros n Hn. rewrite !Z.land_spec.
  destruct (Z.testbit a n), (Z.testbit b n), (Z.testbit (Z.ones 32) n);
    reflexivity.
Qed.

Lemma ToUint32_bor (a b : Z) :
  ToUint32 (bor a b) = Z.lor (ToUint32 a) (ToUint32 b).
Proof.
  unfold bor. rewrite ToUint32_ToInt32, ToUint32_lor, !ToUint32_ToInt32.
  reflexivity.
Qed.

Lemma ToUint32_band (a b : Z) :
  ToUint32 (band a b) = Z.land (ToUint32 a) (ToUint32 b).
Proof.
  unfold band. rewrite ToUint32_ToInt32, ToUint32_land, !ToUint32_ToInt32.
  reflexivity.
Qed.

Lemma ToUint32_mul_l (a k : Z) : ToUint32 (ToInt32 a * k) = ToUint32 (a * k).
Proof.
  pose proof (ToUint32_ToInt32 a) as H. unfold ToUint32 in *.
  rewrite Z.mul_mod by lia. rewrite H. rewrite <- Z.mul_mod by lia.
  reflexivity.
Qed.

Lemma ToUint32_shl (a s : Z) :
  0 <= s < 32 -> ToUint32 (shl a s) = ToUint32 (a * 2 ^ s).
Proof.
  intros Hs. unfold shl. rewrite ToUint32_ToInt32.
  rewrite (ToUint32_small s) by lia.
  rewrite (Z.mod_small s 32) by lia.
  rewrite Z.shiftl_mul_pow2 by lia.
  apply ToUint32_mul_l.
Qed.

Lemma land_low_high (a b s : Z) :
  0 <= s -> 0 <= a < 2 ^ s -> Z.land a (b * 2 ^ s) = 0.
Proof.
  intros Hs Ha. rewrite <- Z.shiftl_mul_pow2 by lia.
  apply Z.bits_inj'. intros n Hn.
  rewrite Z.land_spec, Z.bits_0.
  destruct (Z.lt_ge_cases n s) as [Hlt | Hge].
  - rewrite Z.shiftl_spec_low by lia. apply andb_false_r.
  - rewrite <- (Z.mod_small a (2 ^ s)) by lia.
    rewrite Z.mod_pow2_bits_high by lia. reflexivity.
Qed.

Lemma lor_low_high (a b s : Z) :
  0 <= s -> 0 <= a < 2 ^ s -> Z.lor a (b * 2 ^ s) = a + b * 2 ^ s.
Proof.
  intros Hs Ha.
  pose proof (land_low_high a b s Hs Ha) as H.
  rewrite Z.add_nocarry_lxor by exact H.
  symmetry. apply Z.lxor_lor. exact H.
Qed.

(** One round of the decoder's accumulation, read as an unsigned value. *)
Lemma ToUint32_bor_shl (x g s : Z) :
  0 <= s < 32 -> 0 <= g -> g * 2 ^ s < 2 ^ 32 -> ToUint32 x < 2 ^ s ->
  ToUint32 (bor x (shl g s)) = ToUint32 x + g * 2 ^ s.
Proof.
  intros Hs Hg Hb Hx.
  rewrite ToUint32_bor, ToUint32_shl by lia.
  assert (0 < 2 ^ s) by (apply Z.pow_pos_nonneg; lia).
  rewrite (ToUint32_small (g * 2 ^ s)) by nia.
  apply lor_low_high; [lia |].
  pose proof (ToUint32_range x). lia.
Qed.

Lemma band_0x7f (x : Z) : band x 0x7f = x mod 128.
Proof.
  unfold band.
  rewrite (ToInt32_small 0x7f) by lia.
  change 0x7f with (Z.ones 7). rewrite Z.land_ones by lia.
  assert (H : ToInt32 x mod 2 ^ 7 = x mod 2 ^ 7).
  { pose proof (ToUint32_ToInt32 x) as E. unfold ToUint32 in E.
    assert (Hd : forall y, y mod 2 ^ 7 = (y mod 2 ^ 32) mod 2 ^ 7).
    { intros y. change (2 ^ 32) with 4294967296. change (2 ^ 7) with 128.
      Z.div_mod_to_equations. lia. }
    rewrite (Hd (ToInt32 x)), (Hd x), E. reflexivity. }
  rewrite H. change (2 ^ 7) with 128.
  apply ToInt32_small.
  pose proof (Z.mod_pos_bound x 128). lia.
Qed.

Lemma bor_0x80 (g : Z) : 0 <= g < 128 -> bor g 0x80 = g + 128.
Proof.
  intros Hg. unfold bor.
  rewrite (ToInt32_small g), (ToInt32_small 0x80) by lia.
  change 0x80 with (1 * 2 ^ 7).
  rewrite lor_low_high by lia.
  apply ToInt32_small. lia.
Qed.

Lemma ushr_0 (x : Z) : ushr x 0 = ToUint32 x.
Proof. unfold ushr. rewrite (ToUint32_small 0) by lia. apply Z.shiftr_0_r. Qed.

Lemma ushr_7 (x : Z) : 0 <= x < 2 ^ 32 -> ushr x 7 = x / 128.
Proof.
  intros H. unfold ushr. rewrite !ToUint32_small by lia.
  change (7 mod 32) with 7.
  rewrite Z.shiftr_div_pow2 by lia. reflexivity.
Qed.

(** ** The varint coder *)

Lemma uvarintEncode_loop_acc (fuel : nat) (x : Z) (out : list Z) :
  uvarintEncode_loop fuel x out = out ++ uvarintEncode_loop fuel x [].
Proof.
  revert x out. induction fuel as [| fuel IH]; intros x out; simpl.
  - reflexivity.
  - destruct (128 <=? x).
    + rewrite (IH _ (out ++ _)), (IH _ [_]).
      rewrite <- app_assoc. reflexivity.
    + reflexivity.
Qed.

Lemma pow2_7_succ (k : Z) : 0 <= k -> 2 ^ (7 * (k + 1)) = 128 * 2 ^ (7 * k).
Proof.
  intros Hk. replace (7 * (k + 1)) with (7 + 7 * k) by lia.
  rewrite Z.pow_add_r by lia. reflexivity.
Qed.

(** The loop of the encoder stops before its fuel does: more fuel
    changes nothing. *)
Lemma uvarintEncode_loop_fuel (fuel : nat) (x : Z) (out : list Z) :
  0 <= x < 2 ^ (7 * Z.of_nat fuel) ->
  uvarintEncode_loop (S fuel) x out = uvarintEncode_loop fuel x out.
Proof.
  revert x out. induction fuel as [| fuel IH]; intros x out Hx.
  - simpl in *. destruct (Z.leb_spec 128 x); [lia | reflexivity].
  - change (uvarintEncode_loop (S (S fuel)) x out)
      with (if 0x80 <=? x
            then uvarintEncode_loop (S fuel) (ushr x 7)
                   (out ++ [bor (band x 0x7f) 0x80])
            else out ++ [x]).
    change (uvarintEncode_loop (S fuel) x out)
      with (if 0x80 <=? x
            then uvarintEncode_loop fuel (ushr x 7)
                   (out ++ [bor (band x 0x7f) 0x80])
            else out ++ [x]).
    destruct (Z.leb_spec 0x80 x) as [Hge | Hlt]; [| reflexivity].
    apply IH.
    rewrite Nat2Z.inj_succ, <- Z.add_1_r, pow2_7_succ in Hx by lia.
    assert (Hp : 0 < 2 ^ (7 * Z.of_nat fuel)) by (apply Z.pow_pos_nonneg; lia).
    unfold ushr. change (ToUint32 7 mod 32) with 7.
    rewrite Z.shiftr_div_pow2 by lia. change (2 ^ 7) with 128.
    pose proof (ToUint32_range x) as Hr.
    assert (Hle : ToUint32 x <= x).
    { unfold ToUint32. apply Z.mod_le; lia. }
    split.
    + apply Z.div_pos; lia.
    + apply Z.div_lt_upper_bound; lia.
Qed.

Lemma shl_0_l (s : Z) : shl 0 s = 0.
Proof.
  unfold shl. change (ToInt32 0) with 0. rewrite Z.shiftl_0_l. reflexivity.
Qed.

Lemma ToUint32_bor_0_r (x : Z) : ToUint32 (bor x 0) = ToUint32 x.
Proof.
  rewrite ToUint32_bor. change (ToUint32 0) with 0. apply Z.lor_0_r.
Qed.

Lemma small_index (i : Z) :
  0 <= i <= 4 -> i = 0 \/ i = 1 \/ i = 2 \/ i = 3 \/ i = 4.
Proof. lia. Qed.

(** Decoding what the encoder's loop wrote, from any round [i] of the
    decoder on: the value read so far grows by the encoded number. *)
Lemma uvarint_loop_roundtrip (fuel : nat) :
  forall (v i acc : Z) (rest : bytes),
    0 <= i -> i + Z.of_nat fuel <= 5 ->
    0 <= v < 2 ^ (7 * Z.of_nat fuel) ->
    v * 2 ^ (7 * i) < 2 ^ 32 ->
    ToUint32 acc < 2 ^ (7 * i) ->
    uvarintDecode_loop (uvarintEncode_loop fuel v [] ++ rest) acc (7 * i) i
    = OK (ToUint32 acc + v * 2 ^ (7 * i),
          i + len (uvarintEncode_loop fuel v [])).
Proof.
  induction fuel as [| fuel IH]; intros v i acc rest Hi Hfuel Hv Hb Hacc.
  - assert (v = 0) by (simpl in Hv; lia). subst v.
    simpl. rewrite shl_0_l, ushr_0, ToUint32_bor_0_r.
    destruct (Z.ltb_spec 9 i); [lia |].
    destruct (Z.eqb_spec i 9); [lia |]. simpl.
    f_equal. f_equal. lia.
  - assert (Hi4 : 0 <= i <= 4) by lia.
    assert (Hp : 0 < 2 ^ (7 * i)) by (apply Z.pow_pos_nonneg; lia).
    change (uvarintEncode_loop (S fuel) v [])
      with (if 0x80 <=? v
            then uvarintEncode_loop fuel (ushr v 7)
                   ([] ++ [bor (band v 0x7f) 0x80])
            else [] ++ [v]).
    destruct (Z.leb_spec 0x80 v) as [Hge | Hlt].
    + (* a continuation byte, then the rest *)
      assert (Hv32 : 0 <= v < 2 ^ 32) by nia.
      rewrite uvarintEncode_loop_acc. simpl app.
      rewrite band_0x7f, bor_0x80
        by (pose proof (Z.mod_pos_bound v 128); lia).
      rewrite ushr_7 by exact Hv32.
      pose proof (Z.mod_pos_bound v 128 ltac:(lia)) as Hm.
      cbn [uvarintDecode_loop].
      destruct (Z.ltb_spec (v mod 128 + 128) 0x80); [lia |].
      rewrite band_0x7f.
      replace ((v mod 128 + 128) mod 128) with (v mod 128)
        by (Z.div_mod_to_equations; lia).
      destruct (Z.ltb_spec 10 (i + 1)); [lia |].
      replace (7 * i + 7) with (7 * (i + 1)) by lia.
      assert (Hi3 : i <= 3).
      { destruct (small_index i Hi4) as [E | [E | [E | [E | E]]]]; subst i;
          lia. }
      assert (Hdiv : v = 128 * (v / 128) + v mod 128)
        by (apply Z.div_mod; lia).
      assert (Hq : 0 <= v / 128) by (apply Z.div_pos; lia).
      assert (Hq' : v / 128 < 2 ^ (7 * Z.of_nat fuel)).
      { rewrite Nat2Z.inj_succ, <- Z.add_1_r, pow2_7_succ in Hv by lia.
        apply Z.div_lt_upper_bound; lia. }
      pose proof (pow2_7_succ i ltac:(lia)) as Hpow.
      set (p := 2 ^ (7 * i)) in *.
      assert (Hlow : v mod 128 * p < 2 ^ 32) by nia.
      assert (Hacc' : ToUint32 (bor acc (shl (v mod 128) (7 * i)))
                      = ToUint32 acc + v mod 128 * p).
      { apply ToUint32_bor_shl; lia. }
      rewrite (IH (v / 128) (i + 1) _ rest).
      * rewrite Hacc', Hpow, len_cons.
        f_equal. f_equal; [nia | lia].
      * lia.
      * lia.
      * lia.
      * rewrite Hpow. nia.
      * rewrite Hacc', Hpow. nia.
    + (* the last byte *)
      simpl app. cbn [uvarintDecode_loop].
      destruct (Z.ltb_spec v 0x80); [| lia].
      destruct (Z.ltb_spec 9 i); [lia |].
      destruct (Z.eqb_spec i 9); [lia |]. simpl orb. cbv iota.
      rewrite ushr_0, ToUint32_bor_shl by lia.
      reflexivity.
Qed.

Lemma uvarintEncode_loop_bytes (fuel : nat) :
  forall v, 0 <= v < 2 ^ (7 * Z.of_nat fuel) -> v < 2 ^ 32 ->
    bytes_ok (uvarintEncode_loop fuel v [])
    /\ 1 <= len (uvarintEncode_loop fuel v []) <= Z.of_nat fuel + 1.
Proof.
  induction fuel as [| fuel IH]; intros v Hv Hv32.
  - simpl in *. split; [| unfold len; simpl; lia].
    repeat constructor; lia.
  - change (uvarintEncode_loop (S fuel) v [])
      with (if 0x80 <=? v
            then uvarintEncode_loop fuel (ushr v 7)
                   ([] ++ [bor (band v 0x7f) 0x80])
            else [] ++ [v]).
    destruct (Z.leb_spec 0x80 v) as [Hge | Hlt].
    + rewrite uvarintEncode_loop_acc. simpl app.
      pose proof (Z.mod_pos_bound v 128 ltac:(lia)) as Hm.
      rewrite band_0x7f, bor_0x80 by lia.
      rewrite ushr_7 by lia.
      rewrite Nat2Z.inj_succ, <- Z.add_1_r, pow2_7_succ in Hv by lia.
      assert (Hq : 0 <= v / 128 < 2 ^ (7 * Z.of_nat fuel)).
      { split; [apply Z.div_pos; lia | apply Z.div_lt_upper_bound; lia]. }
      assert (Hq32 : v / 128 < 2 ^ 32).
      { apply Z.div_lt_upper_bound; lia. }
      destruct (IH (v / 128) Hq Hq32) as [Hok Hlen].
      split.
      * constructor; [unfold byte_ok; lia | exact Hok].
      * rewrite len_cons. lia.
    + simpl app. split; [| unfold len; simpl; lia].
      repeat constructor; lia.
Qed.

(** The varint field decodes to the length it was written from, reduced
    to 32 bits as [n >>> 0] reduces it. *)
Lemma uvarint_roundtrip (n : Z) (enc pre rest : bytes) :
  uvarintEncode n = OK enc ->
  uvarintDecode (pre ++ enc ++ rest) (len pre)
  = OK (ToUint32 n, len enc)
  /\ bytes_ok enc /\ 1 <= len enc <= 6.
Proof.
  unfold uvarintEncode. destruct (n <? 0); [discriminate |].
  intros E. apply OK_inj in E. rewrite ushr_0 in E.
  pose proof (ToUint32_range n) as Hr.
  assert (H35 : 0 <= ToUint32 n < 2 ^ (7 * Z.of_nat 5)).
  { change (2 ^ (7 * Z.of_nat 5)) with 34359738368.
    change (2 ^ 32) with 4294967296 in Hr. lia. }
  split.
  - unfold uvarintDecode. rewrite slice_from_app. subst enc.
    pose proof (uvarint_loop_roundtrip 5 (ToUint32 n) 0 0 rest) as H.
    change (7 * 0) with 0 in H. change (2 ^ 0) with 1 in H.
    change (ToUint32 0) with 0 in H.
    rewrite H; try lia.
    f_equal. f_equal; lia.
  - subst enc.
    destruct (uvarintEncode_loop_bytes 5 (ToUint32 n) H35) as [Hok Hlen];
      [lia |].
    change (Z.of_nat 5 + 1) with 6 in Hlen.
    split; [exact Hok | exact Hlen].
Qed.

(** ** The 48-bit time field *)

Lemma land_0xff (x : Z) : Z.land x 0xff = x mod 256.
Proof. change 0xff with (Z.ones 8). apply Z.land_ones. lia. Qed.

Lemma writeU48_bytes (e : Z) :
  writeU48 e =
  [(e / 2 ^ 40) mod 256; (e / 2 ^ 32) mod 256; (e / 2 ^ 24) mod 256;
   (e / 2 ^ 16) mod 256; (e / 2 ^ 8) mod 256; e mod 256].
Proof.
  unfold writeU48, store. cbv zeta.
  rewrite !land_0xff, !Z.shiftr_div_pow2 by lia.
  rewrite !Z.mod_mod by lia.
  generalize ((e / 2 ^ 40) mod 256) ((e / 2 ^ 32) mod 256)
    ((e / 2 ^ 24) mod 256) ((e / 2 ^ 16) mod 256) ((e / 2 ^ 8) mod 256)
    (e mod 256).
  intros. reflexivity.
Qed.

Lemma writeU48_length (e : Z) : len (writeU48 e) = 6.
Proof. rewrite writeU48_bytes. reflexivity. Qed.

Lemma writeU48_ok (e : Z) : bytes_ok (writeU48 e).
Proof.
  rewrite writeU48_bytes.
  repeat constructor; apply Z.mod_pos_bound; lia.
Qed.

Lemma u48_sum (e : Z) :
  0 <= e < 2 ^ 48 ->
  Z.shiftl ((e / 2 ^ 40) mod 256) 40 + Z.shiftl ((e / 2 ^ 32) mod 256) 32
  + Z.shiftl ((e / 2 ^ 24) mod 256) 24 + Z.shiftl ((e / 2 ^ 16) mod 256) 16
  + Z.shiftl ((e / 2 ^ 8) mod 256) 8 + e mod 256 = e.
Proof.
  intros He. rewrite !Z.shiftl_mul_pow2 by lia.
  change (2 ^ 48) with 281474976710656 in He.
  change (2 ^ 40) with 1099511627776. change (2 ^ 32) with 4294967296.
  change (2 ^ 24) with 16777216. change (2 ^ 16) with 65536.
  change (2 ^ 8) with 256.
  Z.div_mod_to_equations. lia.
Qed.

(** The time field read back at offset 6, where both functions of the
    class read it. *)
Lemma readU48_writeU48 (a0 a1 a2 a3 a4 a5 e : Z) (rest : bytes) :
  0 <= e < 2 ^ 48 ->
  readU48 (a0 :: a1 :: a2 :: a3 :: a4 :: a5 :: writeU48 e ++ rest) 6 = OK e.
Proof.
  intros He. rewrite writeU48_bytes. unfold readU48. cbv zeta.
  set (L := a0 :: _).
  replace (get L 6) with ((e / 2 ^ 40) mod 256) by reflexivity.
  replace (get L (6 + 1)) with ((e / 2 ^ 32) mod 256) by reflexivity.
  replace (get L (6 + 2)) with ((e / 2 ^ 24) mod 256) by reflexivity.
  replace (get L (6 + 3)) with ((e / 2 ^ 16) mod 256) by reflexivity.
  replace (get L (6 + 4)) with ((e / 2 ^ 8) mod 256) by reflexivity.
  replace (get L (6 + 5)) with (e mod 256) by reflexivity.
  rewrite u48_sum by exact He.
  unfold isSafeInteger.
  destruct (Z.leb_spec (- (2 ^ 53 - 1)) e); [| lia].
  destruct (Z.leb_spec e (2 ^ 53 - 1)); [| lia].
  reflexivity.
Qed.

(** ** The layout of a token *)

Lemma set_fill_at (done src : bytes) (n k : nat) (offset : Z) :
  offset = len done -> k = (length src + n)%nat ->
  set (done ++ repeat 0 k) src offset = (done ++ src) ++ repeat 0 n.
Proof. intros -> ->. apply set_fill. Qed.

Lemma small_mod_256 (v : Z) : 0 <= v < 256 -> v mod 256 = v.
Proof. intros H. apply Z.mod_small. exact H. Qed.

(** The seven writes into the fresh array leave the seven pieces side by
    side: this is the buffer both [encodeBinary] and [seal] build. *)
Lemma fill_layout (flags epochMs : Z) (nonceBuf lenVar payload : bytes) :
  0 <= flags < 256 -> len nonceBuf = 4 ->
  let out :=
    new_Uint8Array (4 + 1 + 1 + 6 + 4 + len lenVar + len payload) in
  let offset := 0 in
  let out := set out MAGIC offset in
  let offset := offset + 4 in
  let out := store out offset VER in
  let offset := offset + 1 in
  let out := store out offset flags in
  let offset := offset + 1 in
  let out := set out (writeU48 epochMs) offset in
  let offset := offset + 6 in
  let out := set out nonceBuf offset in
  let offset := offset + 4 in
  let out := set out lenVar offset in
  let offset := offset + len lenVar in
  let out := set out payload offset in
  out = Claims.token_layout flags epochMs nonceBuf lenVar payload.
Proof.
  intros Hflags Hn. cbv zeta. unfold store, new_Uint8Array.
  rewrite (small_mod_256 VER) by (unfold VER; lia).
  rewrite (small_mod_256 flags) by exact Hflags.
  assert (Hn' : length nonceBuf = 4%nat) by (unfold len in Hn; lia).
  pose proof (writeU48_length epochMs) as Ht.
  assert (Ht' : length (writeU48 epochMs) = 6%nat) by (unfold len in Ht; lia).
  replace (Z.to_nat (4 + 1 + 1 + 6 + 4 + len lenVar + len payload))
    with (length MAGIC + (1 + (1 + (6 + (4 + (length lenVar
            + (length payload + 0)))))))%nat
    by (unfold len, MAGIC; simpl length; lia).
  change (repeat 0 (length MAGIC + ?n))
    with ([] ++ repeat 0 (length MAGIC + n)).
  rewrite (set_fill_at [] MAGIC _ _ 0 eq_refl eq_refl).
  rewrite (set_fill_at _ [VER] (1 + (6 + (4 + (length lenVar
             + (length payload + 0))))))
    by reflexivity.
  rewrite (set_fill_at _ [flags] (6 + (4 + (length lenVar
             + (length payload + 0)))))
    by reflexivity.
  rewrite (set_fill_at _ (writeU48 epochMs) (4 + (length lenVar
             + (length payload + 0))))
    by (try reflexivity; rewrite Ht'; reflexivity).
  rewrite (set_fill_at _ nonceBuf (length lenVar + (length payload + 0)))
    by (try (rewrite Hn'; reflexivity); rewrite !len_app, Ht; reflexivity).
  rewrite (set_fill_at _ lenVar (length payload + 0))
    by (try reflexivity; rewrite !len_app, Ht, Hn; reflexivity).
  rewrite (set_fill_at _ payload 0)
    by (try reflexivity; rewrite !len_app, Ht, Hn; unfold MAGIC, len;
        simpl length; lia).
  simpl (repeat 0 0). rewrite app_nil_r.
  unfold Claims.token_layout. rewrite <- !app_assoc. reflexivity.
Qed.

Lemma token_layout_length (flags e : Z) (nonceBuf lenVar payload : bytes) :
  len nonceBuf = 4 ->
  len (Claims.token_layout flags e nonceBuf lenVar payload)
  = 16 + len lenVar + len payload.
Proof.
  intros Hn. unfold Claims.token_layout.
  rewrite !len_app, writeU48_length, Hn. unfold MAGIC, len. simpl length. lia.
Qed.

(** ** Encoding and decoding a token *)

Import Claims.

Lemma uvarintEncode_total (n : Z) :
  0 <= n -> exists enc, uvarintEncode n = OK enc.
Proof.
  intros Hn. unfold uvarintEncode.
  destruct (Z.ltb_spec n 0); [lia |]. eexists. reflexivity.
Qed.

Section Codec.

Variable P : Platform.
Variable parse : jsstring -> result number.

(** What [encodeBinary] returns once its inputs are in order. *)
Lemma encodeBinary_eq (tps : jsstring) (opts : option TPSUID7RBEncodeOptions)
    (e : Z) (nonceBuf payload lenVar : bytes) :
  epoch_of parse tps opts = OK (Int e) ->
  0 <= e < 2 ^ 48 ->
  randomBytes P 4 = OK nonceBuf -> len nonceBuf = 4 ->
  payload_of P (compress_of opts) tps = OK payload ->
  uvarintEncode (len payload) = OK lenVar ->
  encodeBinary P parse tps opts
  = OK (token_layout (if compress_of opts then 1 else 0) e nonceBuf lenVar
          payload).
Proof.
  unfold epoch_of, payload_of, compress_of.
  intros Hepoch He Hrand Hn Hpay Hlen.
  unfold encodeBinary. cbv zeta. rewrite Hepoch. cbn [bind].
  destruct (Z.ltb_spec e 0); [lia |].
  destruct (Z.ltb_spec 0xffffffffffff e); [lia |].
  rewrite Hrand. cbn [bind]. rewrite Hpay. cbn [bind].
  rewrite Hlen. cbn [bind].
  f_equal.
  apply (fill_layout _ e nonceBuf lenVar payload); [| exact Hn].
  match goal with |- context [if ?c then _ else _] => destruct c end; lia.
Qed.

Lemma slice_app_part (l1 l2 l3 : bytes) (k : Z) :
  0 <= k <= len l2 ->
  slice (l1 ++ l2 ++ l3) (len l1) (len l1 + k) = firstn (Z.to_nat k) l2.
Proof.
  intros Hk. unfold slice, len in *. rewrite Nat2Z.id.
  rewrite skipn_app, skipn_all, Nat.sub_diag. simpl.
  replace (Z.to_nat (Z.of_nat (length l1) + k) - length l1)%nat
    with (Z.to_nat k) by lia.
  rewrite firstn_app.
  replace (Z.to_nat k - length l2)%nat with 0%nat by lia.
  simpl. apply app_nil_r.
Qed.

Lemma ToUint32_le (n : Z) : 0 <= n -> ToUint32 n <= n.
Proof. intros Hn. unfold ToUint32. apply Z.mod_le; lia. Qed.

(** Decoding a buffer that starts with a token layout. [trailer] is
    whatever follows the payload block: nothing for the output of
    [encodeBinary], the seal for the output of [seal].  The length field
    holds the length of the payload block modulo 2^32, and that many
    bytes are taken as the block. *)
Lemma decodeBinary_layout_gen (flags e : Z)
    (nonceBuf lenVar payload trailer : bytes) :
  0 <= flags < 4 -> 0 <= e < 2 ^ 48 -> len nonceBuf = 4 ->
  uvarintEncode (len payload) = OK lenVar ->
  decodeBinary P (token_layout flags e nonceBuf lenVar payload ++ trailer)
  = (tpsUtf8 <-
       (if Z.odd flags
        then inflateRaw P (firstn (Z.to_nat (ToUint32 (len payload))) payload)
        else OK (firstn (Z.to_nat (ToUint32 (len payload))) payload)) ;;
     OK {| version := lit "tpsuid7rb"; epochMs := e;
           compressed := Z.odd flags; nonce := nonce_of nonceBuf;
           tps := TextDecoder_decode tpsUtf8 |}).
Proof.
  intros Hflags He Hn Hlen.
  destruct nonceBuf as [| n0 [| n1 [| n2 [| n3 [| n4 nb]]]]];
    try (unfold len in Hn; simpl in Hn; lia).
  clear Hn.
  pose proof (len_nonneg payload) as Hp0.
  pose proof (ToUint32_le (len payload) Hp0) as Hle.
  pose proof (ToUint32_range (len payload)) as Hrange.
  pose proof (uvarint_roundtrip (len payload) lenVar
                (MAGIC ++ [VER] ++ [flags] ++ writeU48 e ++ [n0; n1; n2; n3])
                (payload ++ trailer) Hlen) as [Hdec [_ Hlv]].
  rewrite !len_app, writeU48_length in Hdec.
  change (len MAGIC + (len [VER] + (len [flags] + (6 + len [n0; n1; n2; n3]))))
    with 16 in Hdec.
  assert (Hshape :
    token_layout flags e [n0; n1; n2; n3] lenVar payload ++ trailer
    = (MAGIC ++ [VER] ++ [flags] ++ writeU48 e ++ [n0; n1; n2; n3])
        ++ lenVar ++ payload ++ trailer).
  { unfold token_layout. rewrite <- !app_assoc. reflexivity. }
  rewrite Hshape.
  assert (Hslice :
    slice ((MAGIC ++ [VER] ++ [flags] ++ writeU48 e ++ [n0; n1; n2; n3])
             ++ lenVar ++ payload ++ trailer)
      (16 + len lenVar) (16 + len lenVar + ToUint32 (len payload))
    = firstn (Z.to_nat (ToUint32 (len payload))) payload).
  { rewrite app_assoc.
    pose proof (slice_app_part
      ((MAGIC ++ [VER] ++ [flags] ++ writeU48 e ++ [n0; n1; n2; n3]) ++ lenVar)
      payload trailer (ToUint32 (len payload)) ltac:(lia)) as Hs.
    rewrite !len_app, writeU48_length in Hs.
    change (len MAGIC + (len [VER] + (len [flags] + (6 + len [n0; n1; n2; n3]))))
      with 16 in Hs.
    exact Hs. }
  assert (Htotal :
    len ((MAGIC ++ [VER] ++ [flags] ++ writeU48 e ++ [n0; n1; n2; n3])
           ++ lenVar ++ payload ++ trailer)
    = 16 + len lenVar + len payload + len trailer).
  { rewrite !len_app, writeU48_length. unfold MAGIC, VER, len. simpl length.
    lia. }
  assert (Hread :
    readU48 ((MAGIC ++ [VER] ++ [flags] ++ writeU48 e ++ [n0; n1; n2; n3])
               ++ lenVar ++ payload ++ trailer) 6 = OK e).
  { rewrite <- !app_assoc.
    exact (readU48_writeU48 0x54 0x50 0x55 0x37 VER flags e _ He). }
  unfold decodeBinary.
  rewrite Hread, Hdec, Htotal. cbn [bind]. cbv zeta.
  rewrite Hslice.
  rewrite writeU48_bytes.
  set (L := (MAGIC ++ _) ++ _).
  replace (get L 0) with 0x54 by reflexivity.
  replace (get L 1) with 0x50 by reflexivity.
  replace (get L 2) with 0x55 by reflexivity.
  replace (get L 3) with 0x37 by reflexivity.
  replace (get L 4) with VER by reflexivity.
  replace (get L 5) with flags by reflexivity.
  replace (get L 12) with n0 by reflexivity.
  replace (get L 13) with n1 by reflexivity.
  replace (get L 14) with n2 by reflexivity.
  replace (get L 15) with n3 by reflexivity.
  clearbody L.
  pose proof (len_nonneg trailer).
  destruct (Z.ltb_spec (16 + len lenVar + len payload + len trailer) 17);
    [lia |].
  rewrite !Z.eqb_refl. cbn [negb orb].
  destruct (Z.ltb_spec (16 + len lenVar + len payload + len trailer)
              (16 + len lenVar + ToUint32 (len payload))); [lia |].
  assert (Hodd : (band flags 1 =? 1) = Z.odd flags).
  { assert (Hc : flags = 0 \/ flags = 1 \/ flags = 2 \/ flags = 3) by lia.
    destruct Hc as [-> | [-> | [-> | ->]]]; reflexivity. }
  rewrite Hodd. reflexivity.
Qed.

Lemma firstn_len {A : Type} (l : list A) : firstn (Z.to_nat (len l)) l = l.
Proof. unfold len. rewrite Nat2Z.id. apply firstn_all. Qed.

(** The same for a payload block below 4 GiB: the block is read whole. *)
Lemma decodeBinary_layout (flags e : Z)
    (nonceBuf lenVar payload trailer : bytes) :
  0 <= flags < 4 -> 0 <= e < 2 ^ 48 -> len nonceBuf = 4 ->
  uvarintEncode (len payload) = OK lenVar -> len payload < 2 ^ 32 ->
  decodeBinary P (token_layout flags e nonceBuf lenVar payload ++ trailer)
  = (tpsUtf8 <- (if Z.odd flags then inflateRaw P payload else OK payload) ;;
     OK {| version := lit "tpsuid7rb"; epochMs := e;
           compressed := Z.odd flags; nonce := nonce_of nonceBuf;
           tps := TextDecoder_decode tpsUtf8 |}).
Proof.
  intros Hflags He Hn Hlen Hsmall.
  rewrite decodeBinary_layout_gen by assumption.
  rewrite ToUint32_small by (pose proof (len_nonneg payload); lia).
  rewrite firstn_len. reflexivity.
Qed.

End Codec.

(** ** UTF-8: TextDecoder after TextEncoder *)

Ltac arith := Z.div_mod_to_equations; lia.

Ltac decide_test :=
  match goal with
  | |- context [Z.eqb ?a ?b] =>
      destruct (Z.eqb_spec a b); try (exfalso; arith)
  | |- context [Z.leb ?a ?b] =>
      destruct (Z.leb_spec a b); try (exfalso; arith)
  | |- context [Z.ltb ?a ?b] =>
      destruct (Z.ltb_spec a b); try (exfalso; arith)
  end.

Ltac utf8_run :=
  repeat first
    [ progress cbn [utf8_decode app andb orb negb bytes_needed bytes_seen
                    code_point lower_boundary upper_boundary utf8_init]
    | progress unfold utf8_lead
    | decide_test ].

Lemma scalar_value_bounds (c : Z) :
  scalar_value c -> 0 <= c <= 0x10FFFF /\ (c < 0xD800 \/ 0xDFFF < c).
Proof.
  unfold scalar_value, is_surrogate. intros [Hr Hs]. split; [exact Hr |].
  destruct (Z.leb_spec 0xD800 c), (Z.leb_spec c 0xDFFF);
    try discriminate; lia.
Qed.

Lemma utf8_decode_encode_cp (c : Z) (rest : bytes) :
  scalar_value c ->
  utf8_decode utf8_init (utf8_encode_cp c ++ rest)
  = c :: utf8_decode utf8_init rest.
Proof.
  intros Hc. destruct (scalar_value_bounds c Hc) as [Hr Hs].
  destruct Hc as [_ Hns].
  unfold utf8_encode_cp. rewrite Hns. cbv zeta.
  destruct (Z.ltb_spec c 0x80) as [H1 | H1].
  - utf8_run. reflexivity.
  - destruct (Z.ltb_spec c 0x800) as [H2 | H2].
    + remember (c / 64) as q eqn:Hq. remember (c mod 64) as r eqn:Hm.
      utf8_run. f_equal. arith.
    + destruct (Z.ltb_spec c 0x10000) as [H3 | H3].
      * remember (c / 4096) as a eqn:Ha.
        remember ((c / 64) mod 64) as b eqn:Hb.
        remember (c mod 64) as d eqn:Hd.
        utf8_run; f_equal; arith.
      * remember (c / 262144) as a eqn:Ha.
        remember ((c / 4096) mod 64) as b eqn:Hb.
        remember ((c / 64) mod 64) as d eqn:Hd.
        remember (c mod 64) as f eqn:Hf.
        utf8_run; f_equal; arith.
Qed.

Lemma utf8_decode_encode (s : jsstring) :
  well_formed s -> utf8_decode utf8_init (TextEncoder_encode s) = s.
Proof.
  unfold well_formed, TextEncoder_encode.
  induction 1 as [| c s Hc Hs IH]; [reflexivity |].
  simpl flat_map. rewrite utf8_decode_encode_cp by exact Hc.
  rewrite IH. reflexivity.
Qed.

(** The decoder gives back the string the encoder was given, less a byte
    order mark in front. *)
Lemma TextDecoder_TextEncoder (s : jsstring) :
  well_formed s -> TextDecoder_decode (TextEncoder_encode s) = strip_bom s.
Proof.
  intros Hs. unfold TextDecoder_decode, strip_bom.
  rewrite utf8_decode_encode by exact Hs.
  destruct s as [| c r]; reflexivity.
Qed.

Lemma utf8_encode_cp_ok (c : Z) : scalar_value c -> bytes_ok (utf8_encode_cp c).
Proof.
  intros Hc. destruct (scalar_value_bounds c Hc) as [Hr Hs].
  destruct Hc as [_ Hns].
  unfold utf8_encode_cp. rewrite Hns. cbv zeta.
  destruct (Z.ltb_spec c 0x80); [| destruct (Z.ltb_spec c 0x800);
    [| destruct (Z.ltb_spec c 0x10000)]];
    repeat constructor; unfold byte_ok; arith.
Qed.

Lemma TextEncoder_encode_ok (s : jsstring) :
  well_formed s -> bytes_ok (TextEncoder_encode s).
Proof.
  unfold well_formed, TextEncoder_encode, bytes_ok.
  induction 1 as [| c s Hc Hs IH]; [constructor |].
  simpl flat_map. apply Forall_app. split; [| exact IH].
  apply utf8_encode_cp_ok. exact Hc.
Qed.

(** ** trim *)

Lemma all_whitespace_app (a b : jsstring) :
  all_whitespace (a ++ b) <-> all_whitespace a /\ all_whitespace b.
Proof.
  unfold all_whitespace. rewrite forallb_app. apply andb_true_iff.
Qed.

Lemma all_whitespace_rev (w : jsstring) :
  all_whitespace w -> all_whitespace (rev w).
Proof.
  induction w as [| c w IH]; intros H; [exact H |].
  simpl rev. apply all_whitespace_app.
  unfold all_whitespace in *. simpl in *.
  apply andb_true_iff in H. destruct H as [Hc Hw].
  split; [apply IH; exact Hw | rewrite Hc; reflexivity].
Qed.

Lemma trimStart_whitespace (w s : jsstring) :
  all_whitespace w -> trimStart (w ++ s) = trimStart s.
Proof.
  unfold all_whitespace.
  induction w as [| c w IH]; intros H; [reflexivity |].
  simpl in H. apply andb_true_iff in H. destruct H as [Hc Hw].
  simpl. rewrite Hc. apply IH. exact Hw.
Qed.

Lemma trimStart_nil (s : jsstring) : trimStart s = [] -> all_whitespace s.
Proof.
  unfold all_whitespace.
  induction s as [| c s IH]; intros H; [reflexivity |].
  simpl in *. destruct (is_whitespace c); [apply IH; exact H | discriminate].
Qed.

Lemma trimStart_app (s w : jsstring) :
  trimStart s <> [] -> trimStart (s ++ w) = trimStart s ++ w.
Proof.
  induction s as [| c s IH]; intros H; [contradiction |].
  simpl in *. destruct (is_whitespace c); [apply IH; exact H | reflexivity].
Qed.

Lemma trimStart_head (c : Z) (s : jsstring) :
  is_whitespace c = false -> trimStart (c :: s) = c :: s.
Proof. intros H. simpl. rewrite H. reflexivity. Qed.

Lemma trimStart_shape (s : jsstring) :
  trimStart s = []
  \/ exists c r, trimStart s = c :: r /\ is_whitespace c = false.
Proof.
  induction s as [| c s IH]; [left; reflexivity |].
  simpl. destruct (is_whitespace c) eqn:E; [exact IH |].
  right. exists c, s. split; [reflexivity | exact E].
Qed.

Lemma trimStart_idem (s : jsstring) : trimStart (trimStart s) = trimStart s.
Proof.
  destruct (trimStart_shape s) as [E | [c [r [E Hc]]]]; rewrite E.
  - reflexivity.
  - apply trimStart_head. exact Hc.
Qed.

Lemma trimEnd_whitespace (s w : jsstring) :
  all_whitespace w -> trimEnd (s ++ w) = trimEnd s.
Proof.
  intros H. unfold trimEnd. rewrite rev_app_distr.
  rewrite trimStart_whitespace by (apply all_whitespace_rev; exact H).
  reflexivity.
Qed.

Lemma trimEnd_idem (s : jsstring) : trimEnd (trimEnd s) = trimEnd s.
Proof.
  unfold trimEnd. rewrite rev_involutive, trimStart_idem. reflexivity.
Qed.

(** Trimming at the end keeps a first character that is not white. *)
Lemma trimEnd_head (c : Z) (s : jsstring) :
  is_whitespace c = false -> exists r, trimEnd (c :: s) = c :: r.
Proof.
  intros Hc. unfold trimEnd. simpl rev.
  assert (H : forall l, exists u, trimStart (l ++ [c]) = u ++ [c]).
  { induction l as [| d l IH].
    - exists []. simpl. rewrite Hc. reflexivity.
    - simpl. destruct (is_whitespace d); [exact IH |].
      exists (d :: l). reflexivity. }
  destruct (H (rev s)) as [u Hu]. rewrite Hu.
  rewrite rev_app_distr. simpl. exists (rev u). reflexivity.
Qed.

Lemma trimEnd_nil : trimEnd [] = [].
Proof. reflexivity. Qed.

(** Whitespace around a string does not change what [trim] returns. *)
Lemma trim_surrounded (w1 s w2 : jsstring) :
  all_whitespace w1 -> all_whitespace w2 -> trim (w1 ++ s ++ w2) = trim s.
Proof.
  intros H1 H2. unfold trim.
  rewrite trimStart_whitespace by exact H1.
  destruct (trimStart s) as [| c r] eqn:E.
  - apply trimStart_nil in E.
    assert (Hall : all_whitespace (s ++ w2))
      by (apply all_whitespace_app; split; assumption).
    rewrite <- (app_nil_r (s ++ w2)).
    rewrite trimStart_whitespace by exact Hall. reflexivity.
  - rewrite trimStart_app by (rewrite E; discriminate).
    rewrite E. apply trimEnd_whitespace. exact H2.
Qed.

Lemma trim_idem (s : jsstring) : trim (trim s) = trim s.
Proof.
  unfold trim.
  destruct (trimStart_shape s) as [E | [c [r [E Hc]]]]; rewrite E.
  - reflexivity.
  - destruct (trimEnd_head c r Hc) as [r' Hr]. rewrite Hr.
    rewrite trimStart_head by exact Hc. rewrite <- Hr.
    apply trimEnd_idem.
Qed.

(** ** The shape test *)

Lemma startsWith_app (s p : jsstring) :
  startsWith s p = true -> s = p ++ skipn (length p) s.
Proof.
  revert s. induction p as [| c p IH]; intros s H; [reflexivity |].
  destruct s as [| d s]; [discriminate |].
  simpl in H. apply andb_true_iff in H. destruct H as [Hc Hp].
  apply Z.eqb_eq in Hc. subst d. simpl. f_equal. apply IH. exact Hp.
Qed.

Lemma startsWith_prefix (p r : jsstring) : startsWith (p ++ r) p = true.
Proof.
  induction p as [| c p IH]; [reflexivity |].
  simpl. rewrite Z.eqb_refl. exact IH.
Qed.

Lemma skipn_prefix (p r : jsstring) : skipn (length p) (p ++ r) = r.
Proof.
  rewrite skipn_app, skipn_all, Nat.sub_diag. reflexivity.
Qed.

(** [REGEX.test] accepts exactly the strings of the shape. *)
Lemma REGEX_test_shape (s : jsstring) :
  REGEX_test s = true <-> matches_shape s.
Proof.
  unfold REGEX_test, matches_shape. split.
  - intros H. apply andb_true_iff in H. destruct H as [Hp Hb].
    exists (skipn (length PREFIX) s). split; [| split].
    + apply startsWith_app. exact Hp.
    + destruct (skipn (length PREFIX) s); [discriminate | discriminate].
    + destruct (skipn (length PREFIX) s); [discriminate | exact Hb].
  - intros [body [-> [Hne Hb]]].
    rewrite startsWith_prefix, skipn_prefix.
    destruct body; [contradiction | exact Hb].
Qed.

(** ** Base64 *)

Lemma bytes_ind3 (Q : bytes -> Prop) :
  Q [] -> (forall x, Q [x]) -> (forall x y, Q [x; y]) ->
  (forall x y z r, Q r -> Q (x :: y :: z :: r)) ->
  forall l, Q l.
Proof.
  intros H0 H1 H2 H3. fix IH 1.
  intros [| x [| y [| z r]]]; [exact H0 | apply H1 | apply H2 |].
  apply H3. apply IH.
Qed.

(** A property checked on every integer below a bound holds below it. *)
Lemma check_below (n : nat) (f : Z -> bool) :
  forallb f (map Z.of_nat (seq 0 n)) = true ->
  forall v, 0 <= v < Z.of_nat n -> f v = true.
Proof.
  intros H v Hv. rewrite forallb_forall in H. apply H.
  apply in_map_iff. exists (Z.to_nat v). split; [lia |].
  apply in_seq. lia.
Qed.

Lemma b64_char_url (v : Z) :
  0 <= v < 64 -> is_b64url_char (to_url (b64_char v)) = true.
Proof.
  apply (check_below 64 (fun v => is_b64url_char (to_url (b64_char v)))).
  reflexivity.
Qed.

Lemma b64_char_not_pad (v : Z) :
  0 <= v < 64 -> (to_url (b64_char v) =? 61) = false.
Proof.
  intros Hv.
  pose proof (check_below 64 (fun v => negb (to_url (b64_char v) =? 61))
                eq_refl v Hv) as H.
  apply negb_true_iff in H. exact H.
Qed.

Lemma b64_char_back (v : Z) :
  0 <= v < 64 -> of_url (to_url (b64_char v)) = b64_char v.
Proof.
  intros Hv.
  pose proof (check_below 64
    (fun v => of_url (to_url (b64_char v)) =? b64_char v) eq_refl v Hv) as H.
  apply Z.eqb_eq in H. exact H.
Qed.

Lemma b64_value_char (v : Z) :
  0 <= v < 64 -> Model.b64_value (b64_char v) = Some v.
Proof.
  intros Hv.
  pose proof (check_below 64
    (fun v => match Model.b64_value (b64_char v) with
              | Some w => w =? v
              | None => false
              end) eq_refl v Hv) as H.
  cbv beta in H. destruct (Model.b64_value (b64_char v)); [| discriminate].
  apply Z.eqb_eq in H. subst. reflexivity.
Qed.

Lemma base64_encode_text (b : bytes) :
  bytes_ok b ->
  exists body pad, b64_text body pad
    /\ base64_encode b = body ++ repeat 61 pad
    /\ len b <= len body.
Proof.
  unfold bytes_ok. induction b as [| x | x y | x y z r IH] using bytes_ind3;
    intros Hok.
  - exists [], 0%nat. split; [constructor |]. split; [reflexivity |].
    unfold len. simpl. lia.
  - inversion Hok as [| ? ? Hx _]; subst. unfold byte_ok in Hx.
    exists [b64_char (x / 4); b64_char (x mod 4 * 16)], 2%nat.
    split; [constructor; arith |]. split; [reflexivity |].
    unfold len. simpl length. lia.
  - inversion Hok as [| ? ? Hx Hr]; subst.
    inversion Hr as [| ? ? Hy _]; subst. unfold byte_ok in Hx, Hy.
    exists [b64_char (x / 4); b64_char (x mod 4 * 16 + y / 16);
            b64_char (y mod 16 * 4)], 1%nat.
    split; [constructor; arith |]. split; [reflexivity |].
    unfold len. simpl length. lia.
  - inversion Hok as [| ? ? Hx Hr]; subst.
    inversion Hr as [| ? ? Hy Hr']; subst.
    inversion Hr' as [| ? ? Hz Hr'']; subst.
    unfold byte_ok in Hx, Hy, Hz.
    destruct (IH Hr'') as [body [pad [Hb [He Hl]]]].
    exists (b64_char (x / 4) :: b64_char (x mod 4 * 16 + y / 16)
              :: b64_char (y mod 16 * 4 + z / 64) :: b64_char (z mod 64)
              :: body), pad.
    split; [constructor; try arith; exact Hb |]. split.
    + change (base64_encode (x :: y :: z :: r))
        with (b64_char (x / 4) :: b64_char (x mod 4 * 16 + y / 16)
                :: b64_char (y mod 16 * 4 + z / 64) :: b64_char (z mod 64)
                :: base64_encode r).
      rewrite He. reflexivity.
    + rewrite !len_cons. lia.
Qed.

Lemma b64_text_facts (body : jsstring) (pad : nat) :
  b64_text body pad ->
  forallb is_b64url_char (map to_url body) = true
  /\ forallb (fun c => negb (c =? 61)) (map to_url body) = true
  /\ map of_url (map to_url body) = body
  /\ Z.rem (4 - Z.rem (len body) 4) 4 = Z.of_nat pad.
Proof.
  induction 1 as [| v0 v1 H0 H1 | v0 v1 v2 H0 H1 H2
                  | v0 v1 v2 v3 r pad H0 H1 H2 H3 Hr IH].
  - repeat split; reflexivity.
  - cbn [map forallb].
    rewrite !b64_char_url, !b64_char_not_pad, !b64_char_back by assumption.
    repeat split; reflexivity.
  - cbn [map forallb].
    rewrite !b64_char_url, !b64_char_not_pad, !b64_char_back by assumption.
    repeat split; reflexivity.
  - destruct IH as [Ha [Hb [Hc Hd]]]. cbn [map forallb].
    rewrite !b64_char_url, !b64_char_not_pad, !b64_char_back by assumption.
    rewrite Ha, Hb, Hc. repeat split; try reflexivity.
    rewrite <- Hd. rewrite !len_cons.
    pose proof (len_nonneg r) as Hn.
    assert (E : forall n, 0 <= n ->
              Z.rem (4 - Z.rem n 4) 4 = (4 - n mod 4) mod 4).
    { intros n Hn0. rewrite (Z.rem_mod_nonneg n 4) by lia.
      apply Z.rem_mod_nonneg; arith. }
    rewrite !E by lia. arith.
Qed.

Lemma drop_eq_pad (pad : nat) (s : jsstring) :
  drop_eq (repeat 61 pad ++ s) = drop_eq s.
Proof. induction pad as [| pad IH]; [reflexivity | exact IH]. Qed.

Lemma drop_eq_no_pad (s : jsstring) :
  forallb (fun c => negb (c =? 61)) s = true -> drop_eq s = s.
Proof.
  destruct s as [| c s]; [reflexivity |]. simpl. intros H.
  apply andb_true_iff in H. destruct H as [H _].
  apply negb_true_iff in H. rewrite H. reflexivity.
Qed.

Lemma forallb_rev {A : Type} (f : A -> bool) (l : list A) :
  forallb f l = true -> forallb f (rev l) = true.
Proof.
  rewrite !forallb_forall. intros H x Hx. apply H. apply in_rev. exact Hx.
Qed.

Lemma rev_repeat {A : Type} (a : A) (n : nat) : rev (repeat a n) = repeat a n.
Proof.
  induction n as [| n IH]; [reflexivity |].
  simpl. rewrite IH. symmetry. apply repeat_cons.
Qed.

Lemma map_repeat_fixed (f : Z -> Z) (a : Z) (n : nat) :
  f a = a -> map f (repeat a n) = repeat a n.
Proof.
  intros H. induction n as [| n IH]; [reflexivity |].
  simpl. rewrite H, IH. reflexivity.
Qed.

Lemma replace_all_to_url (s : jsstring) :
  replace_all 47 95 (replace_all 43 45 s) = map to_url s.
Proof. unfold replace_all, to_url. rewrite map_map. reflexivity. Qed.

Lemma replace_all_of_url (s : jsstring) :
  replace_all 95 47 (replace_all 45 43 s) = map of_url s.
Proof. unfold replace_all, of_url. rewrite map_map. reflexivity. Qed.

(** The text [base64UrlEncode] writes: the body of the base64 text in
    the URL alphabet, the padding removed. *)
Lemma base64UrlEncode_text (b : bytes) (body : jsstring) (pad : nat) :
  b64_text body pad -> base64_encode b = body ++ repeat 61 pad ->
  base64UrlEncode b = map to_url body.
Proof.
  intros Ht He. unfold base64UrlEncode, strip_padding.
  rewrite replace_all_to_url, He, map_app.
  rewrite (map_repeat_fixed to_url 61 pad) by reflexivity.
  rewrite rev_app_distr, rev_repeat, drop_eq_pad.
  destruct (b64_text_facts body pad Ht) as [_ [Hb _]].
  rewrite drop_eq_no_pad by (apply forallb_rev; exact Hb).
  apply rev_involutive.
Qed.

Section Base64.

Variable P : Platform.
Hypothesis laws : PlatformLaws P.

(** Transport round trip: [base64UrlDecode] undoes [base64UrlEncode]. *)
Lemma base64Url_roundtrip (b : bytes) :
  bytes_ok b -> base64UrlDecode P (base64UrlEncode b) = b.
Proof.
  intros Hok.
  destruct (base64_encode_text b Hok) as [body [pad [Ht [He Hbl]]]].
  rewrite (base64UrlEncode_text b body pad Ht He).
  destruct (b64_text_facts body pad Ht) as [_ [_ [Hback Hpad]]].
  unfold base64UrlDecode. cbv zeta.
  replace (len (map to_url body)) with (len body)
    by (unfold len; rewrite length_map; reflexivity).
  rewrite Hpad, Nat2Z.id.
  rewrite replace_all_of_url, map_app, Hback.
  rewrite (map_repeat_fixed of_url 61 pad) by reflexivity.
  rewrite <- He. apply (base64_canonical P laws). exact Hok.
Qed.

(** The identifiers [encodeBinaryB64] writes pass the shape test. *)
Lemma base64UrlEncode_shape (b : bytes) :
  bytes_ok b -> b <> [] -> matches_shape (PREFIX ++ base64UrlEncode b).
Proof.
  intros Hok Hne.
  destruct (base64_encode_text b Hok) as [body [pad [Ht [He Hbl]]]].
  rewrite (base64UrlEncode_text b body pad Ht He).
  destruct (b64_text_facts body pad Ht) as [Hurl _].
  exists (map to_url body). split; [reflexivity |]. split; [| exact Hurl].
  destruct body as [| c body]; [| discriminate].
  inversion Ht; subst. exfalso.
  destruct b as [| x [| y [| z r]]]; [contradiction | | |];
    cbn [base64_encode] in He; discriminate.
Qed.

(** The text is at least as long as the bytes it encodes. *)
Lemma base64UrlEncode_length (b : bytes) :
  bytes_ok b -> len b <= len (base64UrlEncode b).
Proof.
  intros Hok.
  destruct (base64_encode_text b Hok) as [body [pad [Ht [He Hbl]]]].
  rewrite (base64UrlEncode_text b body pad Ht He).
  unfold len in *. rewrite length_map. exact Hbl.
Qed.

(** The text has no whitespace in it. *)
Lemma base64UrlEncode_chars (b : bytes) :
  bytes_ok b -> forallb is_b64url_char (base64UrlEncode b) = true.
Proof.
  intros Hok.
  destruct (base64_encode_text b Hok) as [body [pad [Ht [He Hbl]]]].
  rewrite (base64UrlEncode_text b body pad Ht He).
  apply (b64_text_facts body pad Ht).
Qed.

End Base64.

(** ** Well-formed texts *)

Lemma scalar_value_ascii (c : Z) : 0 <= c < 256 -> scalar_value c.
Proof.
  intros H. unfold scalar_value, is_surrogate. split; [lia |].
  destruct (Z.leb_spec 0xD800 c); [lia | reflexivity].
Qed.

Lemma well_formed_app (a b : jsstring) :
  well_formed a -> well_formed b -> well_formed (a ++ b).
Proof. unfold well_formed. intros Ha Hb. apply Forall_app. split; assumption. Qed.

Lemma well_formed_lit (s : string) : well_formed (lit s).
Proof.
  unfold well_formed. induction s as [| a s IH]; [constructor |].
  simpl. constructor; [| exact IH].
  apply scalar_value_ascii.
  pose proof (N_ascii_bounded a) as Hb. lia.
Qed.

Lemma well_formed_digits (u : Decimal.uint) : well_formed (digits u).
Proof.
  unfold well_formed.
  induction u; simpl; constructor; try assumption;
    apply scalar_value_ascii; lia.
Qed.

Lemma well_formed_toString (n : Z) : well_formed (toString n).
Proof.
  unfold toString. destruct (Z.to_int n).
  - apply well_formed_digits.
  - constructor; [apply scalar_value_ascii; lia | apply well_formed_digits].
Qed.

Lemma well_formed_padStart0 (n : nat) (s : jsstring) :
  well_formed s -> well_formed (padStart0 n s).
Proof.
  intros Hs. unfold padStart0. apply well_formed_app; [| exact Hs].
  unfold well_formed. apply Forall_forall. intros x Hx.
  apply repeat_spec in Hx. subst x. apply scalar_value_ascii. lia.
Qed.

(** ** The concrete platform keeps the laws *)

Lemma forallb_byte_ok (l : bytes) :
  forallb (fun b => (0 <=? b) && (b <? 256)) l = true -> bytes_ok l.
Proof.
  unfold bytes_ok. rewrite forallb_forall, Forall_forall.
  intros H x Hx. specialize (H x Hx).
  apply andb_true_iff in H. destruct H as [H1 H2].
  apply Z.leb_le in H1. apply Z.ltb_lt in H2. split; assumption.
Qed.

Lemma model_deflate_bytes (d c : bytes) :
  Model.deflate_stored d = Some c -> bytes_ok c.
Proof.
  unfold Model.deflate_stored. cbv zeta.
  destruct (Z.ltb_spec (len d) 65536) as [Hn |]; [| discriminate].
  destruct (forallb _ d) eqn:Hd; [| discriminate].
  intros E. assert (E' := f_equal (fun o => match o with Some x => x | None => [] end) E).
  cbv beta iota in E'. subst c.
  pose proof (len_nonneg d).
  unfold bytes_ok.
  apply Forall_cons; [unfold byte_ok; lia |].
  apply Forall_cons; [unfold byte_ok; arith |].
  apply Forall_cons; [unfold byte_ok; arith |].
  apply Forall_cons; [unfold byte_ok; arith |].
  apply Forall_cons; [unfold byte_ok; arith |].
  apply forallb_byte_ok. exact Hd.
Qed.

Lemma model_inflate_deflate (d c : bytes) :
  Model.deflate_stored d = Some c -> Model.inflate_stored c = Some d.
Proof.
  unfold Model.deflate_stored. cbv zeta.
  destruct (Z.ltb_spec (len d) 65536) as [Hn |]; [| discriminate].
  destruct (forallb _ d); [| discriminate].
  intros E. assert (E' := f_equal (fun o => match o with Some x => x | None => [] end) E).
  cbv beta iota in E'. subst c.
  pose proof (len_nonneg d).
  unfold Model.inflate_stored.
  replace (len d mod 256 + (255 - len d mod 256)) with 255 by lia.
  replace (len d / 256 + (255 - len d / 256)) with 255 by lia.
  replace (len d mod 256 + 256 * (len d / 256)) with (len d) by arith.
  rewrite !Z.eqb_refl. reflexivity.
Qed.

Lemma model_random_length (n : Z) (b : bytes) :
  Model.random n = Some b -> len b = n /\ bytes_ok b.
Proof.
  unfold Model.random. destruct (Z.ltb_spec n 0); [discriminate |].
  intros E. injection E as <-. split.
  - unfold len. rewrite length_map, length_seq. lia.
  - unfold bytes_ok. apply Forall_forall. intros x Hx.
    apply in_map_iff in Hx. destruct Hx as [i [<- _]].
    unfold byte_ok. apply Z.mod_pos_bound. lia.
Qed.

Lemma model_checksum_byte_ok (key : Z) (data : bytes) (j : Z) :
  byte_ok (Model.checksum_byte key data j).
Proof.
  unfold Model.checksum_byte.
  assert (H : forall l acc, byte_ok acc ->
            byte_ok (fold_left (fun acc b => (acc * 31 + b + j) mod 256) l acc)).
  { induction l as [| b l IH]; intros acc Hacc; [exact Hacc |].
    simpl. apply IH. unfold byte_ok. apply Z.mod_pos_bound. lia. }
  apply H. unfold byte_ok. apply Z.mod_pos_bound. lia.
Qed.

Lemma model_signature_length (d : bytes) (k : Z) (s : bytes) :
  Model.sign d k = Some s -> len s = 64 /\ bytes_ok s.
Proof.
  unfold Model.sign. destruct (k <? 0); [discriminate |].
  intros E. injection E as <-. split.
  - unfold Model.checksum, len. rewrite length_map, length_seq. reflexivity.
  - unfold bytes_ok, Model.checksum. apply Forall_forall. intros x Hx.
    apply in_map_iff in Hx. destruct Hx as [i [<- _]].
    apply model_checksum_byte_ok.
Qed.

Lemma model_b64_value_pad : Model.b64_value 61 = None.
Proof. reflexivity. Qed.

Lemma model_base64_canonical (b : bytes) :
  bytes_ok b -> Model.base64_decode (base64_encode b) = b.
Proof.
  unfold bytes_ok. induction b as [| x | x y | x y z r IH] using bytes_ind3;
    intros Hok.
  - reflexivity.
  - inversion Hok as [| ? ? Hx _]; subst. unfold byte_ok in Hx.
    cbn [base64_encode Model.base64_decode].
    rewrite !b64_value_char by arith. rewrite model_b64_value_pad.
    f_equal. arith.
  - inversion Hok as [| ? ? Hx Hr]; subst.
    inversion Hr as [| ? ? Hy _]; subst. unfold byte_ok in Hx, Hy.
    cbn [base64_encode Model.base64_decode].
    rewrite !b64_value_char by arith. rewrite model_b64_value_pad.
    f_equal; [arith |]. f_equal. arith.
  - inversion Hok as [| ? ? Hx Hr]; subst.
    inversion Hr as [| ? ? Hy Hr']; subst.
    inversion Hr' as [| ? ? Hz Hr'']; subst.
    unfold byte_ok in Hx, Hy, Hz.
    change (base64_encode (x :: y :: z :: r))
      with (b64_char (x / 4) :: b64_char (x mod 4 * 16 + y / 16)
              :: b64_char (y mod 16 * 4 + z / 64) :: b64_char (z mod 64)
              :: base64_encode r).
    cbn [Model.base64_decode].
    rewrite !b64_value_char by arith.
    rewrite (IH Hr'').
    f_equal; [arith |]. f_equal; [arith |]. f_equal. arith.
Qed.

Lemma model_laws : PlatformLaws Model.platform.
Proof.
  constructor; simpl.
  - exact model_deflate_bytes.
  - exact model_inflate_deflate.
  - exact model_random_length.
  - discriminate.
  - exact model_signature_length.
  - exact model_base64_canonical.
  - exact well_formed_toString.
Qed.

Lemma model_bytes_eqb_refl (a : bytes) : Model.bytes_eqb a a = true.
Proof.
  induction a as [| x a IH]; [reflexivity |].
  simpl. rewrite Z.eqb_refl. exact IH.
Qed.

(** In the concrete platform the private key 5 and the public key 1005
    are a pair. *)
Lemma model_key_pair : key_pair Model.platform 5 1005.
Proof.
  intros data. exists (Model.checksum 5 data). split; [reflexivity |].
  change (Model.verify data 1005 (Model.checksum 5 data) = Some true).
  unfold Model.verify.
  change (1005 <? 1000) with false. change (1005 - 1000) with 5.
  cbv iota. rewrite model_bytes_eqb_refl. reflexivity.
Qed.

(** ** Writing one byte of an array *)

Lemma store_length (l : bytes) (p v : Z) :
  0 <= p < len l -> len (store l p v) = len l.
Proof.
  unfold store, set, len. intros H.
  rewrite !length_app, length_firstn, length_skipn. simpl length. lia.
Qed.

Lemma store_app_l (l1 l2 : bytes) (p v : Z) :
  0 <= p < len l1 -> store (l1 ++ l2) p v = store l1 p v ++ l2.
Proof.
  unfold store, set, len. intros H. simpl length.
  rewrite firstn_app, skipn_app.
  replace (Z.to_nat p - length l1)%nat with 0%nat by lia.
  replace (Z.to_nat p + 1 - length l1)%nat with 0%nat by lia.
  simpl. rewrite app_nil_r, <- !app_assoc. reflexivity.
Qed.

Lemma store_app_r (l1 l2 : bytes) (p v : Z) :
  len l1 <= p -> store (l1 ++ l2) p v = l1 ++ store l2 (p - len l1) v.
Proof.
  unfold store, set, len. intros H. simpl length.
  rewrite firstn_app, skipn_app.
  rewrite firstn_all2 by lia. rewrite skipn_all2 by lia.
  replace (Z.to_nat (p - Z.of_nat (length l1)))
    with (Z.to_nat p - length l1)%nat by lia.
  replace (Z.to_nat p + 1 - length l1)%nat
    with (Z.to_nat p - length l1 + 1)%nat by lia.
  simpl. rewrite <- !app_assoc. reflexivity.
Qed.

Lemma get_store_same (l : bytes) (p v : Z) :
  0 <= p < len l -> get (store l p v) p = v mod 256.
Proof.
  unfold store, set, get, len. intros H.
  rewrite app_nth2 by (rewrite length_firstn; lia).
  rewrite length_firstn.
  replace (Z.to_nat p - Nat.min (Z.to_nat p) (length l))%nat with 0%nat by lia.
  reflexivity.
Qed.

Lemma get_store_other (l : bytes) (p v i : Z) :
  0 <= p < len l -> 0 <= i -> i <> p -> get (store l p v) i = get l i.
Proof.
  unfold store, set, get, len. intros Hp Hi Hne. simpl length.
  destruct (Z.lt_ge_cases i p) as [Hlt | Hge].
  - rewrite app_nth1 by (rewrite length_firstn; lia).
    rewrite nth_firstn.
    destruct (Nat.ltb_spec (Z.to_nat i) (Z.to_nat p)); [reflexivity | lia].
  - rewrite app_nth2 by (rewrite length_firstn; lia).
    rewrite length_firstn.
    replace (Z.to_nat i - Nat.min (Z.to_nat p) (length l))%nat
      with (S (Z.to_nat i - Z.to_nat p - 1)) by lia.
    cbn [app nth]. rewrite nth_skipn. f_equal. lia.
Qed.

(** ** Reading the outcome of encodeBinary and seal *)

Section Outcomes.

Variable P : Platform.
Variable parse : jsstring -> result number.
Hypothesis laws : PlatformLaws P.

Lemma randomBytes_ok (n : Z) (b : bytes) :
  randomBytes P n = OK b -> len b = n /\ bytes_ok b.
Proof.
  unfold randomBytes.
  destruct (if has_require P then crypto_randomBytes P n else None)
    as [b' |] eqn:E.
  - intros H. apply OK_inj in H. subst b'.
    destruct (has_require P); [| discriminate].
    apply (randomBytes_length P laws). exact E.
  - destruct (crypto_getRandomValues P n) as [b' |] eqn:E';
      [| discriminate].
    intros H. apply OK_inj in H. subst b'.
    apply (getRandomValues_length P laws). exact E'.
Qed.

Lemma payload_of_ok (compress : bool) (tps : jsstring) (payload : bytes) :
  well_formed tps -> payload_of P compress tps = OK payload ->
  bytes_ok payload.
Proof.
  intros Hwf. unfold payload_of, deflateRaw. destruct compress.
  - destruct (has_require P); [| discriminate].
    destruct (zlib_deflateRawSync P (TextEncoder_encode tps)) as [c |] eqn:E;
      [| discriminate].
    intros H. apply OK_inj in H. subst c.
    apply (deflate_bytes P laws _ _ E).
  - intros H. apply OK_inj in H. subst payload.
    apply TextEncoder_encode_ok. exact Hwf.
Qed.

(** Decoding the payload block gives back the bytes of the text. *)
Lemma payload_of_inflate (compress : bool) (tps : jsstring) (payload : bytes) :
  payload_of P compress tps = OK payload ->
  (if compress then inflateRaw P payload else OK payload)
  = OK (TextEncoder_encode tps).
Proof.
  unfold payload_of, deflateRaw, inflateRaw. destruct compress.
  - destruct (has_require P); [| discriminate].
    destruct (zlib_deflateRawSync P (TextEncoder_encode tps)) as [c |] eqn:E;
      [| discriminate].
    intros H. apply OK_inj in H. subst c.
    rewrite (inflate_deflate P laws _ _ E). reflexivity.
  - intros H. symmetry. exact H.
Qed.

Lemma encodeBinary_inv (tps : jsstring) (opts : option TPSUID7RBEncodeOptions)
    (token : bytes) :
  encodeBinary P parse tps opts = OK token ->
  exists e nonceBuf payload lenVar,
    epoch_of parse tps opts = OK (Int e) /\ 0 <= e < 2 ^ 48
    /\ randomBytes P 4 = OK nonceBuf /\ len nonceBuf = 4 /\ bytes_ok nonceBuf
    /\ payload_of P (compress_of opts) tps = OK payload
    /\ uvarintEncode (len payload) = OK lenVar
    /\ token = token_layout (if compress_of opts then 1 else 0) e nonceBuf
                 lenVar payload.
Proof.
  intros H. unfold encodeBinary in H. cbv zeta in H.
  fold (epoch_of parse tps opts) in H. fold (compress_of opts) in H.
  fold (payload_of P (compress_of opts) tps) in H.
  destruct (epoch_of parse tps opts) as [[e |] | err] eqn:Hep;
    cbn [bind] in H; try discriminate.
  destruct (Z.ltb_spec e 0); [discriminate |].
  destruct (Z.ltb_spec 0xffffffffffff e); [discriminate |].
  destruct (randomBytes P 4) as [nb | err] eqn:Hr;
    cbn [bind] in H; [| discriminate].
  destruct (payload_of P (compress_of opts) tps) as [payload | err] eqn:Hp;
    cbn [bind] in H; [| discriminate].
  destruct (uvarintEncode (len payload)) as [lenVar | err] eqn:Hl;
    cbn [bind] in H; [| discriminate].
  apply OK_inj in H.
  destruct (randomBytes_ok 4 nb Hr) as [Hn Hok].
  exists e, nb, payload, lenVar.
  repeat (split; [first [reflexivity | assumption | lia] |]).
  subst token.
  apply (fill_layout _ e nb lenVar payload); [| exact Hn].
  destruct (compress_of opts); lia.
Qed.

Lemma seal_flags (c : bool) :
  bor (if c then 0x01 else 0x00) 0x02 = if c then 3 else 2.
Proof. destruct c; reflexivity. Qed.

Lemma seal_inv (tps : jsstring) (sk : PrivateKey P)
    (opts : option TPSUID7RBEncodeOptions) (token : bytes) :
  seal P parse tps sk opts = OK token ->
  exists e nonceBuf payload lenVar signature,
    epoch_of parse tps opts = OK (Int e) /\ 0 <= e < 2 ^ 48
    /\ randomBytes P 4 = OK nonceBuf /\ len nonceBuf = 4 /\ bytes_ok nonceBuf
    /\ payload_of P (compress_of opts) tps = OK payload
    /\ uvarintEncode (len payload) = OK lenVar
    /\ signEd25519 P
         (token_layout (if compress_of opts then 3 else 2) e nonceBuf lenVar
            payload) sk = OK signature
    /\ token = token_layout (if compress_of opts then 3 else 2) e nonceBuf
                 lenVar payload ++ [1] ++ signature.
Proof.
  intros H. unfold seal in H. cbv zeta in H.
  fold (epoch_of parse tps opts) in H. fold (compress_of opts) in H.
  fold (payload_of P (compress_of opts) tps) in H.
  rewrite seal_flags in H.
  destruct (epoch_of parse tps opts) as [[e |] | err] eqn:Hep;
    cbn [bind] in H; try discriminate.
  destruct (Z.ltb_spec e 0); [discriminate |].
  destruct (Z.ltb_spec 0xffffffffffff e); [discriminate |].
  cbn [orb] in H.
  destruct (randomBytes P 4) as [nb | err] eqn:Hr;
    cbn [bind] in H; [| discriminate].
  destruct (payload_of P (compress_of opts) tps) as [payload | err] eqn:Hp;
    cbn [bind] in H; [| discriminate].
  destruct (uvarintEncode (len payload)) as [lenVar | err] eqn:Hl;
    cbn [bind] in H; [| discriminate].
  destruct (randomBytes_ok 4 nb Hr) as [Hn Hok].
  assert (Hflags : 0 <= (if compress_of opts then 3 else 2) < 256)
    by (destruct (compress_of opts); lia).
  pose proof (fill_layout _ e nb lenVar payload Hflags Hn) as Hfill.
  cbv zeta in Hfill. rewrite Hfill in H. clear Hfill.
  set (content := token_layout _ e nb lenVar payload) in *.
  destruct (signEd25519 P content sk) as [sig | err] eqn:Hs;
    cbn [bind] in H; [| discriminate].
  apply OK_inj in H.
  exists e, nb, payload, lenVar, sig.
  repeat (split; [first [reflexivity | assumption | lia] |]).
  subst token.
  assert (Hc : 4 + 1 + 1 + 6 + 4 + len lenVar + len payload = len content).
  { unfold content. rewrite token_layout_length by exact Hn. lia. }
  rewrite Hc. unfold new_Uint8Array.
  replace (Z.to_nat (len content + 1 + len sig))
    with (length content + (1 + (length sig + 0)))%nat by (unfold len; lia).
  change (repeat 0 (length content + ?n))
    with ([] ++ repeat 0 (length content + n)).
  rewrite (set_fill_at [] content _ _ 0 eq_refl eq_refl).
  rewrite (set_fill_at _ [1] (length sig + 0)) by reflexivity.
  rewrite (set_fill_at _ sig 0)
    by (try reflexivity; rewrite !len_app; reflexivity).
  simpl (repeat 0 0). rewrite app_nil_r, <- !app_assoc. reflexivity.
Qed.

End Outcomes.

(** ** Verifying a sealed token *)

Lemma token_layout_header (flags e : Z) (nonceBuf lenVar payload : bytes) :
  token_layout flags e nonceBuf lenVar payload
  = header flags e nonceBuf ++ lenVar ++ payload.
Proof. unfold token_layout, header. rewrite <- !app_assoc. reflexivity. Qed.

Lemma header_length (flags e : Z) (nonceBuf : bytes) :
  len nonceBuf = 4 -> len (header flags e nonceBuf) = 16.
Proof.
  intros Hn. unfold header. rewrite !len_app, writeU48_length, Hn.
  reflexivity.
Qed.

Lemma header_get (flags e : Z) (nonceBuf : bytes) :
  get (header flags e nonceBuf) 0 = 0x54
  /\ get (header flags e nonceBuf) 1 = 0x50
  /\ get (header flags e nonceBuf) 2 = 0x55
  /\ get (header flags e nonceBuf) 3 = 0x37
  /\ get (header flags e nonceBuf) 4 = VER
  /\ get (header flags e nonceBuf) 5 = flags.
Proof. repeat split; reflexivity. Qed.

Section Verify.

Variable P : Platform.

(** [verifyAndDecode] on a buffer with the structure of a sealed token:
    the magic and the seal bit pass, the split point is found behind the
    payload block, and what is left is the verification of exactly the
    bytes before it against the 64 bytes after the seal type. *)
Lemma verifyAndDecode_structure (pk : PublicKey P)
    (hdr lenVar payload signature : bytes) :
  len hdr = 16 ->
  get hdr 0 = 0x54 -> get hdr 1 = 0x50 -> get hdr 2 = 0x55 ->
  get hdr 3 = 0x37 -> band (get hdr 5) 0x02 <> 0 ->
  uvarintEncode (len payload) = OK lenVar -> len payload < 2 ^ 32 ->
  len signature = 64 ->
  verifyAndDecode P (hdr ++ lenVar ++ payload ++ [1] ++ signature) pk
  = (isValid <- verifyEd25519 P (hdr ++ lenVar ++ payload) signature pk ;;
     if negb isValid then Err SignatureVerificationFailed
     else decodeBinary P (hdr ++ lenVar ++ payload)).
Proof.
  intros Hh H0 H1 H2 H3 H5 Hlen Hsmall Hsig.
  pose proof (len_nonneg payload) as Hp0.
  pose proof (uvarint_roundtrip (len payload) lenVar hdr
                (payload ++ [1] ++ signature) Hlen) as [Hdec [_ Hlv]].
  rewrite Hh in Hdec. rewrite ToUint32_small in Hdec by lia.
  set (token := hdr ++ lenVar ++ payload ++ [1] ++ signature) in *.
  assert (Htotal : len token = 16 + len lenVar + len payload + 65).
  { unfold token. rewrite !len_app, Hh, Hsig. unfold len. simpl length. lia. }
  assert (Hcontent :
    slice token 0 (16 + len lenVar + len payload) = hdr ++ lenVar ++ payload).
  { unfold token.
    replace (hdr ++ lenVar ++ payload ++ [1] ++ signature)
      with ((hdr ++ lenVar ++ payload) ++ [1] ++ signature)
      by (rewrite <- !app_assoc; reflexivity).
    replace (16 + len lenVar + len payload)
      with (len (hdr ++ lenVar ++ payload))
      by (rewrite !len_app, Hh; lia).
    apply slice_0_app. }
  assert (Htype : get token (16 + len lenVar + len payload) = 1).
  { unfold token.
    replace (hdr ++ lenVar ++ payload ++ [1] ++ signature)
      with ((hdr ++ lenVar ++ payload) ++ [1] ++ signature)
      by (rewrite <- !app_assoc; reflexivity).
    rewrite get_app_r by (rewrite !len_app, Hh; lia).
    replace (16 + len lenVar + len payload - len (hdr ++ lenVar ++ payload))
      with 0 by (rewrite !len_app, Hh; lia).
    reflexivity. }
  assert (Hsigs :
    slice_from token (16 + len lenVar + len payload + 1) = signature).
  { unfold token.
    replace (hdr ++ lenVar ++ payload ++ [1] ++ signature)
      with ((hdr ++ lenVar ++ payload ++ [1]) ++ signature)
      by (rewrite <- !app_assoc; reflexivity).
    replace (16 + len lenVar + len payload + 1)
      with (len (hdr ++ lenVar ++ payload ++ [1]))
      by (rewrite !len_app, Hh; unfold len; simpl length; lia).
    apply slice_from_app. }
  assert (Hget : forall i, 0 <= i < 16 -> get token i = get hdr i).
  { intros i Hi. unfold token. apply get_app_l. lia. }
  unfold verifyAndDecode.
  rewrite Hdec. cbn [bind]. cbv zeta.
  rewrite Hcontent, Htype, Hsigs, Hsig, Htotal.
  rewrite !Hget by lia. rewrite H0, H1, H2, H3.
  destruct (Z.ltb_spec (16 + len lenVar + len payload + 65) 18); [lia |].
  cbn [Z.eqb Pos.eqb negb orb].
  destruct (Z.eqb_spec (band (get hdr 5) 2) 0); [contradiction |].
  destruct (Z.ltb_spec (16 + len lenVar + len payload + 65)
              (16 + len lenVar + len payload)); [lia |].
  destruct (Z.leb_spec (16 + len lenVar + len payload + 65)
              (16 + len lenVar + len payload + 1)); [lia |].
  reflexivity.
Qed.

(** The verification step alone: anything but an accepting answer of
    the platform ends in the one error. *)
Lemma verify_rejects (pk : PublicKey P) (content signature : bytes)
    (k : result TPSUID7RBDecodeResult) :
  has_require P = true ->
  crypto_verify P content pk signature <> Some true ->
  (isValid <- verifyEd25519 P content signature pk ;;
   if negb isValid then Err SignatureVerificationFailed else k)
  = Err SignatureVerificationFailed.
Proof.
  intros Hreq Hv. unfold verifyEd25519. rewrite Hreq.
  destruct (crypto_verify P content pk signature) as [[|] |];
    [contradiction | reflexivity | reflexivity].
Qed.

Lemma verify_accepts (pk : PublicKey P) (content signature : bytes)
    (k : result TPSUID7RBDecodeResult) :
  has_require P = true ->
  crypto_verify P content pk signature = Some true ->
  (isValid <- verifyEd25519 P content signature pk ;;
   if negb isValid then Err SignatureVerificationFailed else k)
  = k.
Proof.
  intros Hreq Hv. unfold verifyEd25519. rewrite Hreq, Hv. reflexivity.
Qed.

Lemma signEd25519_inv (data : bytes) (sk : PrivateKey P) (signature : bytes) :
  signEd25519 P data sk = OK signature ->
  has_require P = true /\ crypto_sign P data sk = Some signature.
Proof.
  unfold signEd25519. destruct (has_require P); [| discriminate].
  destruct (crypto_sign P data sk) as [s |]; [| discriminate].
  intros H. apply OK_inj in H. subst s. split; reflexivity.
Qed.

End Verify.

(** ** Identifiers *)

Lemma trim_no_whitespace (s : jsstring) : no_whitespace s -> trim s = s.
Proof.
  unfold no_whitespace. intros H.
  assert (Hstart : forall l, forallb (fun c => negb (is_whitespace c)) l = true
                     -> trimStart l = l).
  { intros [| c l] Hl; [reflexivity |]. simpl in *.
    apply andb_true_iff in Hl. destruct Hl as [Hc _].
    apply negb_true_iff in Hc. rewrite Hc. reflexivity. }
  unfold trim, trimEnd. rewrite (Hstart s H).
  rewrite (Hstart (rev s)) by (apply forallb_rev; exact H).
  apply rev_involutive.
Qed.

Lemma b64url_not_whitespace (c : Z) :
  is_b64url_char c = true -> negb (is_whitespace c) = true.
Proof.
  unfold is_b64url_char. intros H.
  repeat rewrite ?orb_true_iff, ?andb_true_iff, ?Z.leb_le, ?Z.eqb_eq in H.
  apply negb_true_iff. apply not_true_is_false. unfold is_whitespace.
  intros Hw.
  repeat rewrite ?orb_true_iff, ?andb_true_iff, ?Z.leb_le, ?Z.eqb_eq in Hw.
  lia.
Qed.

Lemma identifier_no_whitespace (body : jsstring) :
  forallb is_b64url_char body = true -> no_whitespace (PREFIX ++ body).
Proof.
  intros H. unfold no_whitespace. rewrite forallb_app.
  apply andb_true_iff. split; [reflexivity |].
  rewrite forallb_forall in *. intros c Hc.
  apply b64url_not_whitespace. apply H. exact Hc.
Qed.

(** ** The text of an instant does not see its milliseconds *)

Lemma whole_seconds (t : Z) :
  (t - t mod 1000) / 1000 = t / 1000
  /\ (t - t mod 1000) / 60000 = t / 60000
  /\ (t - t mod 1000) / 3600000 = t / 3600000
  /\ (t - t mod 1000) / 86400000 = t / 86400000.
Proof. repeat split; arith. Qed.

Lemma generateTPSString_whole_seconds (P : Platform) (t : Z)
    (opts : option (GenerateOptions P)) :
  generateTPSString P t opts = generateTPSString P (t - t mod 1000) opts.
Proof.
  destruct (whole_seconds t) as [H1 [H2 [H3 H4]]].
  unfold generateTPSString, getUTCFullYear, getUTCMonth, getUTCDate,
    getUTCHours, getUTCMinutes, getUTCSeconds, Day, msPerDay.
  rewrite H1, H2, H3, H4. reflexivity.
Qed.

Lemma well_formed_generateTPSString (P : Platform) (t : Z)
    (opts : option (GenerateOptions P)) :
  PlatformLaws P -> well_formed (generateTPSString P t opts).
Proof.
  intros laws. unfold generateTPSString. cbv zeta.
  repeat first
    [ apply well_formed_padStart0
    | apply well_formed_lit
    | apply well_formed_toString
    | apply (float_text P laws)
    | apply well_formed_app
    | match goal with
      | |- well_formed (match ?x with _ => _ end) => destruct x
      end ].
Qed.

Lemma strip_bom_generateTPSString (P : Platform) (t : Z)
    (opts : option (GenerateOptions P)) :
  strip_bom (generateTPSString P t opts) = generateTPSString P t opts.
Proof. reflexivity. Qed.

(** ** The bytes of a token *)

Lemma token_layout_ok (flags e : Z) (nonceBuf lenVar payload : bytes) :
  0 <= flags < 256 -> bytes_ok nonceBuf -> bytes_ok lenVar ->
  bytes_ok payload ->
  bytes_ok (token_layout flags e nonceBuf lenVar payload).
Proof.
  intros Hf Hn Hl Hp. unfold token_layout.
  apply bytes_ok_app. split; [repeat constructor; unfold byte_ok; lia |].
  apply bytes_ok_app. split; [repeat constructor; unfold byte_ok, VER; lia |].
  apply bytes_ok_app. split; [repeat constructor; unfold byte_ok; lia |].
  apply bytes_ok_app. split; [apply writeU48_ok |].
  apply bytes_ok_app. split; [exact Hn |].
  apply bytes_ok_app. split; [exact Hl | exact Hp].
Qed.

(** ** Changing a byte of a sealed token *)

Lemma sealed_regions (content signature : bytes) :
  len signature = 64 ->
  signed_region (content ++ [1] ++ signature) = content
  /\ signature_of (content ++ [1] ++ signature) = signature.
Proof.
  intros Hs. unfold signed_region, signature_of. split.
  - replace (len (content ++ [1] ++ signature) - 65) with (len content)
      by (rewrite !len_app, Hs; unfold len; simpl length; lia).
    apply slice_0_app.
  - replace (content ++ [1] ++ signature)
      with ((content ++ [1]) ++ signature)
      by (rewrite <- app_assoc; reflexivity).
    replace (len ((content ++ [1]) ++ signature) - 64)
      with (len (content ++ [1]))
      by (rewrite !len_app, Hs; unfold len; simpl length; lia).
    apply slice_from_app.
Qed.

Lemma sealed_payload_start (hdr lenVar payload rest : bytes) :
  len hdr = 16 -> uvarintEncode (len payload) = OK lenVar ->
  payload_start (hdr ++ lenVar ++ rest) = 16 + len lenVar.
Proof.
  intros Hh Hl. unfold payload_start.
  destruct (uvarint_roundtrip _ _ hdr rest Hl) as [Hd _].
  rewrite Hh in Hd. rewrite Hd. reflexivity.
Qed.

Lemma band_seal_bit (flags : Z) : flags = 2 \/ flags = 3 -> band flags 2 <> 0.
Proof. intros [-> | ->]; discriminate. Qed.

Section Tamper.

Variable P : Platform.

(** A byte written over one of the signed fields leaves the structure
    of the token as it was, so [verifyAndDecode] reaches the signature
    check, on the changed bytes and the old signature. *)
Lemma tampered_structure (pk : PublicKey P) (flags e : Z)
    (nonceBuf lenVar payload signature : bytes) (p v : Z) :
  flags = 2 \/ flags = 3 -> len nonceBuf = 4 ->
  uvarintEncode (len payload) = OK lenVar -> len payload < 2 ^ 32 ->
  len signature = 64 ->
  signed_field
    (token_layout flags e nonceBuf lenVar payload ++ [1] ++ signature) p ->
  exists content,
    tamper (token_layout flags e nonceBuf lenVar payload ++ [1] ++ signature)
      p v = content ++ [1] ++ signature
    /\ verifyAndDecode P (content ++ [1] ++ signature) pk
       = (isValid <- verifyEd25519 P content signature pk ;;
          if negb isValid then Err SignatureVerificationFailed
          else decodeBinary P content).
Proof.
  intros Hflags Hn Hl Hsmall Hsig Hfield.
  rewrite token_layout_header in *.
  set (hdr := header flags e nonceBuf) in *.
  assert (Hh : len hdr = 16) by (apply header_length; exact Hn).
  destruct (header_get flags e nonceBuf) as [G0 [G1 [G2 [G3 [_ G5]]]]].
  fold hdr in G0, G1, G2, G3, G5.
  pose proof (len_nonneg payload) as Hp0.
  pose proof (len_nonneg lenVar) as Hl0.
  assert (Hstart :
    payload_start ((hdr ++ lenVar ++ payload) ++ [1] ++ signature)
    = 16 + len lenVar).
  { rewrite <- ?app_assoc. apply (sealed_payload_start hdr lenVar payload).
    - exact Hh.
    - exact Hl. }
  assert (Hend :
    len ((hdr ++ lenVar ++ payload) ++ [1] ++ signature) - 65
    = 16 + len lenVar + len payload).
  { rewrite !len_app, Hh, Hsig. unfold len. simpl length. lia. }
  unfold signed_field in Hfield. rewrite Hstart, Hend in Hfield.
  unfold tamper.
  assert (Hhead : p = 4 \/ 6 <= p < 16 ->
    exists content,
      store ((hdr ++ lenVar ++ payload) ++ [1] ++ signature) p v
      = content ++ [1] ++ signature
      /\ verifyAndDecode P (content ++ [1] ++ signature) pk
         = (isValid <- verifyEd25519 P content signature pk ;;
            if negb isValid then Err SignatureVerificationFailed
            else decodeBinary P content)).
  { intros Hp.
    exists (store hdr p v ++ lenVar ++ payload). split.
    - rewrite <- ?app_assoc. rewrite store_app_l by lia.
      rewrite <- ?app_assoc. reflexivity.
    - rewrite <- ?app_assoc.
      apply verifyAndDecode_structure; try assumption.
      + rewrite store_length by lia. exact Hh.
      + rewrite get_store_other by lia. exact G0.
      + rewrite get_store_other by lia. exact G1.
      + rewrite get_store_other by lia. exact G2.
      + rewrite get_store_other by lia. exact G3.
      + rewrite get_store_other by lia. rewrite G5.
        apply band_seal_bit. exact Hflags. }
  destruct Hfield as [Hp | [Hp | Hp]].
  - apply Hhead. left. exact Hp.
  - apply Hhead. right. exact Hp.
  - exists (hdr ++ lenVar ++ store payload (p - (16 + len lenVar)) v). split.
    + rewrite <- ?app_assoc.
      rewrite (app_assoc hdr lenVar).
      rewrite store_app_r by (rewrite len_app, Hh; lia).
      rewrite len_app, Hh.
      rewrite store_app_l by lia.
      rewrite <- ?app_assoc. reflexivity.
    + rewrite <- ?app_assoc.
      apply verifyAndDecode_structure; try assumption.
      * rewrite G5. apply band_seal_bit. exact Hflags.
      * rewrite store_length by lia. exact Hl.
      * rewrite store_length by lia. exact Hsmall.
Qed.

End Tamper.

(** ** Trailing bytes *)

Lemma uvarintDecode_loop_app (rest extra : bytes) :
  forall x s i v,
    uvarintDecode_loop rest x s i = OK v ->
    uvarintDecode_loop (rest ++ extra) x s i = OK v.
Proof.
  induction rest as [| b rest IH]; intros x s i v H; [discriminate |].
  cbn [uvarintDecode_loop app] in *.
  destruct (b <? 0x80); [exact H |].
  cbv zeta in *. destruct (10 <? i + 1); [exact H |].
  apply IH. exact H.
Qed.

Lemma uvarintDecode_app (b extra : bytes) (offset : Z) (v : Z * Z) :
  uvarintDecode b offset = OK v -> uvarintDecode (b ++ extra) offset = OK v.
Proof.
  unfold uvarintDecode, slice_from. rewrite skipn_app.
  apply uvarintDecode_loop_app.
Qed.

Lemma slice_app_within {A : Type} (b extra : list A) (from to : Z) :
  to <= len b -> slice (b ++ extra) from to = slice b from to.
Proof.
  unfold slice, len. intros H. rewrite skipn_app, firstn_app.
  rewrite length_skipn.
  replace (Z.to_nat to - Z.to_nat from - (length b - Z.to_nat from))%nat
    with 0%nat by lia.
  simpl. apply app_nil_r.
Qed.

(** The values [uvarintDecode] returns: a 32-bit number, and between one
    and ten bytes read. *)
Lemma uvarintDecode_loop_range (rest : bytes) :
  forall x s i v n,
    0 <= i ->
    uvarintDecode_loop rest x s i = OK (v, n) ->
    0 <= v < 2 ^ 32 /\ i + 1 <= n <= 10.
Proof.
  induction rest as [| b rest IH]; intros x s i v n Hi H; [discriminate |].
  cbn [uvarintDecode_loop] in H.
  destruct (b <? 0x80).
  - destruct (Z.ltb_spec 9 i); [discriminate |].
    cbn [orb] in H. destruct (andb _ _); [discriminate |].
    cbv zeta in H. apply OK_inj in H.
    assert (Hv : ushr (bor x (shl b s)) 0 = v) by congruence.
    assert (Hn : i + 1 = n) by congruence.
    rewrite ushr_0 in Hv. subst v.
    split; [apply ToUint32_range | lia].
  - cbv zeta in H. destruct (Z.ltb_spec 10 (i + 1)); [discriminate |].
    assert (Hi' : 0 <= i + 1) by lia.
    destruct (IH _ _ _ _ _ Hi' H) as [Hv Hn].
    split; [exact Hv | lia].
Qed.

Lemma decodeBinary_app (P : Platform) (b extra : bytes)
    (r : TPSUID7RBDecodeResult) :
  decodeBinary P b = OK r -> decodeBinary P (b ++ extra) = OK r.
Proof.
  intros H. unfold decodeBinary in *.
  pose proof (len_nonneg extra) as Hx.
  destruct (Z.ltb_spec (len b) 17) as [| Hlen]; [discriminate |].
  destruct (Z.ltb_spec (len (b ++ extra)) 17) as [Hc |];
    [rewrite len_app in Hc; lia |].
  unfold readU48 in *.
  rewrite !(get_app_l b extra) by lia.
  destruct (negb (get b 0 =? 84) || negb (get b 1 =? 80)
            || negb (get b 2 =? 85) || negb (get b 3 =? 55));
    [discriminate |].
  destruct (negb (get b 4 =? VER)); [discriminate |].
  cbv zeta in *.
  destruct (negb (isSafeInteger _)); [discriminate |].
  cbn [bind] in *.
  destruct (uvarintDecode b 16) as [[tpsLen bytesRead] | err] eqn:Hu;
    [| discriminate].
  rewrite (uvarintDecode_app b extra 16 _ Hu).
  cbn [bind] in *.
  destruct (Z.ltb_spec (len b) (16 + bytesRead + tpsLen)); [discriminate |].
  destruct (Z.ltb_spec (len (b ++ extra)) (16 + bytesRead + tpsLen)) as [Hc |];
    [rewrite len_app in Hc; lia |].
  rewrite slice_app_within by lia.
  exact H.
Qed.

(** * The claims *)

Section ClaimsOnCode.

Variable P : Platform.
Variable parse : jsstring -> result number.
Hypothesis laws : PlatformLaws P.

(** ** Round trip *)

(** Decoding what [encodeBinary] wrote gives back the text (less a byte
    order mark in front, which [TextDecoder] drops), the compression
    flag and the epoch the encoder used.  The token is below 4 GiB, as
    every token built from a JavaScript string is. *)
Lemma encode_decode (tps : jsstring)
    (opts : option TPSUID7RBEncodeOptions) (token : bytes) :
  well_formed tps ->
  encodeBinary P parse tps opts = OK token ->
  len token < 2 ^ 32 ->
  exists r,
    decodeBinary P token = OK r
    /\ TPSUID7RB.tps r = strip_bom tps
    /\ compressed r = compress_of opts
    /\ epoch_of parse tps opts = OK (Int (epochMs r)).
Proof.
  intros Hwf Henc Hsmall.
  destruct (encodeBinary_inv P parse laws tps opts token Henc)
    as [e [nb [payload [lenVar [Hep [He [Hr [Hn [_ [Hp [Hl Ht]]]]]]]]]]].
  subst token.
  rewrite token_layout_length in Hsmall by exact Hn.
  destruct (uvarint_roundtrip _ _ [] [] Hl) as [_ [_ Hlv]].
  pose proof (len_nonneg payload) as Hp0.
  rewrite <- (app_nil_r (token_layout _ e nb lenVar payload)).
  rewrite decodeBinary_layout; try assumption; try lia;
    [| destruct (compress_of opts); lia].
  replace (Z.odd (if compress_of opts then 1 else 0)) with (compress_of opts)
    by (destruct (compress_of opts); reflexivity).
  rewrite (payload_of_inflate P laws _ _ _ Hp). cbn [bind].
  eexists. split; [reflexivity |]. cbn [TPSUID7RB.tps compressed epochMs].
  split; [apply TextDecoder_TextEncoder; exact Hwf |].
  split; [reflexivity | exact Hep].
Qed.

(** ** C9 *)

(** C9. [decodeBinary] does not require the buffer to end at the payload
    boundary: if it decodes [b] it decodes [b ++ x] to the same result,
    whatever [x] is; and a token that [seal] produced decodes through
    [decodeBinary], which takes no key and checks no signature, to what
    its signed region alone decodes to. *)
Theorem decodeBinary_trailing_bytes :
  (forall (b x : bytes) (r : TPSUID7RBDecodeResult),
     decodeBinary P b = OK r -> decodeBinary P (b ++ x) = OK r)
  /\ (forall (tps : jsstring) (sk : PrivateKey P)
        (opts : option TPSUID7RBEncodeOptions) (token : bytes),
        seal P parse tps sk opts = OK token -> len token < 2 ^ 32 ->
        exists r,
          decodeBinary P (signed_region token) = OK r
          /\ decodeBinary P token = OK r).
Proof.
  split.
  - intros b x r H. apply decodeBinary_app. exact H.
  - intros tps sk opts token Hseal Hsmall.
    destruct (seal_inv P parse laws tps sk opts token Hseal)
      as [e [nb [payload [lenVar [sig
           [Hep [He [Hr [Hn [_ [Hp [Hl [Hs Ht]]]]]]]]]]]]].
    destruct (signEd25519_inv P _ _ _ Hs) as [Hreq Hsign].
    destruct (signature_length P laws _ _ _ Hsign) as [Hsig _].
    set (content := token_layout _ e nb lenVar payload) in *.
    assert (Hclen : len content = 16 + len lenVar + len payload)
      by (apply token_layout_length; exact Hn).
    assert (Hregion : signed_region token = content).
    { unfold signed_region. subst token.
      replace (len (content ++ [1] ++ sig) - 65) with (len content)
        by (rewrite !len_app, Hsig; unfold len; simpl length; lia).
      apply slice_0_app. }
    pose proof (len_nonneg payload) as Hp0.
    pose proof (len_nonneg lenVar) as Hl0.
    assert (Hpsmall : len payload < 2 ^ 32).
    { subst token. rewrite len_app, Hclen in Hsmall.
      pose proof (len_nonneg ([1] ++ sig)). lia. }
    assert (Hdec : forall trailer,
      decodeBinary P (content ++ trailer)
      = OK {| version := lit "tpsuid7rb"; epochMs := e;
              compressed := compress_of opts; nonce := nonce_of nb;
              tps := TextDecoder_decode (TextEncoder_encode tps) |}).
    { intros trailer. unfold content.
      rewrite decodeBinary_layout; try assumption;
        [| destruct (compress_of opts); lia].
      replace (Z.odd (if compress_of opts then 3 else 2))
        with (compress_of opts) by (destruct (compress_of opts); reflexivity).
      rewrite (payload_of_inflate P laws _ _ _ Hp). reflexivity. }
    eexists. split.
    + rewrite Hregion, <- (app_nil_r content). apply Hdec.
    + rewrite Ht. apply Hdec.
Qed.

(** ** C10 *)

(** C10. [decodeBinaryB64] and [validateBinaryB64] trim their input
    before they look at the prefix or the pattern: whitespace around an
    id changes neither the outcome of the one nor the answer of the
    other, which is the answer on the trimmed id. *)
Theorem trim_before_checks (id w1 w2 : jsstring) :
  all_whitespace w1 -> all_whitespace w2 ->
  decodeBinaryB64 P (w1 ++ id ++ w2) = decodeBinaryB64 P id
  /\ validateBinaryB64 (w1 ++ id ++ w2) = validateBinaryB64 id
  /\ validateBinaryB64 id = validateBinaryB64 (trim id).
Proof.
  intros H1 H2. unfold decodeBinaryB64, validateBinaryB64. cbv zeta.
  rewrite (trim_surrounded w1 id w2 H1 H2), trim_idem.
  repeat split; reflexivity.
Qed.

(** ** C5 *)

(** C5. With the random generator at hand, [encodeBinary(s, {epochMs: e})]
    succeeds for every integer [e] in [0, 2^48 - 1] and [decodeBinary]
    reads [e] back exactly; for every other number, 2^48 among them, it
    fails with one of the two range errors. *)
Theorem epoch_exact_and_bounded (tps : jsstring) (nonceBuf : bytes) :
  randomBytes P 4 = OK nonceBuf ->
  (forall e, 0 <= e <= 2 ^ 48 - 1 ->
     exists token r,
       encodeBinary P parse tps (with_epoch (Int e)) = OK token
       /\ decodeBinary P token = OK r /\ epochMs r = e)
  /\ (forall n, (forall e, n = Int e -> ~ 0 <= e <= 2 ^ 48 - 1) ->
        exists err,
          encodeBinary P parse tps (with_epoch n) = Err err
          /\ kind_of err = RangeViolation)
  /\ (exists err,
        encodeBinary P parse tps (with_epoch (Int (2 ^ 48))) = Err err
        /\ kind_of err = RangeViolation).
Proof.
  intros Hr.
  assert (Hfail : forall n, (forall e, n = Int e -> ~ 0 <= e <= 2 ^ 48 - 1) ->
            exists err,
              encodeBinary P parse tps (with_epoch n) = Err err
              /\ kind_of err = RangeViolation).
  { intros n Hn. unfold encodeBinary, with_epoch. cbn [opt_epochMs bind].
    destruct n as [e |].
    - specialize (Hn e eq_refl).
      destruct (Z.ltb_spec e 0).
      + exists EpochNotNonNegInt. split; reflexivity.
      + destruct (Z.ltb_spec 0xffffffffffff e); [| lia].
        exists EpochExceeds48. split; reflexivity.
    - exists EpochNotNonNegInt. split; reflexivity. }
  split; [| split].
  - intros e He.
    destruct (randomBytes_ok P laws 4 nonceBuf Hr) as [Hn _].
    destruct (uvarintEncode_total (len (TextEncoder_encode tps))
                (len_nonneg _)) as [lenVar Hl].
    exists (token_layout 0 e nonceBuf lenVar (TextEncoder_encode tps)).
    eexists. split; [| split].
    + apply (encodeBinary_eq P parse tps (with_epoch (Int e)) e nonceBuf
               (TextEncoder_encode tps) lenVar);
        try assumption; try reflexivity. lia.
    + rewrite <- (app_nil_r (token_layout 0 e nonceBuf lenVar _)).
      rewrite decodeBinary_layout_gen; try assumption; try lia.
      reflexivity.
    + reflexivity.
  - exact Hfail.
  - apply Hfail. intros e He. injection He as <-. lia.
Qed.

End ClaimsOnCode.

(** ** The outcomes of [verifyAndDecode] on a buffer with a seal bit *)

Lemma uvarintDecode_loop_errors (rest : bytes) :
  forall x s i e,
    uvarintDecode_loop rest x s i = Err e ->
    e = UvarintOverflow \/ e = UvarintTooLarge \/ e = UvarintTooLong.
Proof.
  induction rest as [| b rest IH]; intros x s i e H.
  - injection H as <-. left. reflexivity.
  - cbn [uvarintDecode_loop] in H. destruct (b <? 0x80).
    + destruct (orb _ _); [| discriminate].
      injection H as <-. right. left. reflexivity.
    + cbv zeta in H. destruct (10 <? i + 1).
      * injection H as <-. right. right. reflexivity.
      * apply (IH _ _ _ _ H).
Qed.

(** With eleven bytes or more to read, the decoder does not run off the
    end of the buffer. *)
Lemma uvarintDecode_loop_no_overflow (rest : bytes) :
  forall x s i,
    i <= 10 -> 10 < i + len rest ->
    uvarintDecode_loop rest x s i <> Err UvarintOverflow.
Proof.
  induction rest as [| b rest IH]; intros x s i Hi Hl.
  - unfold len in Hl. simpl in Hl. lia.
  - rewrite len_cons in Hl. cbn [uvarintDecode_loop].
    destruct (b <? 0x80).
    + destruct (orb _ _); discriminate.
    + cbv zeta. destruct (Z.ltb_spec 10 (i + 1)); [discriminate |].
      apply IH; lia.
Qed.

Lemma slice_from_store (l : bytes) (p v k : Z) :
  0 <= p < k -> p < len l ->
  slice_from (store l p v) k = slice_from l k.
Proof.
  unfold slice_from, store, set, len. intros Hp Hl. simpl length.
  rewrite app_assoc, skipn_app.
  rewrite skipn_all2
    by (rewrite length_app, length_firstn; simpl length; lia).
  rewrite length_app, length_firstn. simpl length.
  rewrite skipn_skipn. cbn [app]. f_equal. lia.
Qed.

(** When the platform's verification does not accept the bytes before
    the last 65 under the last 64, [verifyAndDecode] on a buffer of 27
    bytes or more that has the magic and the seal bit returns no result:
    it raises 'signature verification failed' or one of the framing
    errors. *)
Lemma verifyAndDecode_framed (P : Platform) (b : bytes) (pk : PublicKey P) :
  27 <= len b ->
  get b 0 = 0x54 -> get b 1 = 0x50 -> get b 2 = 0x55 -> get b 3 = 0x37 ->
  band (get b 5) 0x02 <> 0 ->
  has_require P = true ->
  crypto_verify P (signed_region b) pk (signature_of b) <> Some true ->
  exists e,
    verifyAndDecode P b pk = Err e
    /\ (e = SignatureVerificationFailed \/ SealFacts.seal_framing_error e).
Proof.
  intros Hlen G0 G1 G2 G3 G5 Hreq Hver.
  unfold SealFacts.seal_framing_error.
  unfold verifyAndDecode. cbv zeta.
  destruct (Z.ltb_spec (len b) 18); [lia |].
  rewrite G0, G1, G2, G3. cbn [Z.eqb Pos.eqb negb orb].
  destruct (Z.eqb_spec (band (get b 5) 2) 0); [contradiction |].
  destruct (uvarintDecode b 16) as [[tpsLen bytesRead] | e] eqn:Hv;
    cbn [bind].
  - unfold uvarintDecode in Hv.
    destruct (uvarintDecode_loop_range _ _ _ _ _ _ (Z.le_refl 0) Hv)
      as [Hr Hn].
    set (payloadEnd := 16 + bytesRead + tpsLen) in *.
    destruct (Z.ltb_spec (len b) payloadEnd);
      [eexists; split; [reflexivity | tauto] |].
    destruct (Z.leb_spec (len b) (payloadEnd + 1));
      [eexists; split; [reflexivity | tauto] |].
    destruct (Z.eqb_spec (get b payloadEnd) 0x01); cbn [negb].
    2: { eexists. split; [reflexivity |].
         right. right. right. right. right. left. eexists. reflexivity. }
    destruct (Z.eqb_spec (len (slice_from b (payloadEnd + 1))) 64)
      as [H64 |]; cbn [negb].
    2: { eexists. split; [reflexivity |].
         right. right. right. right. right. right. eexists. reflexivity. }
    assert (Hpe : payloadEnd = len b - 65).
    { unfold slice_from, len in H64. rewrite length_skipn in H64.
      unfold len in *. unfold payloadEnd in *. lia. }
    assert (Hc : slice b 0 payloadEnd = signed_region b)
      by (unfold signed_region; rewrite Hpe; reflexivity).
    assert (Hs : slice_from b (payloadEnd + 1) = signature_of b)
      by (unfold signature_of; rewrite Hpe; f_equal; lia).
    rewrite Hc, Hs. unfold verifyEd25519. rewrite Hreq.
    destruct (crypto_verify P (signed_region b) pk (signature_of b))
      as [[|] |]; [contradiction | |];
      cbn [bind negb]; eexists; (split; [reflexivity | left; reflexivity]).
  - unfold uvarintDecode in Hv.
    eexists. split; [reflexivity |].
    destruct (uvarintDecode_loop_errors _ _ _ _ _ Hv) as [-> | [-> | ->]];
      [| tauto | tauto].
    exfalso. revert Hv. apply uvarintDecode_loop_no_overflow; [lia |].
    unfold slice_from, len in *. rewrite length_skipn. lia.
Qed.

Section ClaimsOnSeals.

Variable P : Platform.
Variable parse : jsstring -> result number.
Hypothesis laws : PlatformLaws P.

(** What [seal] returns, in the terms [verifyAndDecode] reads it. *)
Lemma seal_structure (tps : jsstring) (sk : PrivateKey P)
    (opts : option TPSUID7RBEncodeOptions) (token : bytes) :
  seal P parse tps sk opts = OK token -> len token < 2 ^ 32 ->
  exists flags e nonceBuf lenVar payload signature,
    token = token_layout flags e nonceBuf lenVar payload ++ [1] ++ signature
    /\ (flags = 2 \/ flags = 3) /\ Z.odd flags = compress_of opts
    /\ 0 <= e < 2 ^ 48 /\ epoch_of parse tps opts = OK (Int e)
    /\ len nonceBuf = 4
    /\ uvarintEncode (len payload) = OK lenVar /\ len payload < 2 ^ 32
    /\ len signature = 64
    /\ payload_of P (compress_of opts) tps = OK payload
    /\ has_require P = true
    /\ crypto_sign P (token_layout flags e nonceBuf lenVar payload) sk
       = Some signature.
Proof.
  intros Hseal Hsmall.
  destruct (seal_inv P parse laws tps sk opts token Hseal)
    as [e [nb [payload [lenVar [sig
         [Hep [He [Hr [Hn [_ [Hp [Hl [Hs Ht]]]]]]]]]]]]].
  destruct (signEd25519_inv P _ _ _ Hs) as [Hreq Hsign].
  destruct (signature_length P laws _ _ _ Hsign) as [Hsig _].
  exists (if compress_of opts then 3 else 2), e, nb, lenVar, payload, sig.
  split; [exact Ht |].
  split; [destruct (compress_of opts); [right | left]; reflexivity |].
  split; [destruct (compress_of opts); reflexivity |].
  split; [exact He |]. split; [exact Hep |]. split; [exact Hn |].
  split; [exact Hl |]. split.
  - subst token. rewrite len_app, token_layout_length in Hsmall by exact Hn.
    pose proof (len_nonneg ([1] ++ sig)). pose proof (len_nonneg lenVar). lia.
  - repeat split; assumption.
Qed.

(** Sealing and verifying with a matching key pair: the token verifies
    and decodes to the text (less a byte order mark in front); the
    signature is the platform's signature of exactly the signed region,
    the bytes before the seal type, and the seal bit is set in the flags
    byte of those bytes. *)
Lemma seal_verify (tps : jsstring) (sk : PrivateKey P) (pk : PublicKey P)
    (opts : option TPSUID7RBEncodeOptions) (token : bytes) :
  well_formed tps -> key_pair P sk pk ->
  seal P parse tps sk opts = OK token -> len token < 2 ^ 32 ->
  exists r,
    verifyAndDecode P token pk = OK r
    /\ TPSUID7RB.tps r = strip_bom tps
    /\ compressed r = compress_of opts
    /\ crypto_sign P (signed_region token) sk = Some (signature_of token)
    /\ band (get (signed_region token) 5) 0x02 = 0x02.
Proof.
  intros Hwf Hpair Hseal Hsmall.
  destruct (seal_structure tps sk opts token Hseal Hsmall)
    as [flags [e [nb [lenVar [payload [sig
         [Ht [Hf [Hodd [He [Hep [Hn [Hl [Hps [Hsig [Hp [Hreq Hsign]]]]]]]]]]]]]]]]].
  destruct (sealed_regions (token_layout flags e nb lenVar payload) sig Hsig)
    as [Hregion Hsigof].
  subst token. rewrite Hregion, Hsigof.
  destruct (Hpair (token_layout flags e nb lenVar payload))
    as [sig' [Hsign' Hver]].
  assert (sig' = sig) by congruence. subst sig'.
  rewrite token_layout_header.
  rewrite <- !app_assoc.
  rewrite verifyAndDecode_structure; try assumption;
    try (apply header_length; exact Hn);
    try apply (header_get flags e nb).
  2: { destruct (header_get flags e nb) as [_ [_ [_ [_ [_ G5]]]]].
       rewrite G5. apply band_seal_bit. exact Hf. }
  rewrite <- token_layout_header.
  rewrite verify_accepts by assumption.
  assert (Hdec :
    decodeBinary P (token_layout flags e nb lenVar payload)
    = OK {| version := lit "tpsuid7rb"; epochMs := e;
            compressed := compress_of opts; nonce := nonce_of nb;
            tps := TextDecoder_decode (TextEncoder_encode tps) |}).
  { pose proof (decodeBinary_layout P flags e nb lenVar payload []) as Hd.
    rewrite app_nil_r in Hd. rewrite Hd; try assumption; [| lia].
    rewrite Hodd, (payload_of_inflate P laws _ _ _ Hp). reflexivity. }
  rewrite Hdec.
  eexists. split; [reflexivity |].
  cbn [TPSUID7RB.tps compressed].
  split; [apply TextDecoder_TextEncoder; exact Hwf |].
  split; [reflexivity |]. split; [exact Hsign |].
  rewrite token_layout_header, get_app_l
    by (rewrite header_length by exact Hn; lia).
  destruct (header_get flags e nb) as [_ [_ [_ [_ [_ G5]]]]]. rewrite G5.
  destruct Hf as [-> | ->]; reflexivity.
Qed.

(** ** C6 *)

(** C6. For a token that [seal] produced and any public key with which
    the platform's verification does not accept the signature (it
    answers false for an unrelated key, it throws for malformed key
    material), [verifyAndDecode] raises the one error 'signature
    verification failed'; and so it does, with whatever key, for the
    token with one of its signed fields overwritten when the
    verification does not accept the changed bytes: the two outcomes are
    the same value. *)
Theorem wrong_key_signature_invalid (tps : jsstring) (sk : PrivateKey P)
    (opts : option TPSUID7RBEncodeOptions) (token : bytes) :
  seal P parse tps sk opts = OK token -> len token < 2 ^ 32 ->
  (forall pk : PublicKey P,
     crypto_verify P (signed_region token) pk (signature_of token)
       <> Some true ->
     verifyAndDecode P token pk = Err SignatureVerificationFailed)
  /\ (forall (pk pk' : PublicKey P) (p v : Z),
        crypto_verify P (signed_region token) pk (signature_of token)
          <> Some true ->
        signed_field token p ->
        crypto_verify P (signed_region (tamper token p v)) pk'
          (signature_of token) <> Some true ->
        verifyAndDecode P (tamper token p v) pk'
        = verifyAndDecode P token pk)
  /\ kind_of SignatureVerificationFailed = SignatureInvalid.
Proof.
  intros Hseal Hsmall.
  destruct (seal_structure tps sk opts token Hseal Hsmall)
    as [flags [e [nb [lenVar [payload [sig
         [Ht [Hf [Hodd [He [Hep [Hn [Hl [Hps [Hsig [Hp [Hreq Hsign]]]]]]]]]]]]]]]]].
  destruct (sealed_regions (token_layout flags e nb lenVar payload) sig Hsig)
    as [Hregion Hsigof].
  assert (Hwrong : forall pk : PublicKey P,
    crypto_verify P (signed_region token) pk (signature_of token)
      <> Some true ->
    verifyAndDecode P token pk = Err SignatureVerificationFailed).
  { intros pk Hv. subst token. rewrite Hregion, Hsigof in Hv.
    rewrite token_layout_header in *. rewrite <- !app_assoc.
    rewrite verifyAndDecode_structure; try assumption;
      try (apply header_length; exact Hn);
      try apply (header_get flags e nb).
    - apply verify_rejects; assumption.
    - destruct (header_get flags e nb) as [_ [_ [_ [_ [_ G5]]]]].
      rewrite G5. apply band_seal_bit. exact Hf. }
  split; [exact Hwrong |]. split; [| reflexivity].
  intros pk pk' p v Hv Hfield Hv'.
  rewrite (Hwrong pk Hv).
  subst token.
  destruct (tampered_structure P pk' flags e nb lenVar payload sig p v
              Hf Hn Hl Hps Hsig Hfield) as [content [Htam Hstruct]].
  rewrite Htam in *. rewrite Hsigof in Hv'.
  destruct (sealed_regions content sig Hsig) as [Hregion' _].
  rewrite Hregion' in Hv'.
  rewrite Hstruct. apply verify_rejects; assumption.
Qed.

End ClaimsOnSeals.

Section ClaimsOnTampering.

Variable P : Platform.
Variable parse : jsstring -> result number.
Hypothesis laws : PlatformLaws P.

Lemma get_store (l : bytes) (p v i : Z) :
  0 <= p < len l -> 0 <= i ->
  get (store l p v) i = if i =? p then v mod 256 else get l i.
Proof.
  intros Hp Hi. destruct (Z.eqb_spec i p) as [-> | Hne].
  - apply get_store_same. exact Hp.
  - apply get_store_other; assumption.
Qed.

(** ** C3 *)

(** C3, as the code has it. For a token that [seal] produced and a
    key under which the platform's verification does not accept the
    changed bytes with the old signature: flipping the byte at a
    position of the version, the time, the nonce or the payload block
    makes [verifyAndDecode] raise 'signature verification failed';
    flipping a byte of the magic raises 'bad magic' and flipping the
    flags byte raises 'not a sealed UID', both before any signature is
    looked at; flipping a byte of the length field raises 'signature
    verification failed' or, when the changed length does not frame
    the seal any more, one of the framing errors; and at no position of
    the signed region does the flipped token yield a result. *)
Theorem flipped_byte_outcomes (tps : jsstring) (sk : PrivateKey P)
    (opts : option TPSUID7RBEncodeOptions) (token : bytes)
    (pk : PublicKey P) (p : Z) :
  seal P parse tps sk opts = OK token -> len token < 2 ^ 32 ->
  (0 <= p < 4 -> verifyAndDecode P (flip_byte token p) pk = Err BadMagic)
  /\ (p = 5 -> verifyAndDecode P (flip_byte token p) pk = Err NotSealed)
  /\ (signed_field token p ->
      crypto_verify P (signed_region (flip_byte token p)) pk
        (signature_of token) <> Some true ->
      verifyAndDecode P (flip_byte token p) pk
      = Err SignatureVerificationFailed)
  /\ (16 <= p < payload_start token ->
      crypto_verify P (signed_region (flip_byte token p)) pk
        (signature_of token) <> Some true ->
      exists e,
        verifyAndDecode P (flip_byte token p) pk = Err e
        /\ (e = SignatureVerificationFailed
            \/ SealFacts.seal_framing_error e))
  /\ (0 <= p < len (signed_region token) ->
      crypto_verify P (signed_region (flip_byte token p)) pk
        (signature_of token) <> Some true ->
      exists e, verifyAndDecode P (flip_byte token p) pk = Err e).
Proof.
  intros Hseal Hsmall.
  destruct (seal_structure P parse laws tps sk opts token Hseal Hsmall)
    as [flags [e [nb [lenVar [payload [sig
         [Ht [Hf [Hodd [He [Hep [Hn [Hl [Hps [Hsig [Hp [Hreq Hsign]]]]]]]]]]]]]]]]].
  destruct (sealed_regions (token_layout flags e nb lenVar payload) sig Hsig)
    as [Hregion Hsigof].
  pose proof (len_nonneg payload) as Hp0.
  pose proof (len_nonneg lenVar) as Hl0.
  assert (Htotal : len token = 16 + len lenVar + len payload + 65).
  { subst token. rewrite len_app, token_layout_length by exact Hn.
    rewrite len_app, Hsig. unfold len. simpl length. lia. }
  assert (Hget : forall i, 0 <= i < 16 ->
            get token i = get (header flags e nb) i).
  { intros i Hi. subst token. rewrite token_layout_header.
    rewrite <- ?app_assoc. apply get_app_l.
    rewrite header_length by exact Hn. exact Hi. }
  destruct (header_get flags e nb) as [G0 [G1 [G2 [G3 [_ G5]]]]].
  assert (Hhead : forall q, 0 <= q < 6 ->
    verifyAndDecode P (flip_byte token q) pk
    = if negb ((if 0 =? q then bxor (get (header flags e nb) q) 0xFF mod 256
                else 0x54) =? 0x54)
         || negb ((if 1 =? q then bxor (get (header flags e nb) q) 0xFF mod 256
                   else 0x50) =? 0x50)
         || negb ((if 2 =? q then bxor (get (header flags e nb) q) 0xFF mod 256
                   else 0x55) =? 0x55)
         || negb ((if 3 =? q then bxor (get (header flags e nb) q) 0xFF mod 256
                   else 0x37) =? 0x37)
      then Err BadMagic
      else if band (if 5 =? q
                    then bxor (get (header flags e nb) q) 0xFF mod 256
                    else flags) 0x02 =? 0
      then Err NotSealed
      else verifyAndDecode P (flip_byte token q) pk).
  { intros q Hq.
    remember (verifyAndDecode P (flip_byte token q) pk) as V eqn:HV.
    rewrite HV at 1. unfold verifyAndDecode, flip_byte.
    rewrite store_length by lia. rewrite Htotal.
    destruct (Z.ltb_spec (16 + len lenVar + len payload + 65) 18); [lia |].
    rewrite !get_store by lia.
    rewrite !Hget by lia. rewrite G0, G1, G2, G3, G5.
    destruct (negb _ || negb _ || negb _ || negb _) eqn:Em; [reflexivity |].
    destruct (band _ 2 =? 0) eqn:Eb; [reflexivity |].
    rewrite HV. unfold verifyAndDecode, flip_byte.
    rewrite store_length by lia. rewrite Htotal.
    destruct (Z.ltb_spec (16 + len lenVar + len payload + 65) 18); [lia |].
    rewrite !get_store by lia.
    rewrite !Hget by lia. rewrite G0, G1, G2, G3, G5.
    rewrite Em, Eb. reflexivity. }
  assert (Hlenvar : 1 <= len lenVar)
    by (destruct (uvarint_roundtrip _ _ [] [] Hl) as [_ [_ Hlv]]; lia).
  assert (Hregion_len : len (signed_region token)
                        = 16 + len lenVar + len payload).
  { subst token. rewrite Hregion. apply token_layout_length. exact Hn. }
  assert (Hstart : payload_start token = 16 + len lenVar).
  { subst token. rewrite token_layout_header, <- !app_assoc.
    apply (sealed_payload_start _ lenVar payload).
    - apply header_length. exact Hn.
    - exact Hl. }
  assert (Hbody : forall q,
    0 <= q < 16 + len lenVar + len payload -> 4 <= q -> q <> 5 ->
    crypto_verify P (signed_region (flip_byte token q)) pk
      (signature_of token) <> Some true ->
    exists e,
      verifyAndDecode P (flip_byte token q) pk = Err e
      /\ (e = SignatureVerificationFailed
          \/ SealFacts.seal_framing_error e)).
  { intros q Hq H4 H5 Hv.
    assert (Hsigq : signature_of (flip_byte token q) = signature_of token).
    { unfold signature_of, flip_byte. rewrite store_length by lia.
      apply slice_from_store; lia. }
    apply verifyAndDecode_framed.
    - unfold flip_byte. rewrite store_length by lia. lia.
    - unfold flip_byte. rewrite get_store_other, Hget by lia. exact G0.
    - unfold flip_byte. rewrite get_store_other, Hget by lia. exact G1.
    - unfold flip_byte. rewrite get_store_other, Hget by lia. exact G2.
    - unfold flip_byte. rewrite get_store_other, Hget by lia. exact G3.
    - unfold flip_byte. rewrite get_store_other, Hget by lia. rewrite G5.
      apply band_seal_bit. exact Hf.
    - exact Hreq.
    - rewrite Hsigq. exact Hv. }
  split; [| split; [| split; [| split]]].
  4: { intros Hq Hv. rewrite Hstart in Hq. apply Hbody; try lia. exact Hv. }
  4: { intros Hq Hv. rewrite Hregion_len in Hq.
       destruct (Z.lt_ge_cases p 4) as [Hlt | Hge].
       - eexists. rewrite Hhead by lia.
         assert (Hc : p = 0 \/ p = 1 \/ p = 2 \/ p = 3) by lia.
         destruct Hc as [-> | [-> | [-> | ->]]];
           [rewrite G0 | rewrite G1 | rewrite G2 | rewrite G3]; reflexivity.
       - destruct (Z.eq_dec p 5) as [-> | Hne].
         + eexists. rewrite Hhead by lia. rewrite G5.
           destruct Hf as [-> | ->]; reflexivity.
         + destruct (Hbody p Hq Hge Hne Hv) as [err [Herr _]].
           exists err. exact Herr. }
  - intros Hp4. rewrite Hhead by lia.
    assert (Hc : p = 0 \/ p = 1 \/ p = 2 \/ p = 3) by lia.
    destruct Hc as [-> | [-> | [-> | ->]]];
      [rewrite G0 | rewrite G1 | rewrite G2 | rewrite G3]; reflexivity.
  - intros ->. rewrite Hhead by lia. rewrite G5.
    destruct Hf as [-> | ->]; reflexivity.
  - intros Hfield Hv. unfold flip_byte in *. fold (tamper token p
      (bxor (get token p) 0xFF)) in *.
    subst token.
    destruct (tampered_structure P pk flags e nb lenVar payload sig p
                (bxor (get (token_layout flags e nb lenVar payload
                              ++ [1] ++ sig) p) 0xFF)
                Hf Hn Hl Hps Hsig Hfield) as [content [Htam Hstruct]].
    rewrite Htam in *. rewrite Hsigof in Hv.
    destruct (sealed_regions content sig Hsig) as [Hregion' _].
    rewrite Hregion' in Hv.
    rewrite Hstruct. apply verify_rejects; assumption.
Qed.

End ClaimsOnTampering.

Section ClaimsOnTransport.

Variable P : Platform.
Variable parse : jsstring -> result number.
Hypothesis laws : PlatformLaws P.

(** ** C7 *)

(** C7, as the code has it. [validateBinaryB64(s)] is true exactly when
    [s] with the whitespace at its ends removed is the prefix
    'tpsuid7rb_' followed by one or more characters of the base64url
    alphabet; and it is not authoritative: the id 'tpsuid7rb_AA' passes
    it and does not decode. *)
Theorem validate_is_shape_of_trimmed :
  (forall s, validateBinaryB64 s = true <-> matches_shape (trim s))
  /\ (exists id,
        validateBinaryB64 id = true
        /\ decodeBinaryB64 P id = Err TooShort).
Proof.
  split.
  - intros s. unfold validateBinaryB64. apply REGEX_test_shape.
  - exists (lit "tpsuid7rb_AA"). split; [reflexivity |].
    unfold decodeBinaryB64. cbv zeta.
    change (trim (lit "tpsuid7rb_AA")) with (lit "tpsuid7rb_AA").
    change (startsWith (lit "tpsuid7rb_AA") PREFIX) with true.
    cbn [negb].
    change (slice_from (lit "tpsuid7rb_AA") (len PREFIX)) with (lit "AA").
    unfold base64UrlDecode. cbv zeta.
    change (replace_all 95 47 (replace_all 45 43
              (lit "AA" ++ repeat 61 (Z.to_nat (Z.rem (4 - Z.rem (len (lit "AA")) 4) 4)))))
      with (base64_encode [0]).
    rewrite (base64_canonical P laws)
      by (repeat constructor; unfold byte_ok; lia).
    reflexivity.
Qed.

End ClaimsOnTransport.

(** * The code at particular inputs *)

(** C1. A text that begins with a byte order mark U+FEFF is encoded
    with the mark and decoded without it, with or without compression:
    [decodeBinary (encodeBinary s)] gives a [tps] that is not [s]. *)
Theorem byte_order_mark_lost (c : bool) :
  exists token r,
    encodeBinary Model.platform Model.parse_epoch Model.sample_bom
      (with_compress c (Int 1700000000000)) = OK token
    /\ decodeBinary Model.platform token = OK r
    /\ tps r = Model.sample
    /\ tps r <> Model.sample_bom
    /\ compressed r = c.
Proof.
  destruct c; eexists; eexists;
    (split; [vm_compute; reflexivity |]);
    (split; [vm_compute; reflexivity |]);
    (split; [reflexivity |]);
    (split; [intros H; vm_compute in H; discriminate | reflexivity]).
Qed.

(** C2. The same on the sealed path: a text that begins with a byte
    order mark is sealed, verified with the matching key, and returned
    without the mark. *)
Theorem sealed_byte_order_mark_lost :
  exists token r,
    seal Model.platform Model.parse_epoch Model.sample_bom 5
      (with_epoch (Int 1700000000000)) = OK token
    /\ verifyAndDecode Model.platform token 1005 = OK r
    /\ tps r = Model.sample
    /\ tps r <> Model.sample_bom.
Proof.
  eexists; eexists.
  split; [vm_compute; reflexivity |].
  split; [vm_compute; reflexivity |].
  split; [reflexivity |].
  intros H; vm_compute in H; discriminate.
Qed.

(** C4. [uvarintDecode] accepts encodings of values from 2^32 on and
    returns a number that is not the value: the five groups that encode
    2^32 give 0, the six groups that encode 2^35 give 8, and ten groups
    that encode 2^64 - 1 give 2^32 - 1. *)
Theorem uvarintDecode_accepts_overflow :
  uvarintDecode [0x80; 0x80; 0x80; 0x80; 0x10] 0 = OK (0, 5)
  /\ uvarintDecode [0x80; 0x80; 0x80; 0x80; 0x80; 0x01] 0 = OK (8, 6)
  /\ uvarintDecode
       [0xff; 0xff; 0xff; 0xff; 0xff; 0xff; 0xff; 0xff; 0xff; 0x01] 0
     = OK (2 ^ 32 - 1, 10).
Proof. repeat split; vm_compute; reflexivity. Qed.

(** C3, as stated, fails at position 0 of a sealed token: the flipped
    magic byte is answered with 'bad magic'. *)
Lemma flipped_magic_counterexample :
  seal Model.platform Model.parse_epoch Model.sample 5
    (with_epoch (Int 1700000000000)) = OK Model.sealed_sample
  /\ ~ (forall p, 0 <= p < len (signed_region Model.sealed_sample) ->
          verifyAndDecode Model.platform (flip_byte Model.sealed_sample p) 1005
          = Err SignatureVerificationFailed).
Proof.
  split; [vm_compute; reflexivity |].
  intros H. specialize (H 0).
  assert (Hp : 0 <= 0 < len (signed_region Model.sealed_sample))
    by (split; [apply Z.leb_le | apply Z.ltb_lt]; vm_compute; reflexivity).
  specialize (H Hp). vm_compute in H. discriminate.
Qed.

(** C7, as stated, fails on an id with a blank in front: it passes the
    test and is not of the shape. *)
Lemma validate_untrimmed_counterexample :
  ~ (forall s, validateBinaryB64 s = true <-> matches_shape s).
Proof.
  intros H. destruct (H (lit " tpsuid7rb_A")) as [H1 _].
  destruct (H1 eq_refl) as [body [E _]].
  vm_compute in E. discriminate.
Qed.

(** * The theorems at the concrete platform *)

Lemma decodeBinary_trailing_bytes_witness :
  decodeBinary Model.platform Model.unsealed_sample = OK Model.sample_result
  /\ decodeBinary Model.platform (Model.unsealed_sample ++ [1; 2; 3])
     = OK Model.sample_result
  /\ seal Model.platform Model.parse_epoch Model.sample 5
       (with_epoch (Int 1700000000000)) = OK Model.sealed_sample
  /\ len Model.sealed_sample < 2 ^ 32
  /\ exists r,
       decodeBinary Model.platform (signed_region Model.sealed_sample) = OK r
       /\ decodeBinary Model.platform Model.sealed_sample = OK r.
Proof.
  destruct (decodeBinary_trailing_bytes Model.platform Model.parse_epoch
              model_laws) as [T1 T2].
  assert (H0 : decodeBinary Model.platform Model.unsealed_sample
               = OK Model.sample_result) by (vm_compute; reflexivity).
  assert (H1 : seal Model.platform Model.parse_epoch Model.sample 5
                 (with_epoch (Int 1700000000000)) = OK Model.sealed_sample)
    by (vm_compute; reflexivity).
  assert (H2 : len Model.sealed_sample < 2 ^ 32)
    by (apply Z.ltb_lt; vm_compute; reflexivity).
  split; [exact H0 |].
  split; [exact (T1 _ [1; 2; 3] _ H0) |].
  split; [exact H1 |].
  split; [exact H2 |].
  exact (T2 _ _ _ _ H1 H2).
Defined.

Lemma trim_before_checks_witness :
  all_whitespace (lit "  ") /\ all_whitespace [10; 9]
  /\ decodeBinaryB64 Model.platform
       (lit "  " ++ Model.generated_id ++ [10; 9])
     = decodeBinaryB64 Model.platform Model.generated_id
  /\ validateBinaryB64 (lit "  " ++ Model.generated_id ++ [10; 9])
     = validateBinaryB64 Model.generated_id
  /\ validateBinaryB64 Model.generated_id
     = validateBinaryB64 (trim Model.generated_id).
Proof.
  assert (H1 : all_whitespace (lit "  ")) by reflexivity.
  assert (H2 : all_whitespace [10; 9]) by reflexivity.
  split; [exact H1 |]. split; [exact H2 |].
  exact (trim_before_checks Model.platform Model.generated_id
           (lit "  ") [10; 9] H1 H2).
Defined.

Lemma epoch_exact_and_bounded_witness :
  randomBytes Model.platform 4 = OK [11; 48; 85; 122]
  /\ (exists token r,
        encodeBinary Model.platform Model.parse_epoch Model.sample
          (with_epoch (Int 1700000000000)) = OK token
        /\ decodeBinary Model.platform token = OK r
        /\ epochMs r = 1700000000000)
  /\ (exists err,
        encodeBinary Model.platform Model.parse_epoch Model.sample
          (with_epoch (Int (2 ^ 48))) = Err err
        /\ kind_of err = RangeViolation).
Proof.
  assert (H0 : randomBytes Model.platform 4 = OK [11; 48; 85; 122])
    by (vm_compute; reflexivity).
  destruct (epoch_exact_and_bounded Model.platform Model.parse_epoch
              model_laws Model.sample [11; 48; 85; 122] H0) as [T1 [_ T3]].
  split; [exact H0 |]. split; [| exact T3].
  apply T1. split; [apply Z.leb_le | apply Z.leb_le]; vm_compute; reflexivity.
Defined.

Lemma wrong_key_signature_invalid_witness :
  seal Model.platform Model.parse_epoch Model.sample 5
    (with_epoch (Int 1700000000000)) = OK Model.sealed_sample
  /\ len Model.sealed_sample < 2 ^ 32
  /\ crypto_verify Model.platform (signed_region Model.sealed_sample) 1006
       (signature_of Model.sealed_sample) <> Some true
  /\ crypto_verify Model.platform (signed_region Model.sealed_sample) 6
       (signature_of Model.sealed_sample) <> Some true
  /\ verifyAndDecode Model.platform Model.sealed_sample 1006
     = Err SignatureVerificationFailed
  /\ verifyAndDecode Model.platform Model.sealed_sample 6
     = Err SignatureVerificationFailed.
Proof.
  assert (H1 : seal Model.platform Model.parse_epoch Model.sample 5
                 (with_epoch (Int 1700000000000)) = OK Model.sealed_sample)
    by (vm_compute; reflexivity).
  assert (H2 : len Model.sealed_sample < 2 ^ 32)
    by (apply Z.ltb_lt; vm_compute; reflexivity).
  assert (H3 : crypto_verify Model.platform
                 (signed_region Model.sealed_sample) 1006
                 (signature_of Model.sealed_sample) <> Some true)
    by (vm_compute; discriminate).
  assert (H4 : crypto_verify Model.platform
                 (signed_region Model.sealed_sample) 6
                 (signature_of Model.sealed_sample) <> Some true)
    by (vm_compute; discriminate).
  destruct (wrong_key_signature_invalid Model.platform Model.parse_epoch
              model_laws Model.sample 5 _ Model.sealed_sample H1 H2)
    as [T1 _].
  split; [exact H1 |]. split; [exact H2 |]. split; [exact H3 |].
  split; [exact H4 |]. split; [exact (T1 1006 H3) | exact (T1 6 H4)].
Defined.

Lemma flipped_byte_outcomes_witness :
  seal Model.platform Model.parse_epoch Model.sample 5
    (with_epoch (Int 1700000000000)) = OK Model.sealed_sample
  /\ len Model.sealed_sample < 2 ^ 32
  /\ signed_field Model.sealed_sample 20
  /\ crypto_verify Model.platform
       (signed_region (flip_byte Model.sealed_sample 20)) 1005
       (signature_of Model.sealed_sample) <> Some true
  /\ verifyAndDecode Model.platform (flip_byte Model.sealed_sample 20) 1005
     = Err SignatureVerificationFailed
  /\ 16 <= 16 < payload_start Model.sealed_sample
  /\ crypto_verify Model.platform
       (signed_region (flip_byte Model.sealed_sample 16)) 1005
       (signature_of Model.sealed_sample) <> Some true
  /\ (exists e,
        verifyAndDecode Model.platform (flip_byte Model.sealed_sample 16) 1005
        = Err e
        /\ (e = SignatureVerificationFailed
            \/ SealFacts.seal_framing_error e))
  /\ verifyAndDecode Model.platform (flip_byte Model.sealed_sample 16) 1005
     = Err LengthOverflowTruncated
  /\ seal Model.platform Model.parse_epoch SealFacts.nul_sample 5
       (with_epoch (Int 1700000000000)) = OK SealFacts.nul_sealed
  /\ 16 <= 16 < payload_start SealFacts.nul_sealed
  /\ (exists e,
        verifyAndDecode Model.platform (flip_byte SealFacts.nul_sealed 16) 1005
        = Err e
        /\ (e = SignatureVerificationFailed
            \/ SealFacts.seal_framing_error e))
  /\ verifyAndDecode Model.platform (flip_byte SealFacts.nul_sealed 16) 1005
     = Err SignatureVerificationFailed.
Proof.
  assert (H1 : seal Model.platform Model.parse_epoch Model.sample 5
                 (with_epoch (Int 1700000000000)) = OK Model.sealed_sample)
    by (vm_compute; reflexivity).
  assert (H2 : len Model.sealed_sample < 2 ^ 32)
    by (apply Z.ltb_lt; vm_compute; reflexivity).
  assert (H3 : signed_field Model.sealed_sample 20).
  { right. right.
    split; [apply Z.leb_le | apply Z.ltb_lt]; vm_compute; reflexivity. }
  assert (H4 : crypto_verify Model.platform
                 (signed_region (flip_byte Model.sealed_sample 20)) 1005
                 (signature_of Model.sealed_sample) <> Some true)
    by (vm_compute; discriminate).
  assert (H5 : 16 <= 16 < payload_start Model.sealed_sample)
    by (split; [apply Z.leb_le | apply Z.ltb_lt]; vm_compute; reflexivity).
  assert (H6 : crypto_verify Model.platform
                 (signed_region (flip_byte Model.sealed_sample 16)) 1005
                 (signature_of Model.sealed_sample) <> Some true)
    by (vm_compute; discriminate).
  assert (N1 : seal Model.platform Model.parse_epoch SealFacts.nul_sample 5
                 (with_epoch (Int 1700000000000)) = OK SealFacts.nul_sealed)
    by (vm_compute; reflexivity).
  assert (N2 : len SealFacts.nul_sealed < 2 ^ 32)
    by (apply Z.ltb_lt; vm_compute; reflexivity).
  assert (N5 : 16 <= 16 < payload_start SealFacts.nul_sealed)
    by (split; [apply Z.leb_le | apply Z.ltb_lt]; vm_compute; reflexivity).
  assert (N6 : crypto_verify Model.platform
                 (signed_region (flip_byte SealFacts.nul_sealed 16)) 1005
                 (signature_of SealFacts.nul_sealed) <> Some true)
    by (vm_compute; discriminate).
  destruct (flipped_byte_outcomes Model.platform Model.parse_epoch model_laws
              Model.sample 5 _ Model.sealed_sample 1005 20 H1 H2)
    as [_ [_ [T3 _]]].
  destruct (flipped_byte_outcomes Model.platform Model.parse_epoch model_laws
              Model.sample 5 _ Model.sealed_sample 1005 16 H1 H2)
    as [_ [_ [_ [T4 _]]]].
  destruct (flipped_byte_outcomes Model.platform Model.parse_epoch model_laws
              SealFacts.nul_sample 5 _ SealFacts.nul_sealed 1005 16 N1 N2)
    as [_ [_ [_ [U4 _]]]].
  split; [exact H1 |]. split; [exact H2 |]. split; [exact H3 |].
  split; [exact H4 |]. split; [exact (T3 H3 H4) |].
  split; [exact H5 |]. split; [exact H6 |]. split; [exact (T4 H5 H6) |].
  split; [vm_compute; reflexivity |].
  split; [exact N1 |]. split; [exact N5 |]. split; [exact (U4 N5 N6) |].
  vm_compute; reflexivity.
Defined.

Lemma validate_is_shape_of_trimmed_witness :
  (forall s, validateBinaryB64 s = true <-> matches_shape (trim s))
  /\ (exists id,
        validateBinaryB64 id = true
        /\ decodeBinaryB64 Model.platform id = Err TooShort).
Proof.
  exact (validate_is_shape_of_trimmed Model.platform model_laws).
Defined.

(** * Further properties of the code *)

(** ** The varint coder *)

Lemma uvarintEncode_loop_short (fuel : nat) :
  forall (k : nat) (v : Z),
    (k <= fuel)%nat -> 0 <= v < 2 ^ (7 * (Z.of_nat k + 1)) ->
    len (uvarintEncode_loop fuel v []) <= Z.of_nat k + 1.
Proof.
  induction fuel as [| fuel IH]; intros k v Hk Hv.
  - unfold len. simpl. lia.
  - change (uvarintEncode_loop (S fuel) v [])
      with (if 0x80 <=? v
            then uvarintEncode_loop fuel (ushr v 7)
                   ([] ++ [bor (band v 0x7f) 0x80])
            else [] ++ [v]).
    destruct (Z.leb_spec 0x80 v) as [Hge | Hlt].
    + rewrite uvarintEncode_loop_acc. simpl app. rewrite len_cons.
      destruct k as [| k].
      * change (2 ^ (7 * (Z.of_nat 0 + 1))) with 128 in Hv. lia.
      * rewrite Nat2Z.inj_succ, <- Z.add_1_r in *.
        rewrite pow2_7_succ in Hv by lia.
        assert (Hp : 0 < 2 ^ (7 * (Z.of_nat k + 1)))
          by (apply Z.pow_pos_nonneg; lia).
        assert (Hq : 0 <= ushr v 7 < 2 ^ (7 * (Z.of_nat k + 1))).
        { unfold ushr. change (ToUint32 7 mod 32) with 7.
          rewrite Z.shiftr_div_pow2 by lia. change (2 ^ 7) with 128.
          pose proof (ToUint32_range v) as Hr.
          pose proof (ToUint32_le v ltac:(lia)) as Hle.
          split; [apply Z.div_pos; lia | apply Z.div_lt_upper_bound; lia]. }
        specialize (IH k (ushr v 7) ltac:(lia) Hq). lia.
    + unfold len. simpl. lia.
Qed.

(** X3. [uvarintEncode] rejects a negative number and encodes every
    other integer in one to five bytes, all but the last with the
    continuation bit; [uvarintDecode] at the place where the encoding
    stands reads back the number modulo 2^32 (the number itself below
    2^32) and reports the count of bytes of the encoding, whatever
    bytes come before and after. *)
Theorem uvarint_encode_decode (n : Z) (pre rest : bytes) :
  (n < 0 -> uvarintEncode n = Err UvarintNotNonNegInt)
  /\ (0 <= n ->
      exists enc,
        uvarintEncode n = OK enc
        /\ bytes_ok enc /\ 1 <= len enc <= 5
        /\ uvarintDecode (pre ++ enc ++ rest) (len pre)
           = OK (n mod 2 ^ 32, len enc)
        /\ (n < 2 ^ 32 ->
            uvarintDecode (pre ++ enc ++ rest) (len pre) = OK (n, len enc))).
Proof.
  split.
  - intros Hn. unfold uvarintEncode.
    destruct (Z.ltb_spec n 0); [reflexivity | lia].
  - intros Hn. destruct (uvarintEncode_total n Hn) as [enc He].
    exists enc. split; [exact He |].
    destruct (uvarint_roundtrip n enc pre rest He) as [Hd [Hok Hl]].
    split; [exact Hok |]. split; [| split].
    + split; [lia |].
      unfold uvarintEncode in He.
      destruct (n <? 0); [discriminate |]. apply OK_inj in He. subst enc.
      rewrite ushr_0.
      apply (uvarintEncode_loop_short 5 4); [lia |].
      pose proof (ToUint32_range n). simpl. lia.
    + exact Hd.
    + intros Hsmall. rewrite Hd. unfold ToUint32.
      rewrite Z.mod_small by lia. reflexivity.
Qed.

Lemma uvarintDecode_loop_within (rest : bytes) :
  forall x s i v n,
    uvarintDecode_loop rest x s i = OK (v, n) -> n <= i + len rest.
Proof.
  induction rest as [| b rest IH]; intros x s i v n H; [discriminate |].
  cbn [uvarintDecode_loop] in H. rewrite len_cons.
  pose proof (len_nonneg rest) as Hr.
  destruct (b <? 0x80).
  - destruct (orb _ _); [discriminate |].
    cbv zeta in H. apply OK_inj in H.
    assert (Hn : i + 1 = n) by congruence. lia.
  - cbv zeta in H. destruct (10 <? i + 1); [discriminate |].
    specialize (IH _ _ _ _ _ H). lia.
Qed.

(** X4. Whatever the bytes, a value that [uvarintDecode] returns is an
    unsigned 32-bit number, read from at least one and at most ten
    bytes, all of them inside the buffer; at or past the end of the
    buffer it fails with 'uvarint overflow'. *)
Theorem uvarintDecode_result (bytes : bytes) (offset : Z) :
  0 <= offset ->
  (forall v n,
     uvarintDecode bytes offset = OK (v, n) ->
     0 <= v < 2 ^ 32 /\ 1 <= n <= 10 /\ offset + n <= len bytes)
  /\ (len bytes <= offset -> uvarintDecode bytes offset = Err UvarintOverflow).
Proof.
  intros Ho. unfold uvarintDecode, slice_from. split.
  - intros v n H.
    destruct (uvarintDecode_loop_range _ _ _ _ _ _ (Z.le_refl 0) H)
      as [Hv Hn].
    pose proof (uvarintDecode_loop_within _ _ _ _ _ _ H) as Hw.
    unfold len in *. rewrite length_skipn in Hw.
    split; [exact Hv |]. split; [lia |].
    destruct (Z.le_gt_cases (Z.of_nat (length bytes)) offset); lia.
  - intros Hl. rewrite skipn_all2 by (unfold len in Hl; lia). reflexivity.
Qed.

(** ** The time field *)

Lemma get_shift (pre l : bytes) (k : Z) :
  0 <= k -> get (pre ++ l) (len pre + k) = get l k.
Proof.
  intros Hk. rewrite get_app_r by lia. f_equal. lia.
Qed.

(** X5. [writeU48] writes six bytes, most significant first, and
    [readU48] reads the number back from wherever they stand, for every
    integer from 0 to 2^48 - 1. *)
Theorem u48_roundtrip (e : Z) (pre rest : bytes) :
  0 <= e < 2 ^ 48 ->
  len (writeU48 e) = 6 /\ bytes_ok (writeU48 e)
  /\ readU48 (pre ++ writeU48 e ++ rest) (len pre) = OK e.
Proof.
  intros He. split; [apply writeU48_length |].
  split; [apply writeU48_ok |].
  rewrite writeU48_bytes. unfold readU48. cbv zeta.
  assert (E0 : get (pre ++ writeU48 e ++ rest) (len pre) = get (writeU48 e ++ rest) 0)
    by (rewrite <- (get_shift pre _ 0) by lia; f_equal; lia).
  rewrite writeU48_bytes in E0. rewrite E0, !get_shift by lia.
  set (L := _ :: _).
  replace (get (L ++ rest) 0) with ((e / 2 ^ 40) mod 256) by reflexivity.
  replace (get (L ++ rest) 1) with ((e / 2 ^ 32) mod 256) by reflexivity.
  replace (get (L ++ rest) 2) with ((e / 2 ^ 24) mod 256) by reflexivity.
  replace (get (L ++ rest) 3) with ((e / 2 ^ 16) mod 256) by reflexivity.
  replace (get (L ++ rest) 4) with ((e / 2 ^ 8) mod 256) by reflexivity.
  replace (get (L ++ rest) 5) with (e mod 256) by reflexivity.
  rewrite u48_sum by exact He.
  unfold isSafeInteger.
  destruct (Z.leb_spec (- (2 ^ 53 - 1)) e); [| lia].
  destruct (Z.leb_spec e (2 ^ 53 - 1)); [| lia].
  reflexivity.
Qed.

(** ** Bytes read from a buffer *)

Lemma bytes_ok_get (b : bytes) (i : Z) : bytes_ok b -> 0 <= get b i < 256.
Proof.
  intros Hok. unfold get.
  destruct (Nat.lt_ge_cases (Z.to_nat i) (length b)) as [Hlt | Hge].
  - unfold bytes_ok in Hok. rewrite Forall_forall in Hok.
    apply Hok. apply nth_In. exact Hlt.
  - rewrite nth_overflow by exact Hge. lia.
Qed.

Lemma shl_byte (b s : Z) :
  0 <= b < 256 -> 0 <= s <= 24 -> ushr (shl b s) 0 = b * 2 ^ s.
Proof.
  intros Hb Hs. rewrite ushr_0, ToUint32_shl by lia.
  apply ToUint32_small.
  assert (Hp : 0 < 2 ^ s) by (apply Z.pow_pos_nonneg; lia).
  assert (Hle : 2 ^ s <= 2 ^ 24) by (apply Z.pow_le_mono_r; lia).
  change (2 ^ 24) with 16777216 in Hle. change (2 ^ 32) with 4294967296.
  nia.
Qed.

(** The nonce is the four bytes read as one big-endian number. *)
Lemma nonce_big_endian (n0 n1 n2 n3 : Z) :
  bytes_ok [n0; n1; n2; n3] ->
  nonce_of [n0; n1; n2; n3]
  = n0 * 2 ^ 24 + n1 * 2 ^ 16 + n2 * 2 ^ 8 + n3.
Proof.
  intros Hok.
  pose proof (bytes_ok_get _ 0 Hok) as H0.
  pose proof (bytes_ok_get _ 1 Hok) as H1.
  pose proof (bytes_ok_get _ 2 Hok) as H2.
  change (get [n0; n1; n2; n3] 0) with n0 in H0.
  change (get [n0; n1; n2; n3] 1) with n1 in H1.
  change (get [n0; n1; n2; n3] 2) with n2 in H2.
  unfold nonce_of.
  change (get [n0; n1; n2; n3] 0) with n0.
  change (get [n0; n1; n2; n3] 1) with n1.
  change (get [n0; n1; n2; n3] 2) with n2.
  change (get [n0; n1; n2; n3] 3) with n3.
  rewrite !shl_byte by lia. reflexivity.
Qed.

Lemma strip_bom_none (s : jsstring) : hd 0 s <> 0xFEFF -> strip_bom s = s.
Proof.
  destruct s as [| c r]; [reflexivity |]. cbn [hd strip_bom]. intros H.
  destruct (Z.eqb_spec c 0xFEFF); [contradiction | reflexivity].
Qed.

(** The base64 text of [n] bytes: ceil(4 n / 3) characters of the
    alphabet, then padding to a multiple of four. *)
Lemma base64_encode_text_exact (b : bytes) :
  bytes_ok b ->
  exists body pad, b64_text body pad
    /\ base64_encode b = body ++ repeat 61 pad
    /\ 3 * len body = 4 * len b + Z.of_nat pad /\ (pad <= 2)%nat.
Proof.
  unfold bytes_ok. induction b as [| x | x y | x y z r IH] using bytes_ind3;
    intros Hok.
  - exists [], 0%nat. split; [constructor |]. split; [reflexivity |].
    unfold len. simpl. lia.
  - inversion Hok as [| ? ? Hx _]; subst. unfold byte_ok in Hx.
    exists [b64_char (x / 4); b64_char (x mod 4 * 16)], 2%nat.
    split; [constructor; arith |]. split; [reflexivity |].
    unfold len. simpl length. lia.
  - inversion Hok as [| ? ? Hx Hr]; subst.
    inversion Hr as [| ? ? Hy _]; subst. unfold byte_ok in Hx, Hy.
    exists [b64_char (x / 4); b64_char (x mod 4 * 16 + y / 16);
            b64_char (y mod 16 * 4)], 1%nat.
    split; [constructor; arith |]. split; [reflexivity |].
    unfold len. simpl length. lia.
  - inversion Hok as [| ? ? Hx Hr]; subst.
    inversion Hr as [| ? ? Hy Hr']; subst.
    inversion Hr' as [| ? ? Hz Hr'']; subst.
    unfold byte_ok in Hx, Hy, Hz.
    destruct (IH Hr'') as [body [pad [Hb [He Hl]]]].
    exists (b64_char (x / 4) :: b64_char (x mod 4 * 16 + y / 16)
              :: b64_char (y mod 16 * 4 + z / 64) :: b64_char (z mod 64)
              :: body), pad.
    split; [constructor; try arith; exact Hb |]. split.
    + change (base64_encode (x :: y :: z :: r))
        with (b64_char (x / 4) :: b64_char (x mod 4 * 16 + y / 16)
                :: b64_char (y mod 16 * 4 + z / 64) :: b64_char (z mod 64)
                :: base64_encode r).
      rewrite He. reflexivity.
    + rewrite !len_cons. lia.
Qed.

Section Behaviour.

Variable P : Platform.
Variable parse : jsstring -> result number.
Hypothesis laws : PlatformLaws P.

(** ** Round trips *)

(** X1. What [encodeBinary] wrote, [decodeBinary] reads back: for a text
    without unpaired surrogates that does not begin with U+FEFF, and a
    token below 4 GiB, the result holds the text itself, the version
    name, the compression flag and the epoch the encoder used (the
    option when given, else what the time parser read), and as nonce the
    big-endian number of the four random bytes. *)
Theorem encode_decode_exact (tps : jsstring)
    (opts : option TPSUID7RBEncodeOptions) (token : bytes) :
  well_formed tps -> hd 0 tps <> 0xFEFF ->
  encodeBinary P parse tps opts = OK token ->
  len token < 2 ^ 32 ->
  exists e n0 n1 n2 n3,
    epoch_of parse tps opts = OK (Int e) /\ 0 <= e < 2 ^ 48
    /\ randomBytes P 4 = OK [n0; n1; n2; n3]
    /\ decodeBinary P token
       = OK {| version := lit "tpsuid7rb"; epochMs := e;
               compressed := compress_of opts;
               nonce := n0 * 2 ^ 24 + n1 * 2 ^ 16 + n2 * 2 ^ 8 + n3;
               tps := tps |}.
Proof.
  intros Hwf Hbom Henc Hsmall.
  destruct (encodeBinary_inv P parse laws tps opts token Henc)
    as [e [nb [payload [lenVar [Hep [He [Hr [Hn [Hnok [Hp [Hl Ht]]]]]]]]]]].
  destruct nb as [| n0 [| n1 [| n2 [| n3 [| n4 nb]]]]];
    try (unfold len in Hn; simpl length in Hn; lia).
  exists e, n0, n1, n2, n3.
  split; [exact Hep |]. split; [exact He |]. split; [exact Hr |].
  subst token.
  rewrite token_layout_length in Hsmall by exact Hn.
  destruct (uvarint_roundtrip _ _ [] [] Hl) as [_ [_ Hlv]].
  pose proof (len_nonneg payload) as Hp0.
  rewrite <- (app_nil_r (token_layout _ e _ lenVar payload)).
  rewrite decodeBinary_layout; try assumption; try lia;
    [| destruct (compress_of opts); lia].
  replace (Z.odd (if compress_of opts then 1 else 0)) with (compress_of opts)
    by (destruct (compress_of opts); reflexivity).
  rewrite (payload_of_inflate P laws _ _ _ Hp). cbn [bind].
  rewrite TextDecoder_TextEncoder by exact Hwf.
  rewrite strip_bom_none by exact Hbom.
  rewrite nonce_big_endian by exact Hnok.
  reflexivity.
Qed.

(** X2. A token sealed with a private key verifies with the matching
    public key: [verifyAndDecode] returns what [decodeBinary] reads in
    the bytes before the seal type, with the text (less a byte order
    mark in front), the compression flag and the epoch that went in;
    the token ends in the byte 0x01 and the 64 bytes of the platform's
    signature of exactly the bytes before them, whose flags byte has the
    seal bit set. *)
Theorem seal_verify_exact (tps : jsstring) (sk : PrivateKey P)
    (pk : PublicKey P) (opts : option TPSUID7RBEncodeOptions)
    (token : bytes) :
  well_formed tps -> key_pair P sk pk ->
  seal P parse tps sk opts = OK token -> len token < 2 ^ 32 ->
  exists content signature r,
    token = content ++ [1] ++ signature /\ len signature = 64
    /\ crypto_sign P content sk = Some signature
    /\ get content 5 = (if compress_of opts then 3 else 2)
    /\ verifyAndDecode P token pk = OK r
    /\ decodeBinary P content = OK r
    /\ TPSUID7RB.tps r = strip_bom tps
    /\ compressed r = compress_of opts
    /\ epoch_of parse tps opts = OK (Int (epochMs r)).
Proof.
  intros Hwf Hpair Hseal Hsmall.
  destruct (seal_structure P parse laws tps sk opts token Hseal Hsmall)
    as [flags [e [nb [lenVar [payload [sig
         [Ht [Hf [Hodd [He [Hep [Hn [Hl [Hps [Hsig [Hp [Hreq Hsign]]]]]]]]]]]]]]]]].
  set (content := token_layout flags e nb lenVar payload) in *.
  assert (Hdec :
    decodeBinary P content
    = OK {| version := lit "tpsuid7rb"; epochMs := e;
            compressed := compress_of opts; nonce := nonce_of nb;
            tps := TextDecoder_decode (TextEncoder_encode tps) |}).
  { pose proof (decodeBinary_layout P flags e nb lenVar payload []) as Hd.
    rewrite app_nil_r in Hd. unfold content. rewrite Hd; try assumption; [| lia].
    rewrite Hodd, (payload_of_inflate P laws _ _ _ Hp). reflexivity. }
  assert (Hflags : get content 5 = flags).
  { unfold content. rewrite token_layout_header, get_app_l
      by (rewrite header_length by exact Hn; lia).
    apply (header_get flags e nb). }
  exists content, sig. eexists.
  split; [exact Ht |]. split; [exact Hsig |]. split; [exact Hsign |].
  split.
  { rewrite Hflags. rewrite <- Hodd.
    destruct Hf as [-> | ->]; reflexivity. }
  split; [| split; [exact Hdec |]].
  - subst token. destruct (Hpair content) as [sig' [Hsign' Hver]].
    assert (sig' = sig) by congruence. subst sig'.
    unfold content in *. rewrite token_layout_header in *.
    rewrite <- !app_assoc.
    rewrite verifyAndDecode_structure; try assumption;
      try (apply header_length; exact Hn);
      try apply (header_get flags e nb).
    2: { destruct (header_get flags e nb) as [_ [_ [_ [_ [_ G5]]]]].
         rewrite G5. apply band_seal_bit. exact Hf. }
    rewrite verify_accepts by assumption.
    exact Hdec.
  - cbn [TPSUID7RB.tps compressed epochMs].
    split; [apply TextDecoder_TextEncoder; exact Hwf |].
    split; [reflexivity | exact Hep].
Qed.

(** X6. The transport coding loses nothing: for every byte array,
    [base64UrlDecode] gives back the bytes that [base64UrlEncode] wrote;
    the text has ceil(4 n / 3) characters for [n] bytes, all of them of
    the alphabet A-Z a-z 0-9 - _ (no padding, no '+', no '/'). *)
Theorem base64Url_transport (b : bytes) :
  bytes_ok b ->
  base64UrlDecode P (base64UrlEncode b) = b
  /\ len (base64UrlEncode b) = (4 * len b + 2) / 3
  /\ forallb is_b64url_char (base64UrlEncode b) = true.
Proof.
  intros Hok. split; [apply (base64Url_roundtrip P laws); exact Hok |].
  split; [| apply base64UrlEncode_chars; exact Hok].
  destruct (base64_encode_text_exact b Hok) as [body [pad [Ht [He [Hl Hp]]]]].
  rewrite (base64UrlEncode_text b body pad Ht He).
  replace (len (map to_url body)) with (len body)
    by (unfold len; rewrite length_map; reflexivity).
  apply Z.div_unique with (r := 2 - Z.of_nat pad); lia.
Qed.

(** An identifier is read as the bytes it was written from. *)
Lemma decodeBinaryB64_identifier (token : bytes) :
  bytes_ok token ->
  decodeBinaryB64 P (PREFIX ++ base64UrlEncode token) = decodeBinary P token.
Proof.
  intros Hok. unfold decodeBinaryB64. cbv zeta.
  rewrite trim_no_whitespace
    by (apply identifier_no_whitespace;
        apply base64UrlEncode_chars; exact Hok).
  rewrite startsWith_prefix. cbn [negb].
  rewrite slice_from_app.
  rewrite (base64Url_roundtrip P laws) by exact Hok.
  reflexivity.
Qed.

(** X7. Every identifier that [encodeBinaryB64] returns is the prefix
    'tpsuid7rb_' followed by the base64url text of the token
    [encodeBinary] returns for the same arguments; it passes
    [validateBinaryB64], and [decodeBinaryB64] reads it exactly as
    [decodeBinary] reads that token. *)
Theorem encodeBinaryB64_identifier (tps : jsstring)
    (opts : option TPSUID7RBEncodeOptions) (id : jsstring) :
  well_formed tps ->
  encodeBinaryB64 P parse tps opts = OK id ->
  exists token,
    encodeBinary P parse tps opts = OK token
    /\ id = PREFIX ++ base64UrlEncode token
    /\ validateBinaryB64 id = true
    /\ decodeBinaryB64 P id = decodeBinary P token.
Proof.
  intros Hwf Hid. unfold encodeBinaryB64 in Hid.
  destruct (encodeBinary P parse tps opts) as [token | err] eqn:Henc;
    cbn [bind] in Hid; [| discriminate].
  apply OK_inj in Hid. subst id.
  exists token. split; [reflexivity |]. split; [reflexivity |].
  destruct (encodeBinary_inv P parse laws tps opts token Henc)
    as [e [nb [payload [lenVar [Hep [He [Hr [Hn [Hnok [Hp [Hl Ht]]]]]]]]]]].
  destruct (uvarint_roundtrip _ _ [] [] Hl) as [_ [Hlok _]].
  assert (Hok : bytes_ok token).
  { subst token. apply token_layout_ok; try assumption.
    - destruct (compress_of opts); lia.
    - apply (payload_of_ok P laws _ _ _ Hwf Hp). }
  split; [| apply decodeBinaryB64_identifier; exact Hok].
  unfold validateBinaryB64. apply REGEX_test_shape.
  rewrite trim_no_whitespace
    by (apply identifier_no_whitespace;
        apply base64UrlEncode_chars; exact Hok).
  apply base64UrlEncode_shape; [exact Hok |].
  subst token. discriminate.
Qed.

End Behaviour.

(** ** What a successful decode guarantees *)

Lemma band_1_odd (f : Z) : 0 <= f < 256 -> (band f 0x01 =? 0x01) = Z.odd f.
Proof.
  intros Hf.
  pose proof (check_below 256
                (fun f => Bool.eqb (band f 0x01 =? 0x01) (Z.odd f))) as H.
  apply eqb_prop. apply H; [vm_compute; reflexivity | exact Hf].
Qed.

Lemma readU48_range (b : bytes) (o e : Z) :
  bytes_ok b -> readU48 b o = OK e -> 0 <= e < 2 ^ 48.
Proof.
  intros Hok H. unfold readU48 in H. cbv zeta in H.
  destruct (negb _); [discriminate |]. apply OK_inj in H. subst e.
  pose proof (bytes_ok_get b o Hok).
  pose proof (bytes_ok_get b (o + 1) Hok).
  pose proof (bytes_ok_get b (o + 2) Hok).
  pose proof (bytes_ok_get b (o + 3) Hok).
  pose proof (bytes_ok_get b (o + 4) Hok).
  pose proof (bytes_ok_get b (o + 5) Hok).
  rewrite !Z.shiftl_mul_pow2 by lia.
  change (2 ^ 48) with 281474976710656.
  change (2 ^ 40) with 1099511627776. change (2 ^ 32) with 4294967296.
  change (2 ^ 24) with 16777216. change (2 ^ 16) with 65536.
  change (2 ^ 8) with 256.
  lia.
Qed.

Lemma firstn_4_get (b : bytes) (a0 a1 a2 a3 : Z) :
  4 <= len b -> get b 0 = a0 -> get b 1 = a1 -> get b 2 = a2 ->
  get b 3 = a3 -> firstn 4 b = [a0; a1; a2; a3].
Proof.
  destruct b as [| b0 [| b1 [| b2 [| b3 r]]]];
    try (unfold len; simpl length; lia).
  intros _. unfold get. simpl. congruence.
Qed.

Lemma split_at (b : bytes) (k : Z) :
  0 <= k < len b ->
  b = slice b 0 k ++ [get b k] ++ slice_from b (k + 1).
Proof.
  intros Hk. unfold slice, slice_from, get, len in *.
  change (Z.to_nat 0) with 0%nat. rewrite Nat.sub_0_r. cbn [skipn].
  replace (Z.to_nat (k + 1)) with (S (Z.to_nat k)) by lia.
  set (n := Z.to_nat k). assert (Hn : (n < length b)%nat) by lia.
  clearbody n. clear Hk k.
  revert b Hn. induction n as [| n IH]; intros [| x b] Hn;
    try (simpl in Hn; lia).
  - reflexivity.
  - simpl in Hn. cbn [firstn nth skipn app]. f_equal.
    apply IH. lia.
Qed.

Section Soundness.

Variable P : Platform.

(** X8. A result of [decodeBinary] stands for a buffer of the right
    form: at least 17 bytes, beginning with 'TPU7' and the version 1;
    the compression flag is bit 0 of the flags byte, the epoch is below
    2^48 and the nonce below 2^32; the length field is a varint whose
    payload block lies inside the buffer, and the text is the decoding
    of that block (inflated when the flag is set).  No other buffer is
    decoded. *)
Theorem decodeBinary_sound (b : bytes) (r : TPSUID7RBDecodeResult) :
  bytes_ok b -> decodeBinary P b = OK r ->
  17 <= len b /\ firstn 4 b = MAGIC /\ get b 4 = VER
  /\ version r = lit "tpsuid7rb"
  /\ compressed r = Z.odd (get b 5)
  /\ 0 <= epochMs r < 2 ^ 48 /\ 0 <= nonce r < 2 ^ 32
  /\ exists tpsLen bytesRead tpsUtf8,
       uvarintDecode b 16 = OK (tpsLen, bytesRead)
       /\ 1 <= bytesRead /\ 0 <= tpsLen
       /\ 16 + bytesRead + tpsLen <= len b
       /\ (let payload := slice b (16 + bytesRead) (16 + bytesRead + tpsLen) in
           if compressed r then inflateRaw P payload else OK payload)
          = OK tpsUtf8
       /\ TPSUID7RB.tps r = TextDecoder_decode tpsUtf8.
Proof.
  intros Hok H. unfold decodeBinary in H. cbv zeta in H.
  destruct (Z.ltb_spec (len b) 17) as [| Hlen]; [discriminate |].
  destruct (Z.eqb_spec (get b 0) 0x54) as [G0 |]; [| discriminate].
  destruct (Z.eqb_spec (get b 1) 0x50) as [G1 |]; [| discriminate].
  destruct (Z.eqb_spec (get b 2) 0x55) as [G2 |]; [| discriminate].
  destruct (Z.eqb_spec (get b 3) 0x37) as [G3 |]; [| discriminate].
  cbn [negb orb] in H.
  destruct (Z.eqb_spec (get b 4) VER) as [G4 |]; [| discriminate].
  cbn [negb] in H.
  destruct (readU48 b 6) as [e | err] eqn:He; cbn [bind] in H;
    [| discriminate].
  destruct (uvarintDecode b 16) as [[tpsLen bytesRead] | err] eqn:Hv;
    cbn [bind] in H; [| discriminate].
  destruct (Z.ltb_spec (len b) (16 + bytesRead + tpsLen)) as [| Hin];
    [discriminate |].
  rewrite band_1_odd in H by (apply bytes_ok_get; exact Hok).
  set (payload := slice b (16 + bytesRead) (16 + bytesRead + tpsLen)) in *.
  destruct (if Z.odd (get b 5) then inflateRaw P payload else OK payload)
    as [utf8 | err] eqn:Hu; cbn [bind] in H; [| discriminate].
  apply OK_inj in H. subst r.
  cbn [version compressed epochMs nonce TPSUID7RB.tps].
  split; [exact Hlen |].
  split; [apply firstn_4_get; [lia | assumption ..] |].
  split; [exact G4 |]. split; [reflexivity |]. split; [reflexivity |].
  split; [apply (readU48_range b 6); assumption |].
  split.
  - pose proof (bytes_ok_get b 12 Hok).
    pose proof (bytes_ok_get b 13 Hok).
    pose proof (bytes_ok_get b 14 Hok).
    pose proof (bytes_ok_get b 15 Hok).
    rewrite !shl_byte by lia.
    change (2 ^ 32) with 4294967296.
    change (2 ^ 24) with 16777216. change (2 ^ 16) with 65536.
    change (2 ^ 8) with 256.
    lia.
  - exists tpsLen, bytesRead, utf8.
    split; [reflexivity |].
    unfold uvarintDecode in Hv.
    destruct (uvarintDecode_loop_range _ _ _ _ _ _ (Z.le_refl 0) Hv)
      as [Hr Hn].
    split; [lia |]. split; [lia |]. split; [exact Hin |].
    split; [exact Hu | reflexivity].
Qed.

(** X9. [verifyAndDecode] returns a result only for a buffer that is
    some bytes with the seal bit set in their flags byte, then the seal
    type 0x01, then exactly 64 bytes which the platform's verification
    accepted as a signature of those first bytes under the given key;
    and the result is what [decodeBinary] reads in those first bytes.
    Nothing is decoded without an accepted signature. *)
Theorem verifyAndDecode_sound (b : bytes) (pk : PublicKey P)
    (r : TPSUID7RBDecodeResult) :
  verifyAndDecode P b pk = OK r ->
  exists content signature,
    b = content ++ [1] ++ signature /\ len signature = 64
    /\ band (get content 5) 0x02 <> 0
    /\ has_require P = true
    /\ crypto_verify P content pk signature = Some true
    /\ decodeBinary P content = OK r.
Proof.
  intros H. unfold verifyAndDecode in H. cbv zeta in H.
  destruct (Z.ltb_spec (len b) 18) as [| Hlen]; [discriminate |].
  destruct (negb (get b 0 =? 0x54) || negb (get b 1 =? 0x50)
            || negb (get b 2 =? 0x55) || negb (get b 3 =? 0x37));
    [discriminate |].
  destruct (Z.eqb_spec (band (get b 5) 0x02) 0) as [| Hbit];
    [discriminate |].
  destruct (uvarintDecode b 16) as [[tpsLen bytesRead] | err] eqn:Hv;
    cbn [bind] in H; [| discriminate].
  unfold uvarintDecode in Hv.
  destruct (uvarintDecode_loop_range _ _ _ _ _ _ (Z.le_refl 0) Hv)
    as [Hr Hn].
  set (payloadEnd := 16 + bytesRead + tpsLen) in *.
  destruct (Z.ltb_spec (len b) payloadEnd); [discriminate |].
  destruct (Z.leb_spec (len b) (payloadEnd + 1)) as [| Hsig];
    [discriminate |].
  destruct (Z.eqb_spec (get b payloadEnd) 0x01) as [Htype |];
    [| discriminate].
  cbn [negb] in H.
  destruct (Z.eqb_spec (len (slice_from b (payloadEnd + 1))) 64)
    as [Hs64 |]; [| discriminate].
  cbn [negb] in H.
  unfold verifyEd25519 in H.
  destruct (has_require P) eqn:Hreq; [| discriminate].
  destruct (crypto_verify P (slice b 0 payloadEnd) pk
              (slice_from b (payloadEnd + 1))) as [[|] |] eqn:Hver;
    cbn [bind negb] in H; try discriminate.
  exists (slice b 0 payloadEnd), (slice_from b (payloadEnd + 1)).
  split.
  { pose proof (split_at b payloadEnd ltac:(unfold payloadEnd; lia)) as Hsp.
    rewrite Htype in Hsp. exact Hsp. }
  split; [exact Hs64 |]. split.
  { replace (get (slice b 0 payloadEnd) 5) with (get b 5); [exact Hbit |].
    unfold get, slice. change (Z.to_nat 0) with 0%nat.
    rewrite Nat.sub_0_r. cbn [skipn].
    rewrite nth_firstn.
    destruct (Nat.ltb_spec (Z.to_nat 5) (Z.to_nat payloadEnd));
      [reflexivity | unfold payloadEnd in *; lia]. }
  split; [reflexivity |]. split; [exact Hver | exact H].
Qed.

End Soundness.

(** ** Framing: cut and extended tokens *)

(** A varint cut short: the bytes before the last all have the
    continuation bit, and the decoder runs off their end. *)
Lemma uvarintEncode_loop_prefix (fuel : nat) :
  forall (v : Z) (p q : bytes),
    0 <= v < 2 ^ 32 ->
    uvarintEncode_loop fuel v [] = p ++ q -> q <> [] ->
    Forall (fun b => 0x80 <= b) p.
Proof.
  induction fuel as [| fuel IH]; intros v p q Hv E Hq.
  - destruct p as [| b p]; [constructor |].
    simpl in E. injection E as _ E. destruct p; destruct q; try discriminate.
    contradiction.
  - change (uvarintEncode_loop (S fuel) v [])
      with (if 0x80 <=? v
            then uvarintEncode_loop fuel (ushr v 7)
                   ([] ++ [bor (band v 0x7f) 0x80])
            else [] ++ [v]) in E.
    destruct (Z.leb_spec 0x80 v) as [Hge | Hlt].
    + rewrite uvarintEncode_loop_acc in E. simpl app in E.
      destruct p as [| b p]; [constructor |].
      simpl in E. injection E as Eb E.
      pose proof (Z.mod_pos_bound v 128 ltac:(lia)) as Hm.
      rewrite band_0x7f, bor_0x80 in Eb by lia.
      constructor; [lia |].
      apply (IH (ushr v 7) p q); [| exact E | exact Hq].
      rewrite ushr_7 by lia. change (2 ^ 32) with 4294967296 in *.
      split; [apply Z.div_pos; lia | apply Z.div_lt_upper_bound; lia].
    + destruct p as [| b p]; [constructor |].
      simpl in E. injection E as _ E. destruct p; destruct q; try discriminate.
      contradiction.
Qed.

Lemma uvarintDecode_loop_cut (p : bytes) :
  forall x s i,
    Forall (fun b => 0x80 <= b) p -> i + len p <= 10 ->
    uvarintDecode_loop p x s i = Err UvarintOverflow.
Proof.
  induction p as [| b p IH]; intros x s i Hp Hi; [reflexivity |].
  inversion Hp as [| ? ? Hb Hp']; subst.
  rewrite len_cons in Hi. pose proof (len_nonneg p).
  cbn [uvarintDecode_loop].
  destruct (Z.ltb_spec b 0x80); [lia |]. cbv zeta.
  destruct (Z.ltb_spec 10 (i + 1)); [lia |].
  apply IH; [exact Hp' | lia].
Qed.

Lemma len_firstn {A : Type} (l : list A) (n : Z) :
  0 <= n <= len l -> len (firstn (Z.to_nat n) l) = n.
Proof. intros H. unfold len in *. rewrite length_firstn. lia. Qed.

Lemma firstn_app_r {A : Type} (l1 l2 : list A) (n : Z) :
  len l1 <= n ->
  firstn (Z.to_nat n) (l1 ++ l2)
  = l1 ++ firstn (Z.to_nat (n - len l1)) l2.
Proof.
  intros H. unfold len in *. rewrite firstn_app.
  rewrite firstn_all2 by lia. f_equal. f_equal. lia.
Qed.

Lemma firstn_app_l {A : Type} (l1 l2 : list A) (n : Z) :
  n <= len l1 -> firstn (Z.to_nat n) (l1 ++ l2) = firstn (Z.to_nat n) l1.
Proof.
  intros H. unfold len in *. rewrite firstn_app.
  replace (Z.to_nat n - length l1)%nat with 0%nat by lia.
  cbn [firstn]. apply app_nil_r.
Qed.

Section Framing.

Variable P : Platform.
Variable parse : jsstring -> result number.
Hypothesis laws : PlatformLaws P.

(** [decodeBinary] behind a header that [encodeBinary] or [seal] wrote:
    what is left is the reading of the length field and of the block. *)
Lemma decodeBinary_header (flags e : Z) (nb rest : bytes) :
  0 <= e < 2 ^ 48 -> len nb = 4 -> 1 <= len rest ->
  decodeBinary P (header flags e nb ++ rest)
  = ('(tpsLen, bytesRead) <- uvarintDecode_loop rest 0 0 0 ;;
     if 16 + len rest <? 16 + bytesRead + tpsLen then Err LengthOverflow
     else
       let payload :=
         slice (header flags e nb ++ rest) (16 + bytesRead)
           (16 + bytesRead + tpsLen) in
       tpsUtf8 <- (if band flags 0x01 =? 0x01 then inflateRaw P payload
                   else OK payload) ;;
       OK {| version := lit "tpsuid7rb"; epochMs := e;
             compressed := band flags 0x01 =? 0x01; nonce := nonce_of nb;
             tps := TextDecoder_decode tpsUtf8 |}).
Proof.
  intros He Hn Hrest.
  assert (Hh : len (header flags e nb) = 16) by (apply header_length; exact Hn).
  destruct nb as [| n0 [| n1 [| n2 [| n3 [| n4 nb]]]]];
    try (unfold len in Hn; simpl in Hn; lia).
  clear Hn.
  set (L := header flags e [n0; n1; n2; n3] ++ rest).
  assert (Hread : readU48 L 6 = OK e).
  { unfold L, header. rewrite <- !app_assoc.
    exact (readU48_writeU48 0x54 0x50 0x55 0x37 VER flags e _ He). }
  assert (Hvar : uvarintDecode L 16 = uvarintDecode_loop rest 0 0 0).
  { unfold uvarintDecode, L. rewrite <- Hh. rewrite slice_from_app.
    reflexivity. }
  assert (Htotal : len L = 16 + len rest)
    by (unfold L; rewrite len_app, Hh; reflexivity).
  unfold decodeBinary. rewrite Hread, Hvar, Htotal. cbn [bind]. cbv zeta.
  assert (G : get L 0 = 0x54 /\ get L 1 = 0x50 /\ get L 2 = 0x55
              /\ get L 3 = 0x37 /\ get L 4 = VER /\ get L 5 = flags
              /\ get L 12 = n0 /\ get L 13 = n1 /\ get L 14 = n2
              /\ get L 15 = n3).
  { unfold L, header. rewrite writeU48_bytes. repeat split; reflexivity. }
  destruct G as [G0 [G1 [G2 [G3 [G4 [G5 [G12 [G13 [G14 G15]]]]]]]]].
  rewrite G0, G1, G2, G3, G4, G5, G12, G13, G14, G15.
  destruct (Z.ltb_spec (16 + len rest) 17); [lia |].
  rewrite !Z.eqb_refl. cbn [negb orb].
  reflexivity.
Qed.

(** X10. A token of [encodeBinary] (below 4 GiB) with bytes missing at
    its end does not decode: whatever the number of bytes cut,
    [decodeBinary] fails, with 'too short' when fewer than 17 bytes are
    left and else with 'uvarint overflow' or 'length overflow'; no
    shortened token yields a result. *)
Theorem truncated_token_rejected (tps : jsstring)
    (opts : option TPSUID7RBEncodeOptions) (token : bytes) (n : Z) :
  encodeBinary P parse tps opts = OK token -> len token < 2 ^ 32 ->
  0 <= n < len token ->
  (n < 17 -> decodeBinary P (firstn (Z.to_nat n) token) = Err TooShort)
  /\ (17 <= n ->
      decodeBinary P (firstn (Z.to_nat n) token) = Err UvarintOverflow
      \/ decodeBinary P (firstn (Z.to_nat n) token) = Err LengthOverflow).
Proof.
  intros Henc Hsmall Hn.
  split.
  - intros H17. unfold decodeBinary.
    rewrite len_firstn by lia.
    destruct (Z.ltb_spec n 17); [reflexivity | lia].
  - intros H17.
    destruct (encodeBinary_inv P parse laws tps opts token Henc)
      as [e [nb [payload [lenVar [Hep [He [Hr [Hnb [Hnok [Hp [Hl Ht]]]]]]]]]]].
    subst token.
    rewrite token_layout_length in Hsmall, Hn by exact Hnb.
    rewrite token_layout_header.
    pose proof (header_length (if compress_of opts then 1 else 0) e nb Hnb)
      as Hh.
    pose proof (len_nonneg payload) as Hp0.
    pose proof (len_nonneg lenVar) as Hl0.
    rewrite firstn_app_r by lia. rewrite Hh.
    destruct (Z.lt_ge_cases (n - 16) (len lenVar)) as [Hcut | Hfull].
    + left. rewrite firstn_app_l by lia.
      rewrite decodeBinary_header; try assumption;
        [| rewrite len_firstn; lia].
      rewrite uvarintDecode_loop_cut; [reflexivity | |].
      * unfold uvarintEncode in Hl.
        destruct (len payload <? 0); [discriminate |].
        apply OK_inj in Hl. rewrite ushr_0 in Hl.
        apply (uvarintEncode_loop_prefix 5 (ToUint32 (len payload)) _
                 (skipn (Z.to_nat (n - 16)) lenVar)).
        -- apply ToUint32_range.
        -- rewrite firstn_skipn. exact Hl.
        -- intros E. apply (f_equal (@length Z)) in E.
           rewrite length_skipn in E. unfold len in Hcut. simpl in E. lia.
      * rewrite len_firstn by lia.
        destruct (uvarint_roundtrip _ _ [] [] Hl) as [_ [_ Hlv]]. lia.
    + right. rewrite firstn_app_r by lia.
      rewrite decodeBinary_header; try assumption.
      2: { rewrite len_app.
           pose proof (len_nonneg (firstn (Z.to_nat (n - 16 - len lenVar))
                                     payload)).
           destruct (uvarint_roundtrip _ _ [] [] Hl) as [_ [_ Hlv]]. lia. }
      destruct (uvarint_roundtrip _ _ []
                  (firstn (Z.to_nat (n - 16 - len lenVar)) payload) Hl)
        as [Hdec _].
      unfold uvarintDecode, slice_from in Hdec.
      change (Z.to_nat (len [])) with 0%nat in Hdec.
      cbn [skipn app] in Hdec. rewrite Hdec. cbn [bind].
      rewrite ToUint32_small by lia.
      rewrite len_app, len_firstn by lia.
      destruct (Z.ltb_spec (16 + (len lenVar + (n - 16 - len lenVar)))
                  (16 + len lenVar + len payload)); [reflexivity | lia].
Qed.

(** [verifyAndDecode] on a token layout with the seal bit, followed by
    any bytes [t]: the checks of the seal, in their order. *)
Lemma verifyAndDecode_trailer (pk : PublicKey P)
    (hdr lenVar payload t : bytes) :
  len hdr = 16 ->
  get hdr 0 = 0x54 -> get hdr 1 = 0x50 -> get hdr 2 = 0x55 ->
  get hdr 3 = 0x37 -> band (get hdr 5) 0x02 <> 0 ->
  uvarintEncode (len payload) = OK lenVar -> len payload < 2 ^ 32 ->
  18 <= 16 + len lenVar + len payload + len t ->
  verifyAndDecode P (hdr ++ lenVar ++ payload ++ t) pk
  = if len t <=? 1 then Err MissingSignatureData
    else if negb (get t 0 =? 0x01) then Err (UnsupportedSealType (get t 0))
    else if negb (len t - 1 =? 64)
    then Err (InvalidSignatureLength (len t - 1))
    else
      isValid <- verifyEd25519 P (hdr ++ lenVar ++ payload) (skipn 1 t) pk ;;
      if negb isValid then Err SignatureVerificationFailed
      else decodeBinary P (hdr ++ lenVar ++ payload).
Proof.
  intros Hh H0 H1 H2 H3 H5 Hlen Hsmall H18.
  pose proof (len_nonneg payload) as Hp0.
  pose proof (len_nonneg t) as Ht0.
  pose proof (uvarint_roundtrip (len payload) lenVar hdr
                (payload ++ t) Hlen) as [Hdec [_ Hlv]].
  rewrite Hh in Hdec. rewrite ToUint32_small in Hdec by lia.
  set (token := hdr ++ lenVar ++ payload ++ t) in *.
  assert (Htotal : len token = 16 + len lenVar + len payload + len t).
  { unfold token. rewrite !len_app, Hh. lia. }
  assert (Hcl : len (hdr ++ lenVar ++ payload) = 16 + len lenVar + len payload)
    by (rewrite !len_app, Hh; lia).
  assert (Hshape : token = (hdr ++ lenVar ++ payload) ++ t)
    by (unfold token; rewrite <- !app_assoc; reflexivity).
  assert (Hcontent :
    slice token 0 (16 + len lenVar + len payload) = hdr ++ lenVar ++ payload).
  { rewrite Hshape, <- Hcl. apply slice_0_app. }
  assert (Htype : get token (16 + len lenVar + len payload) = get t 0).
  { rewrite Hshape, <- Hcl. rewrite get_app_r by lia. f_equal. lia. }
  assert (Hsigs :
    slice_from token (16 + len lenVar + len payload + 1) = skipn 1 t).
  { rewrite Hshape, <- Hcl. unfold slice_from, len.
    replace (Z.to_nat (Z.of_nat (length (hdr ++ lenVar ++ payload)) + 1))
      with (length (hdr ++ lenVar ++ payload) + 1)%nat by lia.
    rewrite skipn_app.
    rewrite skipn_all2 by lia.
    replace (length (hdr ++ lenVar ++ payload) + 1
             - length (hdr ++ lenVar ++ payload))%nat with 1%nat by lia.
    reflexivity. }
  assert (Hget : forall i, 0 <= i < 16 -> get token i = get hdr i).
  { intros i Hi. unfold token. apply get_app_l. lia. }
  unfold verifyAndDecode.
  rewrite Hdec. cbn [bind]. cbv zeta.
  rewrite Hcontent, Htype, Hsigs, Htotal.
  rewrite !Hget by lia. rewrite H0, H1, H2, H3.
  destruct (Z.ltb_spec (16 + len lenVar + len payload + len t) 18); [lia |].
  cbn [Z.eqb Pos.eqb negb orb].
  destruct (Z.eqb_spec (band (get hdr 5) 2) 0); [contradiction |].
  destruct (Z.ltb_spec (16 + len lenVar + len payload + len t)
              (16 + len lenVar + len payload)); [lia |].
  destruct (Z.leb_spec (16 + len lenVar + len payload + len t)
              (16 + len lenVar + len payload + 1));
    destruct (Z.leb_spec (len t) 1); try lia; [reflexivity |].
  replace (len (skipn 1 t)) with (len t - 1)
    by (unfold len in *; rewrite length_skipn; lia).
  reflexivity.
Qed.

(** X11. The seal of a token is framed exactly.  For a token of [seal]
    (below 4 GiB) and any key: with bytes added behind the signature
    [verifyAndDecode] fails with 'invalid Ed25519 signature length' and
    the length it found; with the last k bytes missing, 1 <= k < 64, it
    fails with the same error, and with the whole signature missing
    with 'missing signature data'; with the seal type byte set to a
    value other than 1 it fails with 'unsupported seal type'.  In none
    of these cases is the signature looked at. *)
Theorem sealed_token_framing (tps : jsstring) (sk : PrivateKey P)
    (opts : option TPSUID7RBEncodeOptions) (token : bytes)
    (pk : PublicKey P) :
  seal P parse tps sk opts = OK token -> len token < 2 ^ 32 ->
  (forall x, x <> [] ->
     verifyAndDecode P (token ++ x) pk
     = Err (InvalidSignatureLength (64 + len x)))
  /\ (forall k, 1 <= k < 64 ->
        verifyAndDecode P (firstn (Z.to_nat (len token - k)) token) pk
        = Err (InvalidSignatureLength (64 - k)))
  /\ verifyAndDecode P (firstn (Z.to_nat (len token - 64)) token) pk
     = Err MissingSignatureData
  /\ (forall v, 0 <= v < 256 -> v <> 1 ->
        verifyAndDecode P (tamper token (len token - 65) v) pk
        = Err (UnsupportedSealType v)).
Proof.
  intros Hseal Hsmall.
  destruct (seal_structure P parse laws tps sk opts token Hseal Hsmall)
    as [flags [e [nb [lenVar [payload [sig
         [Ht [Hf [Hodd [He [Hep [Hn [Hl [Hps [Hsig [Hp [Hreq Hsign]]]]]]]]]]]]]]]]].
  pose proof (len_nonneg payload) as Hp0.
  destruct (uvarint_roundtrip _ _ [] [] Hl) as [_ [_ Hlv]].
  pose proof (header_length flags e nb Hn) as Hh.
  destruct (header_get flags e nb) as [G0 [G1 [G2 [G3 [_ G5]]]]].
  assert (Hbit : band (get (header flags e nb) 5) 0x02 <> 0)
    by (rewrite G5; apply band_seal_bit; exact Hf).
  assert (Hcl : len (token_layout flags e nb lenVar payload)
                = 16 + len lenVar + len payload)
    by (apply token_layout_length; exact Hn).
  assert (Htotal : len token = 16 + len lenVar + len payload + 65).
  { subst token. rewrite !len_app, Hcl, Hsig. unfold len. simpl length. lia. }
  assert (Hform : forall t,
    1 <= len t ->
    verifyAndDecode P (token_layout flags e nb lenVar payload ++ t) pk
    = if len t <=? 1 then Err MissingSignatureData
      else if negb (get t 0 =? 0x01) then Err (UnsupportedSealType (get t 0))
      else if negb (len t - 1 =? 64)
      then Err (InvalidSignatureLength (len t - 1))
      else
        isValid <- verifyEd25519 P (header flags e nb ++ lenVar ++ payload)
                     (skipn 1 t) pk ;;
        if negb isValid then Err SignatureVerificationFailed
        else decodeBinary P (header flags e nb ++ lenVar ++ payload)).
  { intros t Hlt. rewrite token_layout_header, <- !app_assoc.
    apply verifyAndDecode_trailer; try assumption. lia. }
  split; [| split; [| split]].
  - intros x Hx.
    assert (Hlx : 1 <= len x).
    { destruct x; [contradiction |]. rewrite len_cons.
      pose proof (len_nonneg x). lia. }
    subst token. rewrite <- app_assoc.
    rewrite Hform by (rewrite !len_app; unfold len at 1; simpl length; lia).
    rewrite !len_app, Hsig.
    change (len [1]) with 1. change (get (([1] ++ sig) ++ x) 0) with 1.
    destruct (Z.leb_spec (1 + 64 + len x) 1); [lia |].
    cbn [Z.eqb Pos.eqb negb].
    destruct (Z.eqb_spec (1 + 64 + len x - 1) 64); [lia |].
    cbn [negb]. f_equal. f_equal. lia.
  - intros k Hk. rewrite Htotal. subst token.
    rewrite firstn_app_r by lia. rewrite Hcl.
    replace (16 + len lenVar + len payload + 65 - k
             - (16 + len lenVar + len payload)) with (65 - k) by lia.
    assert (Hl65 : len (firstn (Z.to_nat (65 - k)) ([1] ++ sig)) = 65 - k).
    { apply len_firstn. rewrite len_app, Hsig. change (len [1]) with 1. lia. }
    rewrite Hform by lia. rewrite Hl65.
    replace (Z.to_nat (65 - k)) with (S (Z.to_nat (64 - k))) by lia.
    change (get (firstn (S (Z.to_nat (64 - k))) ([1] ++ sig)) 0) with 1.
    destruct (Z.leb_spec (65 - k) 1); [lia |].
    cbn [Z.eqb Pos.eqb negb].
    destruct (Z.eqb_spec (65 - k - 1) 64); [lia |].
    cbn [negb]. f_equal. f_equal. lia.
  - rewrite Htotal. subst token.
    rewrite firstn_app_r by lia. rewrite Hcl.
    replace (16 + len lenVar + len payload + 65 - 64
             - (16 + len lenVar + len payload)) with 1 by lia.
    change (firstn (Z.to_nat 1) ([1] ++ sig)) with [1].
    rewrite Hform by (unfold len; simpl length; lia).
    reflexivity.
  - intros v Hv Hne. rewrite Htotal. subst token. unfold tamper.
    replace (16 + len lenVar + len payload + 65 - 65)
      with (len (token_layout flags e nb lenVar payload)) by lia.
    rewrite store_app_r by lia.
    replace (len (token_layout flags e nb lenVar payload)
             - len (token_layout flags e nb lenVar payload)) with 0 by lia.
    change (store ([1] ++ sig) 0 v) with ([v mod 256] ++ sig).
    rewrite Z.mod_small by lia.
    rewrite Hform by (rewrite len_app, Hsig; unfold len; simpl length; lia).
    rewrite len_app, Hsig. change (len [v]) with 1.
    change (get ([v] ++ sig) 0) with v.
    destruct (Z.leb_spec (1 + 64) 1); [lia |].
    destruct (Z.eqb_spec v 1); [contradiction |].
    reflexivity.
Qed.

End Framing.

(** ** The two encoders *)

Section Encoders.

Variable P : Platform.
Variable parse : jsstring -> result number.
Hypothesis laws : PlatformLaws P.

(** X14. [encodeBinary] succeeds exactly when the epoch (the option, or
    what the time parser reads) is an integer from 0 to 2^48 - 1, the
    platform delivers the random bytes and, with compression asked for,
    the compressor works; the token then is, byte for byte, the magic
    'TPU7', the version 1, the flags (1 with compression, else 0), the
    epoch in six bytes, the four random bytes, the varint of the payload
    length and the payload, 16 bytes and those two fields in all; and
    the payload is the UTF-8 text itself unless compression is on. *)
Theorem encodeBinary_wire_format (tps : jsstring)
    (opts : option TPSUID7RBEncodeOptions) :
  ((exists token, encodeBinary P parse tps opts = OK token)
   <-> (exists e, epoch_of parse tps opts = OK (Int e) /\ 0 <= e < 2 ^ 48)
       /\ (exists nonceBuf, randomBytes P 4 = OK nonceBuf)
       /\ (exists payload,
             payload_of P (compress_of opts) tps = OK payload))
  /\ (forall token,
        encodeBinary P parse tps opts = OK token ->
        exists e nonceBuf lenVar payload,
          token = [0x54; 0x50; 0x55; 0x37; 0x01;
                   if compress_of opts then 0x01 else 0x00]
                    ++ writeU48 e ++ nonceBuf ++ lenVar ++ payload
          /\ epoch_of parse tps opts = OK (Int e)
          /\ randomBytes P 4 = OK nonceBuf /\ len nonceBuf = 4
          /\ uvarintEncode (len payload) = OK lenVar
          /\ payload_of P (compress_of opts) tps = OK payload
          /\ (compress_of opts = false -> payload = TextEncoder_encode tps)
          /\ len token = 16 + len lenVar + len payload).
Proof.
  split; [split |].
  - intros [token Henc].
    destruct (encodeBinary_inv P parse laws tps opts token Henc)
      as [e [nb [payload [lenVar [Hep [He [Hr [Hn [Hnok [Hp [Hl Ht]]]]]]]]]]].
    split; [exists e; split; assumption |].
    split; [exists nb; exact Hr | exists payload; exact Hp].
  - intros [[e [Hep He]] [[nb Hr] [payload Hp]]].
    destruct (randomBytes_ok P laws 4 nb Hr) as [Hn _].
    destruct (uvarintEncode_total (len payload) (len_nonneg _))
      as [lenVar Hl].
    eexists. apply (encodeBinary_eq P parse tps opts e nb payload lenVar);
      assumption.
  - intros token Henc.
    destruct (encodeBinary_inv P parse laws tps opts token Henc)
      as [e [nb [payload [lenVar [Hep [He [Hr [Hn [Hnok [Hp [Hl Ht]]]]]]]]]]].
    exists e, nb, lenVar, payload.
    split; [subst token; reflexivity |].
    split; [exact Hep |]. split; [exact Hr |]. split; [exact Hn |].
    split; [exact Hl |]. split; [exact Hp |]. split.
    + intros Hc. rewrite Hc in Hp. unfold payload_of in Hp.
      apply OK_inj in Hp. symmetry. exact Hp.
    + subst token. apply token_layout_length. exact Hn.
Qed.

(** X13. A sealed token is an unsealed token with the seal bit set and
    a seal behind it.  [seal] makes its own draw of four random bytes;
    whenever it succeeds, with the draw [nonceBuf], a call of
    [encodeBinary] on the same text and options whose draw is the same
    four bytes succeeds, and the sealed token is that token with bit 1
    of the flags byte (offset 5) set, then the seal type 0x01, then the
    signature [signEd25519] gives for exactly those first bytes; it is
    65 bytes longer, and its bytes 12 to 15 are the draw. *)
Theorem seal_extends_encodeBinary (tps : jsstring) (sk : PrivateKey P)
    (opts : option TPSUID7RBEncodeOptions) (sealed : bytes) :
  seal P parse tps sk opts = OK sealed ->
  exists nonceBuf token signature,
    randomBytes P 4 = OK nonceBuf
    /\ slice sealed 12 16 = nonceBuf
    /\ encodeBinary (SealFacts.with_nonce P nonceBuf) parse tps opts
       = OK token
    /\ signEd25519 P (store token 5 (bor (get token 5) 0x02)) sk
       = OK signature
    /\ sealed = store token 5 (bor (get token 5) 0x02) ++ [0x01] ++ signature
    /\ len signature = 64
    /\ len sealed = len token + 65.
Proof.
  intros Hseal.
  destruct (seal_inv P parse laws tps sk opts sealed Hseal)
    as [e [nb [payload [lenVar [sig
         [Hep [He [Hr [Hn [_ [Hp [Hl [Hs Ht]]]]]]]]]]]]].
  destruct (signEd25519_inv P _ _ _ Hs) as [Hreq Hsign].
  destruct (signature_length P laws _ _ _ Hsign) as [Hsig _].
  exists nb,
    (token_layout (if compress_of opts then 1 else 0) e nb lenVar payload),
    sig.
  assert (Hset :
    store (token_layout (if compress_of opts then 1 else 0) e nb lenVar payload)
      5 (bor (get (token_layout (if compress_of opts then 1 else 0) e nb
                     lenVar payload) 5) 0x02)
    = token_layout (if compress_of opts then 3 else 2) e nb lenVar payload).
  { destruct (compress_of opts); reflexivity. }
  rewrite Hset.
  split; [exact Hr |]. split.
  { subst sealed. clear - Hn.
    destruct nb as [| n0 [| n1 [| n2 [| n3 [| n4 nb]]]]];
      try (unfold len in Hn; simpl in Hn; lia).
    unfold token_layout. rewrite writeU48_bytes. reflexivity. }
  split.
  { apply (encodeBinary_eq (SealFacts.with_nonce P nb) parse tps opts e nb
             payload lenVar); try assumption.
    unfold randomBytes, SealFacts.with_nonce. cbn.
    destruct (has_require P); reflexivity. }
  split; [exact Hs |]. split; [exact Ht |]. split; [exact Hsig |].
  subst sealed. rewrite !len_app, !token_layout_length, Hsig by exact Hn.
  unfold len. simpl length. lia.
Qed.

(** X12. A token of [encodeBinary] never passes [verifyAndDecode],
    whatever the key: with the 17 bytes of an empty payload it is 'too
    short', and else 'not a sealed UID', before any signature is looked
    for. *)
Theorem unsealed_token_never_verifies (tps : jsstring)
    (opts : option TPSUID7RBEncodeOptions) (token : bytes)
    (pk : PublicKey P) :
  encodeBinary P parse tps opts = OK token ->
  17 <= len token
  /\ (len token = 17 -> verifyAndDecode P token pk = Err TooShort)
  /\ (17 < len token -> verifyAndDecode P token pk = Err NotSealed).
Proof.
  intros Henc.
  destruct (encodeBinary_inv P parse laws tps opts token Henc)
    as [e [nb [payload [lenVar [Hep [He [Hr [Hn [Hnok [Hp [Hl Ht]]]]]]]]]]].
  destruct (uvarint_roundtrip _ _ [] [] Hl) as [_ [_ Hlv]].
  pose proof (len_nonneg payload) as Hp0.
  assert (Hlen : len token = 16 + len lenVar + len payload)
    by (subst token; apply token_layout_length; exact Hn).
  split; [lia |]. split.
  - intros H17. unfold verifyAndDecode.
    destruct (Z.ltb_spec (len token) 18); [reflexivity | lia].
  - intros H18. unfold verifyAndDecode.
    destruct (Z.ltb_spec (len token) 18); [lia |].
    assert (G : get token 0 = 0x54 /\ get token 1 = 0x50
                /\ get token 2 = 0x55 /\ get token 3 = 0x37
                /\ get token 5 = (if compress_of opts then 1 else 0)).
    { subst token. repeat split; reflexivity. }
    destruct G as [G0 [G1 [G2 [G3 G5]]]].
    rewrite G0, G1, G2, G3, G5. cbv zeta.
    destruct (compress_of opts); reflexivity.
Qed.

End Encoders.

(** ** Numbers and their texts *)

Import JSText TimeText TimeFacts.

Lemma undigits_digits (u : Decimal.uint) : undigits (digits u) = u.
Proof. induction u; simpl; congruence. Qed.

Lemma digits_are_digits (u : Decimal.uint) :
  forallb is_digit (digits u) = true.
Proof. induction u; simpl; auto. Qed.

Lemma parseInt_digits (u : Decimal.uint) :
  parseInt (digits u) = Z.of_uint u.
Proof.
  destruct u; try reflexivity; unfold parseInt; cbn [digits];
    match goal with
    | |- context [?c =? code "-"] => change (c =? code "-") with false
    end; cbv iota;
    match goal with
    | |- Z.of_uint (undigits (?c :: digits ?u)) = Z.of_uint ?d =>
        change (c :: digits u) with (digits d)
    end; rewrite undigits_digits; reflexivity.
Qed.

Lemma toString_nonneg (n : Z) :
  0 <= n ->
  exists u, Z.to_int n = Decimal.Pos u /\ u <> Decimal.Nil
            /\ toString n = digits u.
Proof.
  intros Hn. unfold toString. destruct n as [| p | p]; [| | lia].
  - eexists. split; [reflexivity |]. split; [discriminate | reflexivity].
  - eexists. split; [reflexivity |].
    split; [apply DecimalPos.Unsigned.to_uint_nonnil | reflexivity].
Qed.

(** The text of a natural number is its digits, and reads back. *)
Lemma parseInt_toString (n : Z) :
  0 <= n ->
  parseInt (toString n) = n
  /\ forallb is_digit (toString n) = true /\ toString n <> [].
Proof.
  intros Hn. destruct (toString_nonneg n Hn) as [u [Hu [Hnil Ht]]].
  rewrite Ht. split; [| split].
  - rewrite parseInt_digits. rewrite <- (DecimalZ.of_to n), Hu. reflexivity.
  - apply digits_are_digits.
  - destruct u; try discriminate. contradiction.
Qed.

Lemma two_digits (v : Z) : 0 <= v < 100 -> two_digits_checked v = true.
Proof.
  apply (check_below 100 two_digits_checked). vm_compute. reflexivity.
Qed.

Lemma two_digits_facts (v : Z) :
  0 <= v < 100 ->
  forallb is_digit (toString v) = true /\ 1 <= len (toString v) <= 2
  /\ forallb is_digit (TPS.pad (toString v)) = true
  /\ len (TPS.pad (toString v)) = 2
  /\ parseInt (TPS.pad (toString v)) = v
  /\ padStart0 2 (toString v) = TPS.pad (toString v).
Proof.
  intros Hv. pose proof (two_digits v Hv) as H.
  unfold two_digits_checked in H.
  repeat rewrite ?andb_true_iff, ?Z.leb_le, ?Z.eqb_eq in H.
  destruct H as [[[[[[[H1 H2] H3] H4] H5] H6] H7] H8].
  repeat (split; try assumption).
  clear - H2 H3.
  unfold padStart0, TPS.pad. unfold len in *.
  destruct (toString v) as [| a [| b [| c r]]]; simpl length in *; try lia;
    reflexivity.
Qed.

(** ** Dates *)

Lemma doy_all (doy : Z) : 0 <= doy < 366 -> doy_checked doy = true.
Proof.
  apply (check_below 366 doy_checked). vm_compute. reflexivity.
Qed.

(** The year of the era and the day of that year, of a day of the era *)
Lemma yoe_range (doe : Z) :
  0 <= doe < 146097 ->
  let yoe := (doe - doe / 1460 + doe / 36524 - doe / 146096) / 365 in
  0 <= yoe <= 399 /\ 0 <= doe - (365 * yoe + yoe / 4 - yoe / 100) <= 365.
Proof.
  intros H. cbv zeta. Z.div_mod_to_equations. lia.
Qed.

(** [days_from_civil] undoes [civil_from_days], which gives a month from
    1 to 12 and a day from 1 to 31. *)
Lemma days_from_civil_from_days (D : Z) :
  exists y m d,
    civil_from_days D = (y, m, d)
    /\ 1 <= m <= 12 /\ 1 <= d <= 31
    /\ days_from_civil y m d = D
    /\ (0 <= D -> 1600 <= y).
Proof.
  unfold civil_from_days. cbv zeta.
  set (z := D + 719468). set (era := z / 146097).
  set (doe := z - era * 146097).
  assert (Hdoe : 0 <= doe < 146097).
  { unfold doe, era. pose proof (Z.mod_pos_bound z 146097 ltac:(lia)) as H.
    rewrite Z.mod_eq in H by lia. lia. }
  pose proof (yoe_range doe Hdoe) as Hy. cbv zeta in Hy.
  set (yoe := (doe - doe / 1460 + doe / 36524 - doe / 146096) / 365) in *.
  set (doy := doe - (365 * yoe + yoe / 4 - yoe / 100)) in *.
  destruct Hy as [Hyoe Hdoy].
  pose proof (doy_all doy ltac:(lia)) as Hc. unfold doy_checked in Hc.
  cbv zeta in Hc.
  set (mp := (5 * doy + 2) / 153) in *.
  set (dd := doy - (153 * mp + 2) / 5 + 1) in *.
  set (m := if mp <? 10 then mp + 3 else mp - 9) in *.
  repeat rewrite ?andb_true_iff, ?Z.leb_le, ?Z.eqb_eq in Hc.
  destruct Hc as [[[[Hm0 Hm1] Hd0] Hd1] Hback].
  eexists _, m, dd. split; [reflexivity |].
  split; [lia |]. split; [lia |]. split.
  - unfold days_from_civil. cbv zeta.
    replace ((if m <=? 2
              then (if m <=? 2 then yoe + era * 400 + 1 else yoe + era * 400) - 1
              else (if m <=? 2 then yoe + era * 400 + 1 else yoe + era * 400)))
      with (yoe + era * 400) by (destruct (m <=? 2); lia).
    assert (Hera : (yoe + era * 400) / 400 = era).
    { rewrite Z.div_add by lia. rewrite Z.div_small by lia. lia. }
    rewrite Hera.
    replace (yoe + era * 400 - era * 400) with yoe by lia.
    rewrite Hback. unfold doy, doe, z. lia.
  - intros HD.
    assert (4 <= era).
    { unfold era. apply Z.div_le_lower_bound; unfold z; lia. }
    destruct (m <=? 2); lia.
Qed.

(** The year written as millennium, century and year of the century,
    and put together again. *)
Lemma year_parts (Y : Z) :
  0 <= Y ->
  1 <= Y / 1000 + 1 /\ 1 <= Z.rem Y 1000 / 100 + 1 <= 10
  /\ 0 <= Z.rem Y 100 < 100
  /\ (Y / 1000 + 1 - 1) * 1000 + (Z.rem Y 1000 / 100 + 1 - 1) * 100
     + Z.rem Y 100 = Y.
Proof.
  intros HY. rewrite !Z.rem_mod_nonneg by lia.
  Z.div_mod_to_equations. lia.
Qed.

(** The time of day put together again: the instant less its
    milliseconds. *)
Lemma time_parts (t : Z) :
  t / msPerDay * msPerDay + (getUTCHours t * 3600000
    + getUTCMinutes t * 60000 + getUTCSeconds t * 1000)
  = t - t mod 1000.
Proof.
  unfold msPerDay, getUTCHours, getUTCMinutes, getUTCSeconds.
  Z.div_mod_to_equations. lia.
Qed.

(** ** The patterns of the time parser *)

Lemma take_digits_run (ds : jsstring) :
  forall max r,
    forallb is_digit ds = true -> fits max ds -> stops r ->
    take_digits max (ds ++ r) = ds.
Proof.
  induction ds as [| d ds IH]; intros max r Hd Hf Hs.
  - destruct r as [| c r]; [reflexivity |]. simpl in *. rewrite Hs.
    reflexivity.
  - simpl in Hd. apply andb_true_iff in Hd. destruct Hd as [Hd Hds].
    cbn [app take_digits]. rewrite Hd.
    destruct max as [[| n] |]; simpl in Hf; [lia | |].
    + rewrite IH; [reflexivity | exact Hds | simpl; lia | exact Hs].
    + rewrite IH; [reflexivity | exact Hds | exact I | exact Hs].
Qed.

Lemma regex_skip_char (k : Z) (sign : bool) (max : option nat)
    (c : Z) (r : jsstring) :
  c <> code "." ->
  regex_match k sign max (c :: r) = regex_match k sign max r.
Proof.
  intros Hc. cbn [regex_match]. unfold match_here.
  destruct r as [| k' r]; [reflexivity |].
  destruct (Z.eqb_spec c (code ".")); [contradiction |]. reflexivity.
Qed.

Lemma regex_skip_key (k : Z) (sign : bool) (max : option nat)
    (k' : Z) (r : jsstring) :
  k' <> k ->
  regex_match k sign max (code "." :: k' :: r)
  = regex_match k sign max (k' :: r).
Proof.
  intros Hk. cbn [regex_match]. unfold match_here at 1.
  destruct (Z.eqb_spec k' k); [contradiction |].
  rewrite andb_false_r. reflexivity.
Qed.

Lemma digit_not_dot (c : Z) : is_digit c = true -> c <> code ".".
Proof.
  unfold is_digit. intros H E. subst c. discriminate.
Qed.

Lemma regex_skip_digits (k : Z) (sign : bool) (max : option nat)
    (ds r : jsstring) :
  forallb is_digit ds = true ->
  regex_match k sign max (ds ++ r) = regex_match k sign max r.
Proof.
  induction ds as [| d ds IH]; intros Hd; [reflexivity |].
  simpl in Hd. apply andb_true_iff in Hd. destruct Hd as [Hd Hds].
  cbn [app]. rewrite regex_skip_char by (apply digit_not_dot; exact Hd).
  apply IH. exact Hds.
Qed.

Lemma regex_hit (k : Z) (sign : bool) (max : option nat) (ds r : jsstring) :
  ds <> [] -> forallb is_digit ds = true -> fits max ds -> stops r ->
  regex_match k sign max (code "." :: k :: ds ++ r) = Some ds.
Proof.
  intros Hne Hd Hf Hs.
  destruct ds as [| d ds]; [contradiction |].
  assert (Hd0 : is_digit d = true)
    by (simpl in Hd; apply andb_true_iff in Hd; apply Hd).
  assert (Hminus : (d =? code "-") = false).
  { apply Z.eqb_neq. intros E. subst d. discriminate. }
  pose proof (take_digits_run (d :: ds) max r Hd Hf Hs) as Ht.
  cbn [regex_match]. unfold match_here.
  rewrite !Z.eqb_refl. cbn [andb app].
  rewrite Hminus, andb_false_r.
  cbn [app] in Ht. rewrite Ht. reflexivity.
Qed.

(** The eight patterns on a text of the form [fromDate] writes: each
    finds the digits behind its own letter. *)
Lemma time_text_matches (ms cs ys Ms ds hs ns ss : jsstring) :
  let time :=
    lit "T:greg.m" ++ ms ++ lit ".c" ++ cs ++ lit ".y" ++ ys
      ++ lit ".M" ++ Ms ++ lit ".d" ++ ds ++ lit ".h" ++ hs
      ++ lit ".n" ++ ns ++ lit ".s" ++ ss in
  (ms <> [] /\ forallb is_digit ms = true) ->
  (cs <> [] /\ forallb is_digit cs = true) ->
  (ys <> [] /\ forallb is_digit ys = true /\ len ys <= 4) ->
  (Ms <> [] /\ forallb is_digit Ms = true /\ len Ms <= 2) ->
  (ds <> [] /\ forallb is_digit ds = true /\ len ds <= 2) ->
  (hs <> [] /\ forallb is_digit hs = true /\ len hs <= 2) ->
  (ns <> [] /\ forallb is_digit ns = true /\ len ns <= 2) ->
  (ss <> [] /\ forallb is_digit ss = true /\ len ss <= 2) ->
  regex_match (code "m") true None time = Some ms
  /\ regex_match (code "c") false None time = Some cs
  /\ regex_match (code "y") false (Some 4%nat) time = Some ys
  /\ regex_match (code "M") false (Some 2%nat) time = Some Ms
  /\ regex_match (code "d") false (Some 2%nat) time = Some ds
  /\ regex_match (code "h") false (Some 2%nat) time = Some hs
  /\ regex_match (code "n") false (Some 2%nat) time = Some ns
  /\ regex_match (code "s") false (Some 2%nat) time = Some ss.
Proof.
  intros time [Hm0 Hm] [Hc0 Hc] [Hy0 [Hy Hyl]] [HM0 [HM HMl]]
    [Hd0 [Hd Hdl]] [Hh0 [Hh Hhl]] [Hn0 [Hn Hnl]] [Hs0 [Hs Hsl]].
  unfold len in *.
  assert (Htime : time =
    84 :: 58 :: 103 :: 114 :: 101 :: 103
      :: code "." :: code "m" :: ms
      ++ code "." :: code "c" :: cs
      ++ code "." :: code "y" :: ys
      ++ code "." :: code "M" :: Ms
      ++ code "." :: code "d" :: ds
      ++ code "." :: code "h" :: hs
      ++ code "." :: code "n" :: ns
      ++ code "." :: code "s" :: ss ++ []).
  { unfold time. rewrite app_nil_r. reflexivity. }
  rewrite Htime. clear Htime time.
  repeat split;
    repeat first
      [ rewrite regex_hit;
        [ reflexivity | assumption | assumption
        | first [exact I | simpl; lia] | first [exact I | reflexivity] ]
      | rewrite regex_skip_key by discriminate
      | rewrite regex_skip_digits by assumption
      | rewrite regex_skip_char by discriminate ].
Qed.

(** ** Reading back a time text *)

Lemma includes_app (a b : jsstring) (c : Z) :
  includes (a ++ b) c = includes a c || includes b c.
Proof. unfold includes. apply existsb_app. Qed.

Lemma includes_digits (ds : jsstring) :
  forallb is_digit ds = true -> includes ds (code "@") = false.
Proof.
  unfold includes.
  induction ds as [| d ds IH]; [reflexivity |]. cbn [existsb forallb].
  intros H. apply andb_true_iff in H. destruct H as [Hd Hds].
  rewrite (IH Hds), orb_false_r.
  apply Z.eqb_neq. intros E. rewrite <- E in Hd. discriminate.
Qed.

Lemma digits_no_whitespace (ds : jsstring) :
  forallb is_digit ds = true -> no_whitespace ds.
Proof.
  unfold no_whitespace. induction ds as [| d ds IH]; [reflexivity |].
  simpl. intros H. apply andb_true_iff in H. destruct H as [Hd Hds].
  rewrite (IH Hds), andb_true_r.
  unfold is_digit in Hd. apply andb_true_iff in Hd.
  rewrite !Z.leb_le in Hd.
  apply negb_true_iff. apply not_true_is_false. unfold is_whitespace.
  intros Hw.
  repeat rewrite ?orb_true_iff, ?andb_true_iff, ?Z.leb_le, ?Z.eqb_eq in Hw.
  lia.
Qed.

Lemma no_whitespace_app (a b : jsstring) :
  no_whitespace a -> no_whitespace b -> no_whitespace (a ++ b).
Proof.
  unfold no_whitespace. intros Ha Hb. rewrite forallb_app, Ha, Hb.
  reflexivity.
Qed.

Lemma indexOf_at (pre r : jsstring) (c : Z) :
  includes pre c = false ->
  indexOf (pre ++ c :: r) c = len pre /\ includes (pre ++ c :: r) c = true.
Proof.
  intros Hpre. split.
  - induction pre as [| x pre IH].
    + simpl. rewrite Z.eqb_refl. reflexivity.
    + simpl in Hpre. apply orb_false_iff in Hpre. destruct Hpre as [Hx Hp].
      cbn [app indexOf]. rewrite Z.eqb_sym, Hx.
      rewrite (IH Hp). rewrite len_cons.
      pose proof (len_nonneg pre).
      destruct (Z.ltb_spec (len pre) 0); lia.
  - rewrite includes_app. simpl. rewrite Z.eqb_refl, orb_true_r. reflexivity.
Qed.

(** The text [T:greg.m..c..y..M..d..h..n..s..] of eight numbers that are
    not negative, the last five below 100 and padded to two digits and
    the year below 10000, is read as [Date.UTC] of the year
    [(m - 1) * 1000 + (c - 1) * 100 + y] and of the rest, the month
    less one. *)
Lemma epochMs_of_time_text (m c y M d h n s : Z) :
  0 <= m -> 0 <= c -> 0 <= y < 100 ->
  0 <= M < 100 -> 0 <= d < 100 -> 0 <= h < 100 -> 0 <= n < 100 ->
  0 <= s < 100 ->
  let time :=
    lit "T:greg.m" ++ toString m ++ lit ".c" ++ toString c
      ++ lit ".y" ++ toString y ++ lit ".M" ++ TPS.pad (toString M)
      ++ lit ".d" ++ TPS.pad (toString d) ++ lit ".h" ++ TPS.pad (toString h)
      ++ lit ".n" ++ TPS.pad (toString n)
      ++ lit ".s" ++ TPS.pad (toString s) in
  at_free time /\ no_whitespace time
  /\ startsWith time (lit "T:") = true
  /\ epochMsFromTPSString time
     = match Date_UTC ((m - 1) * 1000 + (c - 1) * 100 + y) (M - 1) d h n s
       with
       | Some epoch => OK (Int epoch)
       | None => Err TPSEpochFailed
       end.
Proof.
  intros Hm Hc Hy HM Hd Hh Hn Hs time.
  destruct (parseInt_toString m Hm) as [Pm [Dm Nm]].
  destruct (parseInt_toString c Hc) as [Pc [Dc Nc]].
  destruct (parseInt_toString y ltac:(lia)) as [Py [Dy Ny]].
  destruct (two_digits_facts y Hy) as [_ [Ly _]].
  destruct (two_digits_facts M HM) as [_ [_ [DM [LM [PM _]]]]].
  destruct (two_digits_facts d Hd) as [_ [_ [Dd [Ld [Pd _]]]]].
  destruct (two_digits_facts h Hh) as [_ [_ [Dh [Lh [Ph _]]]]].
  destruct (two_digits_facts n Hn) as [_ [_ [Dn [Ln [Pn _]]]]].
  destruct (two_digits_facts s Hs) as [_ [_ [Ds [Ls [Ps _]]]]].
  assert (Hne : forall x : jsstring, len x = 2 -> x <> [])
    by (intros x Hx E; subst x; discriminate).
  destruct (time_text_matches (toString m) (toString c) (toString y)
              (TPS.pad (toString M)) (TPS.pad (toString d))
              (TPS.pad (toString h)) (TPS.pad (toString n))
              (TPS.pad (toString s)))
    as [Rm [Rc [Ry [RM [Rd [Rh [Rn Rs]]]]]]];
    try (split; [first [assumption | apply Hne; assumption]
                | first [assumption | split; [assumption | lia]]]).
  fold time in Rm, Rc, Ry, RM, Rd, Rh, Rn, Rs.
  assert (Hat : at_free time).
  { unfold at_free, time. rewrite !includes_app.
    rewrite (includes_digits _ Dm), (includes_digits _ Dc),
      (includes_digits _ Dy), (includes_digits _ DM), (includes_digits _ Dd),
      (includes_digits _ Dh), (includes_digits _ Dn), (includes_digits _ Ds).
    reflexivity. }
  assert (Hws : no_whitespace time).
  { unfold time.
    repeat (apply no_whitespace_app;
            [first [reflexivity | apply digits_no_whitespace; assumption] |]).
    apply digits_no_whitespace. assumption. }
  assert (Hstart : startsWith time (lit "T:greg.") = true) by reflexivity.
  split; [exact Hat |]. split; [exact Hws |]. split; [reflexivity |].
  unfold epochMsFromTPSString. unfold at_free in Hat. rewrite Hat.
  change (startsWith time (lit "T:")) with true. cbn [bind].
  rewrite Hstart. cbn [negb]. cbv zeta.
  rewrite Rm, Rc, Ry, RM, Rd, Rh, Rn, Rs. cbn [bind].
  rewrite Pm, Pc, Py, PM, Pd, Ph, Pn, Ps. reflexivity.
Qed.

(** [Date.UTC] of what the getters of a date give is the date less its
    milliseconds, from 1970 to the end of the range of a [Date]. *)
Lemma Date_UTC_getters (t : Z) :
  0 <= t <= maxTime ->
  Date_UTC (getUTCFullYear t) (getUTCMonth t + 1 - 1) (getUTCDate t)
    (getUTCHours t) (getUTCMinutes t) (getUTCSeconds t)
  = Some (t - t mod 1000)
  /\ 1600 <= getUTCFullYear t
  /\ 1 <= getUTCMonth t + 1 <= 12 /\ 1 <= getUTCDate t <= 31
  /\ 0 <= getUTCHours t < 24 /\ 0 <= getUTCMinutes t < 60
  /\ 0 <= getUTCSeconds t < 60.
Proof.
  intros Ht. unfold maxTime in Ht.
  destruct (days_from_civil_from_days (Day t))
    as [y [m [d [Hciv [Hm [Hd [Hback Hyear]]]]]]].
  assert (HD : 0 <= Day t) by (unfold Day, msPerDay; apply Z.div_pos; lia).
  specialize (Hyear HD).
  unfold getUTCFullYear, getUTCMonth, getUTCDate. rewrite Hciv.
  cbn [fst snd].
  assert (Hh : 0 <= getUTCHours t < 24)
    by (unfold getUTCHours; apply Z.mod_pos_bound; lia).
  assert (Hn : 0 <= getUTCMinutes t < 60)
    by (unfold getUTCMinutes; apply Z.mod_pos_bound; lia).
  assert (Hs : 0 <= getUTCSeconds t < 60)
    by (unfold getUTCSeconds; apply Z.mod_pos_bound; lia).
  split; [| repeat split; lia].
  unfold Date_UTC. cbv zeta.
  destruct (Z.leb_spec y 99); [lia |]. rewrite andb_false_r.
  replace (m - 1 + 1 - 1) with (m - 1) by lia.
  rewrite (Z.div_small (m - 1) 12) by lia.
  rewrite (Z.mod_small (m - 1) 12) by lia.
  replace (y + 0) with y by lia. replace (m - 1 + 1) with m by lia.
  assert (Hday : days_from_civil y m 1 + d - 1 = Day t).
  { rewrite <- Hback. unfold days_from_civil. cbv zeta. lia. }
  rewrite Hday. unfold Day. rewrite time_parts.
  pose proof (Z.mod_pos_bound t 1000 ltac:(lia)) as Hms.
  destruct (Z.leb_spec (Z.abs (t - t mod 1000)) 8640000000000000);
    [reflexivity | lia].
Qed.

(** ** The time parser on the texts the code writes *)

Lemma pad_padStart0 (s : jsstring) : s <> [] -> padStart0 2 s = TPS.pad s.
Proof.
  intros Hs. unfold padStart0, TPS.pad, len.
  destruct s as [| a [| b r]]; [contradiction | reflexivity |].
  simpl length. destruct (Z.ltb_spec (Z.of_nat (S (S (length r)))) 2);
    [lia | reflexivity].
Qed.

Lemma at_free_app (a b : jsstring) :
  at_free a -> at_free b -> at_free (a ++ b).
Proof.
  unfold at_free. intros Ha Hb. rewrite includes_app, Ha, Hb. reflexivity.
Qed.

Lemma includes_rev (s : jsstring) (c : Z) : includes (rev s) c = includes s c.
Proof.
  unfold includes. induction s as [| x s IH]; [reflexivity |].
  cbn [rev existsb]. rewrite existsb_app, IH. cbn [existsb].
  rewrite orb_false_r. apply orb_comm.
Qed.

Lemma at_free_trimStart (s : jsstring) : at_free s -> at_free (trimStart s).
Proof.
  unfold at_free, includes. induction s as [| x s IH]; [reflexivity |].
  cbn [trimStart existsb]. intros H. apply orb_false_iff in H.
  destruct H as [Hx Hs]. destruct (is_whitespace x); [apply IH; exact Hs |].
  cbn [existsb]. rewrite Hx, Hs. reflexivity.
Qed.

Lemma at_free_trim (s : jsstring) : at_free s -> at_free (trim s).
Proof.
  unfold trim, trimEnd. intros H. unfold at_free. rewrite includes_rev.
  apply at_free_trimStart. unfold at_free. rewrite includes_rev.
  apply at_free_trimStart. exact H.
Qed.

(** In the URI form the text before the '@' is not looked at. *)
Lemma epochMs_behind_at (pre s : jsstring) :
  at_free pre -> at_free s -> startsWith (trim s) (lit "T:") = true ->
  epochMsFromTPSString (pre ++ lit "@" ++ s)
  = epochMsFromTPSString (trim s).
Proof.
  intros Hpre Hs Hstart.
  destruct (indexOf_at pre s (code "@") Hpre) as [Hidx Hinc].
  unfold epochMsFromTPSString at 1.
  change (pre ++ lit "@" ++ s) with (pre ++ code "@" :: s).
  rewrite Hinc, Hidx. cbv zeta.
  replace (slice_from (pre ++ code "@" :: s) (len pre + 1)) with s.
  2: { change (pre ++ code "@" :: s) with (pre ++ [code "@"] ++ s).
       rewrite app_assoc.
       replace (len pre + 1) with (len (pre ++ [code "@"]))
         by (rewrite len_app; reflexivity).
       symmetry. apply slice_from_app. }
  unfold epochMsFromTPSString.
  pose proof (at_free_trim s Hs) as Ht. unfold at_free in Ht.
  rewrite Ht, Hstart. reflexivity.
Qed.

Section TimeRoundTrip.

Variable P : Platform.
Variable seconds_toFixed3 : Z -> jsstring.

(** The text [fromDate] writes for the Gregorian calendar, and how it
    is read. *)
Lemma fromDate_greg_text (t : Z) :
  0 <= t <= maxTime ->
  exists s,
    TPS.fromDate seconds_toFixed3 TPS.no_drivers t TPS.greg = TPS.Text s
    /\ at_free s /\ no_whitespace s /\ startsWith s (lit "T:") = true
    /\ epochMsFromTPSString s = OK (Int (t - t mod 1000)).
Proof.
  intros Ht.
  destruct (Date_UTC_getters t Ht) as [Hutc [HY [HM [Hd [Hh [Hn Hs]]]]]].
  destruct (year_parts (getUTCFullYear t) ltac:(lia)) as [Pm [Pc [Py Psum]]].
  eexists. split; [reflexivity |].
  pose proof (epochMs_of_time_text
                (getUTCFullYear t / 1000 + 1)
                (Z.rem (getUTCFullYear t) 1000 / 100 + 1)
                (Z.rem (getUTCFullYear t) 100)
                (getUTCMonth t + 1) (getUTCDate t) (getUTCHours t)
                (getUTCMinutes t) (getUTCSeconds t)
                ltac:(lia) ltac:(lia) ltac:(lia) ltac:(lia) ltac:(lia)
                ltac:(lia) ltac:(lia) ltac:(lia)) as H.
  cbv zeta in H. destruct H as [Hat [Hws [Hst Hep]]].
  split; [exact Hat |]. split; [exact Hws |]. split; [exact Hst |].
  rewrite Hep, Psum, Hutc. reflexivity.
Qed.

(** X15. The time parser reads back what [TPS.fromDate] writes: for
    every instant from 1970 to the end of the range of a [Date], with
    no driver registered, [epochMsFromTPSString] of the Gregorian text
    of the instant is the instant less its milliseconds. *)
Theorem fromDate_read_back (t : Z) (s : jsstring) :
  0 <= t <= maxTime ->
  TPS.fromDate seconds_toFixed3 TPS.no_drivers t TPS.greg = TPS.Text s ->
  epochMsFromTPSString s = OK (Int (t - t mod 1000)).
Proof.
  intros Ht Hs.
  destruct (fromDate_greg_text t Ht) as [s' [Hs' [_ [_ [_ Hep]]]]].
  assert (s' = s) by congruence. subst s'. exact Hep.
Qed.

(** The text of [generateTPSString]: the scheme, a space part without
    '@' when the numbers are written without one, '@', and the text of
    [fromDate]. *)
Lemma generateTPSString_shape (t : Z) (opts : option (GenerateOptions P))
    (s : jsstring) :
  0 <= t <= maxTime ->
  TPS.fromDate seconds_toFixed3 TPS.no_drivers t TPS.greg = TPS.Text s ->
  exists space,
    generateTPSString P t opts = lit "tps://" ++ space ++ lit "@" ++ s
    /\ ((forall x, at_free (Float_toString P x)) -> at_free space).
Proof.
  intros Ht Hs.
  destruct (Date_UTC_getters t Ht) as [_ [HY [HM [Hd [Hh [Hn Hsec]]]]]].
  unfold TPS.fromDate in Hs. cbn [TPS.no_drivers] in Hs. cbv zeta in Hs.
  injection Hs as Hs. subst s.
  unfold generateTPSString. cbv zeta.
  rewrite (pad_padStart0 (toString (getUTCMonth t + 1))),
    (pad_padStart0 (toString (getUTCDate t))),
    (pad_padStart0 (toString (getUTCHours t))),
    (pad_padStart0 (toString (getUTCMinutes t))),
    (pad_padStart0 (toString (getUTCSeconds t)))
    by (apply parseInt_toString; lia).
  match goal with
  | |- exists space, _ ++ ?sp ++ _ = _ /\ _ => exists sp
  end.
  split; [reflexivity |].
  intros Hfloat.
  destruct opts as [o |]; [| reflexivity].
  destruct (latitude P o) as [lat |]; [| reflexivity].
  destruct (longitude P o) as [lon |]; [| reflexivity].
  destruct (altitude P o) as [alt |];
    repeat first [reflexivity | apply Hfloat | apply at_free_app].
Qed.

(** X16. [generateTPSString] writes its time part as [TPS.fromDate]
    does: for an instant from 1970 on, the text is 'tps://', the
    coordinates or 'unknown', an '@', and exactly the Gregorian text of
    [TPS.fromDate] with no driver registered. *)
Theorem generateTPSString_time_part (t : Z)
    (opts : option (GenerateOptions P)) (s : jsstring) :
  0 <= t <= maxTime ->
  TPS.fromDate seconds_toFixed3 TPS.no_drivers t TPS.greg = TPS.Text s ->
  exists space,
    generateTPSString P t opts = lit "tps://" ++ space ++ lit "@" ++ s
    /\ (opts = None -> space = lit "unknown").
Proof.
  intros Ht Hs.
  destruct (Date_UTC_getters t Ht) as [_ [HY [HM [Hd [Hh [Hn Hsec]]]]]].
  unfold TPS.fromDate in Hs. cbn [TPS.no_drivers] in Hs. cbv zeta in Hs.
  injection Hs as Hs. subst s.
  unfold generateTPSString. cbv zeta.
  rewrite (pad_padStart0 (toString (getUTCMonth t + 1))),
    (pad_padStart0 (toString (getUTCDate t))),
    (pad_padStart0 (toString (getUTCHours t))),
    (pad_padStart0 (toString (getUTCMinutes t))),
    (pad_padStart0 (toString (getUTCSeconds t)))
    by (apply parseInt_toString; lia).
  match goal with
  | |- exists space, _ ++ ?sp ++ _ = _ /\ _ => exists sp
  end.
  split; [reflexivity |].
  intros ->. reflexivity.
Qed.

End TimeRoundTrip.

(** The epoch of a generated text. *)
Lemma epochMs_generated (P : Platform) (t : Z)
    (opts : option (GenerateOptions P)) :
  (forall x, at_free (Float_toString P x)) ->
  0 <= t <= maxTime ->
  epochMsFromTPSString (generateTPSString P t opts)
  = OK (Int (t - t mod 1000)).
Proof.
  intros Hfloat Ht.
  destruct (fromDate_greg_text (fun _ => []) t Ht)
    as [s [Hs [Hat [Hws [Hst Hep]]]]].
  destruct (generateTPSString_shape P (fun _ => []) t opts s Ht Hs)
    as [space [Hg Hsp]].
  rewrite Hg.
  change (lit "tps://" ++ space ++ lit "@" ++ s)
    with ((lit "tps://" ++ space) ++ lit "@" ++ s).
  pose proof (trim_no_whitespace s Hws) as Htrim.
  rewrite epochMs_behind_at;
    [rewrite Htrim; exact Hep
    | apply at_free_app; [reflexivity | apply Hsp; exact Hfloat]
    | exact Hat
    | rewrite Htrim; exact Hst].
Qed.

(** X17. The time parser reads back what [generateTPSString] writes:
    for every instant from 1970 to the end of the range of a [Date] and
    every choice of coordinates, whose texts have no '@' in them,
    [epochMsFromTPSString] of the generated text is the instant less its
    milliseconds. *)
Theorem generateTPSString_read_back (P : Platform) (t : Z)
    (opts : option (GenerateOptions P)) :
  (forall x, at_free (Float_toString P x)) ->
  0 <= t <= maxTime ->
  epochMsFromTPSString (generateTPSString P t opts)
  = OK (Int (t - t mod 1000))
  /\ generateTPSString P (t - t mod 1000) opts = generateTPSString P t opts.
Proof.
  intros Hfloat Ht. split; [apply epochMs_generated; assumption |].
  symmetry. apply generateTPSString_whole_seconds.
Qed.


(** ** The codec and the two URI forms *)

Section DefaultEpoch.

Variable P : Platform.
Hypothesis laws : PlatformLaws P.

(** X18. With no [epochMs] option the codec takes the epoch from the
    text: a token that [encodeBinary] builds from the text of
    [generateTPSString] for an instant [t] decodes to that text and to
    the epoch [t] less its milliseconds (the text carries whole seconds
    only), where [generate], which passes the instant itself, keeps
    them. *)
Theorem default_epoch_whole_seconds (t : Z)
    (gen : option (GenerateOptions P))
    (opts : option TPSUID7RBEncodeOptions) (token : bytes) :
  (forall x, at_free (Float_toString P x)) ->
  0 <= t <= maxTime ->
  match opts with Some o => opt_epochMs o | None => None end = None ->
  encodeBinary P epochMsFromTPSString (generateTPSString P t gen) opts
    = OK token ->
  len token < 2 ^ 32 ->
  exists r,
    decodeBinary P token = OK r
    /\ epochMs r = t - t mod 1000
    /\ TPSUID7RB.tps r = generateTPSString P t gen.
Proof.
  intros Hfloat Ht Hopt Henc Hsmall.
  assert (Hwf : well_formed (generateTPSString P t gen))
    by (apply well_formed_generateTPSString; exact laws).
  destruct (encode_decode P epochMsFromTPSString laws _ opts token
              Hwf Henc Hsmall) as [r [Hdec [Htps [_ Hep]]]].
  unfold epoch_of in Hep. rewrite Hopt in Hep.
  rewrite (epochMs_generated P t gen Hfloat Ht) in Hep.
  apply OK_inj in Hep.
  assert (He : epochMs r = t - t mod 1000) by congruence.
  exists r. split; [exact Hdec |]. split; [exact He |].
  rewrite Htps. apply strip_bom_generateTPSString.
Qed.

End DefaultEpoch.

(** X19. In the URI form [epochMsFromTPSString] looks at nothing before
    the first '@': two texts that differ only there, in parts without
    an '@', have the same outcome, value or error; the scheme 'tps://'
    and the space part are not checked. *)
Theorem epochMs_ignores_space_part (pre pre' s : jsstring) :
  at_free pre -> at_free pre' ->
  epochMsFromTPSString (pre ++ lit "@" ++ s)
  = epochMsFromTPSString (pre' ++ lit "@" ++ s).
Proof.
  assert (H : forall p, at_free p ->
    epochMsFromTPSString (p ++ lit "@" ++ s)
    = epochMsFromTPSString (lit "@" ++ s)).
  { intros p Hp.
    destruct (indexOf_at p s (code "@") Hp) as [Hidx Hinc].
    unfold epochMsFromTPSString.
    change (p ++ lit "@" ++ s) with (p ++ code "@" :: s).
    rewrite Hinc, Hidx. cbv zeta.
    replace (slice_from (p ++ code "@" :: s) (len p + 1)) with s.
    2: { change (p ++ code "@" :: s) with (p ++ [code "@"] ++ s).
         rewrite app_assoc.
         replace (len p + 1) with (len (p ++ [code "@"]))
           by (rewrite len_app; reflexivity).
         symmetry. apply slice_from_app. }
    reflexivity. }
  intros Hpre Hpre'. rewrite (H pre Hpre), (H pre' Hpre'). reflexivity.
Qed.

(** *** [TPS.toURI] *)

Lemma at_free_given (f : option jsstring) (s : jsstring) :
  at_free_field f -> TPS.given f = Some s -> at_free s.
Proof.
  destruct f as [[| c r] |]; simpl; intros H E; try discriminate.
  injection E as <-. exact H.
Qed.

Lemma at_free_pad (s : jsstring) : at_free s -> at_free (TPS.pad s).
Proof.
  intros H. unfold TPS.pad. destruct (len s <? 2); [| exact H].
  apply at_free_app; [reflexivity | exact H].
Qed.

Lemma at_free_join (parts : list jsstring) :
  Forall at_free parts -> at_free (join (lit ".") parts).
Proof.
  induction 1 as [| p parts Hp Hparts IH]; [reflexivity |].
  destruct parts as [| q parts]; [exact Hp |].
  change (join (lit ".") (p :: q :: parts))
    with (p ++ lit "." ++ join (lit ".") (q :: parts)).
  apply at_free_app; [exact Hp |].
  apply at_free_app; [reflexivity | exact IH].
Qed.

Section ToURI.

Variable P : Platform.

Lemma at_free_toURI (comp : TPS.TPSComponents P) :
  (forall x, at_free (Float_toString P x)) ->
  at_free_components P comp -> at_free (TPS.toURI P comp).
Proof.
  intros Hfloat [Hs2 [Hh3 [Hplus [Hw3w [Hbldg [Hfloor [Hroom [Hzone
    [Hactor [Hsig Hext]]]]]]]]]].
  unfold TPS.toURI. cbv zeta.
  assert (Hpart : forall k n,
            at_free (lit k) -> at_free (TPS.part P k n)).
  { intros k n Hk. unfold TPS.part. destruct n; [| reflexivity].
    apply at_free_app; [exact Hk | apply Hfloat]. }
  assert (Hpadded : forall k n,
            at_free (lit k) -> at_free (TPS.padded_part P k n)).
  { intros k n Hk. unfold TPS.padded_part. destruct n; [| reflexivity].
    apply at_free_app; [exact Hk | apply at_free_pad; apply Hfloat]. }
  assert (Hcal : at_free (TPS.CalendarCode_text (TPS.calendar P comp)))
    by (destruct (TPS.calendar P comp); reflexivity).
  apply at_free_app; [reflexivity |].
  apply at_free_app.
  { destruct (TPS.holds (TPS.isHiddenLocation P comp)); [reflexivity |].
    destruct (TPS.holds (TPS.isRedactedLocation P comp)); [reflexivity |].
    destruct (TPS.holds (TPS.isUnknownLocation P comp)); [reflexivity |].
    destruct (TPS.given (TPS.s2Cell P comp)) eqn:E1;
      [apply at_free_app;
         [reflexivity | apply (at_free_given _ _ Hs2 E1)] |].
    destruct (TPS.given (TPS.h3Cell P comp)) eqn:E2;
      [apply at_free_app;
         [reflexivity | apply (at_free_given _ _ Hh3 E2)] |].
    destruct (TPS.given (TPS.plusCode P comp)) eqn:E3;
      [apply at_free_app;
         [reflexivity | apply (at_free_given _ _ Hplus E3)] |].
    destruct (TPS.given (TPS.what3words P comp)) eqn:E4;
      [apply at_free_app;
         [reflexivity | apply (at_free_given _ _ Hw3w E4)] |].
    destruct (TPS.given (TPS.building P comp)) eqn:E5.
    - pose proof (at_free_given _ _ Hbldg E5) as Hb.
      destruct (TPS.given (TPS.floor P comp)) eqn:E6;
        destruct (TPS.given (TPS.room P comp)) eqn:E7;
        destruct (TPS.given (TPS.zone P comp)) eqn:E8;
        try pose proof (at_free_given _ _ Hfloor E6);
        try pose proof (at_free_given _ _ Hroom E7);
        try pose proof (at_free_given _ _ Hzone E8);
        repeat first [reflexivity | assumption | apply at_free_app].
    - destruct (TPS.latitude P comp); [| reflexivity].
      destruct (TPS.longitude P comp); [| reflexivity].
      destruct (TPS.altitude P comp);
        repeat first [reflexivity | apply Hfloat | apply at_free_app]. }
  apply at_free_app.
  { destruct (TPS.given (TPS.actor P comp)) eqn:E; [| reflexivity].
    apply at_free_app; [reflexivity | apply (at_free_given _ _ Hactor E)]. }
  apply at_free_app; [reflexivity |].
  apply at_free_app.
  { assert (Htime :
      at_free
        (match TPS.calendar P comp, TPS.unixSeconds P comp with
         | TPS.unix, Some u =>
             (lit "T:" ++ TPS.CalendarCode_text (TPS.calendar P comp))
               ++ lit ".s" ++ Float_toString P u
         | _, _ =>
             (lit "T:" ++ TPS.CalendarCode_text (TPS.calendar P comp))
               ++ TPS.part P ".m" (TPS.millennium P comp)
               ++ TPS.part P ".c" (TPS.century P comp)
               ++ TPS.part P ".y" (TPS.year P comp)
               ++ TPS.padded_part P ".M" (TPS.month P comp)
               ++ TPS.padded_part P ".d" (TPS.day P comp)
               ++ TPS.padded_part P ".h" (TPS.hour P comp)
               ++ TPS.padded_part P ".n" (TPS.minute P comp)
               ++ TPS.padded_part P ".s" (TPS.second P comp)
         end)).
    { assert (Hhead :
        at_free (lit "T:" ++ TPS.CalendarCode_text (TPS.calendar P comp)))
        by (apply at_free_app; [reflexivity | exact Hcal]).
      destruct (TPS.calendar P comp), (TPS.unixSeconds P comp);
        repeat first
          [ assumption | reflexivity | apply Hfloat
          | apply Hpart; reflexivity | apply Hpadded; reflexivity
          | apply at_free_app ]. }
    destruct (TPS.given (TPS.signature P comp)) eqn:E; [| exact Htime].
    apply at_free_app; [exact Htime |].
    apply at_free_app; [reflexivity | apply (at_free_given _ _ Hsig E)]. }
  destruct (TPS.extensions P comp) as [[| entry entries] |];
    try reflexivity.
  apply at_free_app; [reflexivity |].
  apply at_free_join. apply Forall_map.
  eapply Forall_impl; [| exact Hext].
  intros [k v] [Hk Hv].
  apply at_free_app; [exact Hk |].
  apply at_free_app; [reflexivity | exact Hv].
Qed.

(** X20. The time parser does not read the URIs [TPS.toURI] writes,
    which have a '/' where it looks for an '@': for components none of
    whose texts contains an '@', [epochMsFromTPSString] of the URI
    raises 'TPS: unrecognized format', and so do [encodeBinary] and
    [seal] on it when no [epochMs] is given, before anything else is
    done. *)
Theorem toURI_not_read (comp : TPS.TPSComponents P)
    (opts : option TPSUID7RBEncodeOptions) (sk : PrivateKey P) :
  (forall x, at_free (Float_toString P x)) ->
  at_free_components P comp ->
  match opts with Some o => opt_epochMs o | None => None end = None ->
  epochMsFromTPSString (TPS.toURI P comp) = Err TPSUnrecognizedFormat
  /\ encodeBinary P epochMsFromTPSString (TPS.toURI P comp) opts
     = Err TPSUnrecognizedFormat
  /\ seal P epochMsFromTPSString (TPS.toURI P comp) sk opts
     = Err TPSUnrecognizedFormat.
Proof.
  intros Hfloat Hcomp Hopt.
  assert (Hep : epochMsFromTPSString (TPS.toURI P comp)
                = Err TPSUnrecognizedFormat).
  { pose proof (at_free_toURI comp Hfloat Hcomp) as Hat.
    unfold at_free in Hat. unfold epochMsFromTPSString. rewrite Hat.
    assert (Hst : startsWith (TPS.toURI P comp) (lit "T:") = false)
      by reflexivity.
    rewrite Hst. reflexivity. }
  split; [exact Hep |]. split.
  - unfold encodeBinary. cbv zeta. rewrite Hopt, Hep. reflexivity.
  - unfold seal. cbv zeta. rewrite Hopt, Hep. reflexivity.
Qed.

End ToURI.

(** ** Other forms of the time text *)

(** X22. The text [T:greg.m..c..y..M..d..h..n..s..] of eight numbers
    that are not negative, the year of the century below 100 and the
    last five below 100 and padded to two digits, is read as
    [Date.UTC] of the year [(m - 1) * 1000 + (c - 1) * 100 + y], the
    month less one and the rest: what [TPS.toURI] and [TPS.fromDate]
    write as time is read component by component; a year from 0 to 99
    so put together is taken by [Date.UTC] for a year of the twentieth
    century. *)
Theorem time_text_read_back (m c y M d h n s : Z) :
  0 <= m -> 0 <= c -> 0 <= y < 100 ->
  0 <= M < 100 -> 0 <= d < 100 -> 0 <= h < 100 -> 0 <= n < 100 ->
  0 <= s < 100 ->
  epochMsFromTPSString
    (lit "T:greg.m" ++ toString m ++ lit ".c" ++ toString c
       ++ lit ".y" ++ toString y ++ lit ".M" ++ TPS.pad (toString M)
       ++ lit ".d" ++ TPS.pad (toString d) ++ lit ".h" ++ TPS.pad (toString h)
       ++ lit ".n" ++ TPS.pad (toString n)
       ++ lit ".s" ++ TPS.pad (toString s))
  = match Date_UTC ((m - 1) * 1000 + (c - 1) * 100 + y) (M - 1) d h n s with
    | Some epoch => OK (Int epoch)
    | None => Err TPSEpochFailed
    end
  /\ (m = 1 -> c = 1 ->
      Date_UTC ((m - 1) * 1000 + (c - 1) * 100 + y) (M - 1) d h n s
      = Date_UTC (1900 + y) (M - 1) d h n s).
Proof.
  intros Hm Hc Hy HM Hd Hh Hn Hs.
  split.
  - apply (epochMs_of_time_text m c y M d h n s); assumption.
  - intros -> ->. replace ((1 - 1) * 1000 + (1 - 1) * 100 + y) with y by lia.
    unfold Date_UTC.
    destruct (Z.leb_spec 0 y); [| lia].
    destruct (Z.leb_spec y 99); [| lia].
    destruct (Z.leb_spec 0 (1900 + y)); [| lia].
    destruct (Z.leb_spec (1900 + y) 99); [lia |].
    reflexivity.
Qed.

(** X21. A time text with a year only, of one or two digits, is read
    with the year in the window 1970-2069 (2000 + y up to 69, 1900 + y
    above) and everything else at its default: the first of January,
    00:00:00 UTC. *)
Theorem two_digit_year_window (y : Z) :
  0 <= y < 100 ->
  epochMsFromTPSString (lit "T:greg.y" ++ toString y)
  = OK (Int (days_from_civil (if y <=? 69 then 2000 + y else 1900 + y) 1 1
             * msPerDay)).
Proof.
  intros Hy.
  destruct (two_digits_facts y Hy) as [Dy [Ly _]].
  destruct (parseInt_toString y ltac:(lia)) as [Py [_ Ny]].
  set (time := lit "T:greg.y" ++ toString y).
  assert (Htime : time =
    84 :: 58 :: 103 :: 114 :: 101 :: 103
      :: code "." :: code "y" :: toString y ++ []).
  { unfold time. rewrite app_nil_r. reflexivity. }
  assert (Hat : includes time (code "@") = false).
  { unfold time. rewrite includes_app, (includes_digits _ Dy). reflexivity. }
  assert (Hno : forall k sign max,
            k <> code "y" -> regex_match k sign max time = None).
  { intros k sign max Hk. rewrite Htime.
    rewrite !regex_skip_char by discriminate.
    rewrite regex_skip_key by (intros E; apply Hk; symmetry; exact E).
    rewrite regex_skip_char by discriminate.
    rewrite regex_skip_digits by exact Dy. reflexivity. }
  assert (Hyes : regex_match (code "y") false (Some 4%nat) time
                 = Some (toString y)).
  { rewrite Htime. rewrite !regex_skip_char by discriminate.
    apply regex_hit; [exact Ny | exact Dy | | exact I].
    unfold fits, len in *. lia. }
  unfold epochMsFromTPSString. rewrite Hat.
  change (startsWith time (lit "T:")) with true. cbn [bind].
  change (startsWith time (lit "T:greg.")) with true. cbn [negb]. cbv zeta.
  rewrite Hyes, !Hno by discriminate. cbn [bind]. rewrite Py.
  destruct (Z.ltb_spec y 100); [| lia].
  set (Y := if y <=? 69 then 2000 + y else 1900 + y).
  assert (HY : 1970 <= Y <= 2069) by (unfold Y; destruct (Z.leb_spec y 69); lia).
  unfold Date_UTC. cbv zeta.
  destruct (Z.leb_spec Y 99); [lia |]. rewrite andb_false_r.
  change ((1 - 1) / 12) with 0. change ((1 - 1) mod 12 + 1) with 1.
  replace (Y + 0) with Y by lia.
  replace (days_from_civil Y 1 1 + 1 - 1) with (days_from_civil Y 1 1) by lia.
  assert (Hrange : 0 <= days_from_civil Y 1 1 <= 40000).
  { unfold days_from_civil. cbv zeta. change (1 <=? 2) with true.
    change (2 <? 1) with false. cbv iota.
    Z.div_mod_to_equations. lia. }
  unfold msPerDay.
  destruct (Z.leb_spec
              (Z.abs (days_from_civil Y 1 1 * 86400000
                      + (0 * 3600000 + 0 * 60000 + 0 * 1000)))
              8640000000000000); [| lia].
  do 2 f_equal. lia.
Qed.

(** ** The prefix of an identifier *)

Lemma decodeBinary_errors (P : Platform) (b : bytes) :
  decodeBinary P b <> Err MissingPrefix.
Proof.
  unfold decodeBinary. cbv zeta.
  destruct (len b <? 17); [discriminate |].
  destruct (orb _ _); [discriminate |].
  destruct (negb _); [discriminate |].
  unfold readU48. cbv zeta. destruct (negb (isSafeInteger _));
    [discriminate |]. cbn [bind].
  destruct (uvarintDecode b 16) as [[tpsLen bytesRead] | e] eqn:Hv;
    cbn [bind].
  - destruct (len b <? 16 + bytesRead + tpsLen); [discriminate |].
    destruct (band (get b 5) 1 =? 1).
    + unfold inflateRaw. destruct (has_require P); [| discriminate].
      destruct (zlib_inflateRawSync P _); discriminate.
    + discriminate.
  - unfold uvarintDecode in Hv.
    destruct (uvarintDecode_loop_errors _ _ _ _ _ Hv) as [-> | [-> | ->]];
      discriminate.
Qed.

(** X24. [decodeBinaryB64] fails with 'missing prefix' exactly when the
    identifier, trimmed, does not begin with 'tpsuid7rb_'; an identifier
    that [validateBinaryB64] accepts never fails so, and is read as
    [decodeBinary] reads the base64url decoding of what follows the
    prefix. *)
Theorem missing_prefix_exactly (P : Platform) (id : jsstring) :
  (decodeBinaryB64 P id = Err MissingPrefix
   <-> startsWith (trim id) PREFIX = false)
  /\ (validateBinaryB64 id = true ->
      decodeBinaryB64 P id
      = decodeBinary P (base64UrlDecode P (slice_from (trim id) (len PREFIX)))
      /\ decodeBinaryB64 P id <> Err MissingPrefix).
Proof.
  split.
  - unfold decodeBinaryB64. cbv zeta.
    destruct (startsWith (trim id) PREFIX); cbn [negb].
    + split; [| discriminate]. intros H.
      exfalso. apply (decodeBinary_errors P _ H).
    + split; reflexivity.
  - intros Hv. unfold validateBinaryB64, REGEX_test in Hv.
    apply andb_true_iff in Hv. destruct Hv as [Hs _].
    unfold decodeBinaryB64. cbv zeta. rewrite Hs. cbn [negb].
    split; [reflexivity | apply decodeBinary_errors].
Qed.

(** ** Without [require] *)

(** X25. On a platform without [require] (a browser) the class neither
    signs nor verifies nor compresses: [seal] and [verifyAndDecode]
    never return a result, a token that [encodeBinary] returns is not
    compressed, [decodeBinary] returns no result marked as compressed,
    and the random bytes are those of [crypto.getRandomValues], with
    'no crypto available' when that fails. *)
Theorem without_require (P : Platform) (parse : jsstring -> result number) :
  has_require P = false ->
  (forall tps sk opts token, seal P parse tps sk opts <> OK token)
  /\ (forall b pk r, verifyAndDecode P b pk <> OK r)
  /\ (forall tps opts token,
        encodeBinary P parse tps opts = OK token ->
        compress_of opts = false)
  /\ (forall b r, decodeBinary P b = OK r -> compressed r = false)
  /\ (forall n,
        randomBytes P n
        = match crypto_getRandomValues P n with
          | Some b => OK b
          | None => Err NoCrypto
          end).
Proof.
  intros Hreq. split; [| split; [| split; [| split]]].
  - intros tps sk opts token H. unfold seal in H. cbv zeta in H.
    fold (epoch_of parse tps opts) in H. fold (compress_of opts) in H.
    fold (payload_of P (compress_of opts) tps) in H.
    destruct (epoch_of parse tps opts) as [[e |] | err];
      cbn [bind] in H; try discriminate.
    destruct (orb _ _); [discriminate |].
    destruct (randomBytes P 4) as [nb | err]; cbn [bind] in H;
      [| discriminate].
    destruct (payload_of P (compress_of opts) tps) as [payload | err];
      cbn [bind] in H; [| discriminate].
    destruct (uvarintEncode (len payload)) as [lenVar | err];
      cbn [bind] in H; [| discriminate].
    unfold signEd25519 in H. rewrite Hreq in H. discriminate.
  - intros b pk r H. unfold verifyAndDecode in H. cbv zeta in H.
    destruct (len b <? 18); [discriminate |].
    destruct (orb _ _); [discriminate |].
    destruct (band (get b 5) 2 =? 0); [discriminate |].
    destruct (uvarintDecode b 16) as [[tpsLen bytesRead] | err];
      cbn [bind] in H; [| discriminate].
    destruct (len b <? _); [discriminate |].
    destruct (len b <=? _); [discriminate |].
    destruct (negb _); [discriminate |].
    destruct (negb _); [discriminate |].
    unfold verifyEd25519 in H. rewrite Hreq in H. discriminate.
  - intros tps opts token H. unfold encodeBinary in H. cbv zeta in H.
    fold (epoch_of parse tps opts) in H. fold (compress_of opts) in H.
    destruct (epoch_of parse tps opts) as [[e |] | err];
      cbn [bind] in H; try discriminate.
    destruct (e <? 0); [discriminate |].
    destruct (0xffffffffffff <? e); [discriminate |].
    destruct (randomBytes P 4) as [nb | err]; cbn [bind] in H;
      [| discriminate].
    destruct (compress_of opts).
    + unfold deflateRaw in H. rewrite Hreq in H. discriminate.
    + reflexivity.
  - intros b r H. unfold decodeBinary in H. cbv zeta in H.
    destruct (len b <? 17); [discriminate |].
    destruct (orb _ _); [discriminate |].
    destruct (negb _); [discriminate |].
    destruct (readU48 b 6) as [e | err]; cbn [bind] in H; [| discriminate].
    destruct (uvarintDecode b 16) as [[tpsLen bytesRead] | err];
      cbn [bind] in H; [| discriminate].
    destruct (len b <? _); [discriminate |].
    destruct (band (get b 5) 1 =? 1).
    + unfold inflateRaw in H. rewrite Hreq in H. discriminate.
    + cbn [bind] in H. apply OK_inj in H. subst r. reflexivity.
  - intros n. unfold randomBytes. rewrite Hreq. reflexivity.
Qed.

(** * The claim on [generate] *)

Section ClaimOnGenerate.

Variable P : Platform.
Variable parse : jsstring -> result number.
Hypothesis laws : PlatformLaws P.

(** ** C8 *)

(** C8. [generate] at the instant [now] succeeds when [now] is a valid
    48-bit epoch and the platform delivers the nonce and the payload
    block; every identifier it produces decodes to [epochMs] equal to
    [now], to the millisecond, and to the payload text
    [generateTPSString] built; that text is the same for every instant
    of the same second, and the time it spells, as the class's own
    parser [epochMsFromTPSString] reads it, is [now] less its
    milliseconds (the coordinates being written without an '@').  The
    time parser [parse] the codec is given is never consulted: the
    statement holds whatever it computes. *)
Theorem generate_pins_epoch (now : Z) (opts : option (GenerateOptions P)) :
  (forall nonceBuf payload,
     0 <= now < 2 ^ 48 ->
     randomBytes P 4 = OK nonceBuf ->
     payload_of P (gen_compress_of P opts) (generateTPSString P now opts)
       = OK payload ->
     exists id, generate P parse now opts = OK id)
  /\ (forall id,
        generate P parse now opts = OK id -> len id < 2 ^ 32 ->
        exists r,
          decodeBinaryB64 P id = OK r
          /\ epochMs r = now
          /\ tps r = generateTPSString P now opts
          /\ compressed r = gen_compress_of P opts)
  /\ generateTPSString P now opts
     = generateTPSString P (now - now mod 1000) opts
  /\ ((forall x, at_free (Float_toString P x)) ->
      forall id r,
        generate P parse now opts = OK id -> len id < 2 ^ 32 ->
        decodeBinaryB64 P id = OK r ->
        epochMs r = now
        /\ epochMsFromTPSString (tps r) = OK (Int (now - now mod 1000))).
Proof.
  set (text := generateTPSString P now opts).
  set (o := Some {| opt_compress :=
                      match opts with
                      | Some o => gen_compress P o
                      | None => None
                      end;
                    opt_epochMs := Some (Int now) |}).
  assert (Hc : compress_of o = gen_compress_of P opts).
  { unfold o, compress_of, gen_compress_of. destruct opts; reflexivity. }
  assert (Hgen : generate P parse now opts
                 = (bytes <- encodeBinary P parse text o ;;
                    OK (PREFIX ++ base64UrlEncode bytes))) by reflexivity.
  assert (Hdecode : forall id,
    generate P parse now opts = OK id -> len id < 2 ^ 32 ->
    0 <= now < 2 ^ 48
    /\ exists r,
         decodeBinaryB64 P id = OK r
         /\ epochMs r = now
         /\ tps r = generateTPSString P now opts
         /\ compressed r = gen_compress_of P opts).
  2: split; [| split; [| split]].
  2: { intros nb payload Hnow Hr Hp.
       destruct (randomBytes_ok P laws 4 nb Hr) as [Hn _].
       destruct (uvarintEncode_total (len payload) (len_nonneg _))
         as [lenVar Hl].
       rewrite Hgen.
       rewrite (encodeBinary_eq P parse text o now nb payload lenVar);
         try assumption; try reflexivity.
       + cbn [bind]. eexists. reflexivity.
       + rewrite Hc. exact Hp. }
  2: { intros id Hid Hsmall. apply (Hdecode id Hid Hsmall). }
  2: { apply generateTPSString_whole_seconds. }
  2: { intros Hfloat id r Hid Hsmall Hr.
       destruct (Hdecode id Hid Hsmall) as [Hnow [r' [Hr' [He [Ht _]]]]].
       assert (r' = r) by congruence. subst r'.
       split; [exact He |]. rewrite Ht.
       apply epochMs_generated; [exact Hfloat |].
       unfold maxTime. change (2 ^ 48) with 281474976710656 in Hnow. lia. }
  intros id Hid Hsmall. rewrite Hgen in Hid.
  destruct (encodeBinary P parse text o) as [token | err] eqn:Henc;
    cbn [bind] in Hid; [| discriminate].
  apply OK_inj in Hid. subst id.
  assert (Hwf : well_formed text)
    by (apply well_formed_generateTPSString; exact laws).
  destruct (encodeBinary_inv P parse laws text o token Henc)
    as [e [nb [payload [lenVar [Hep [He [Hr [Hn [Hnok [Hp [Hl Ht]]]]]]]]]]].
  destruct (uvarint_roundtrip _ _ [] [] Hl) as [_ [Hlok _]].
  assert (Hok : bytes_ok token).
  { subst token. apply token_layout_ok; try assumption.
    - destruct (compress_of o); lia.
    - apply (payload_of_ok P laws _ _ _ Hwf Hp). }
  assert (Htok : len token < 2 ^ 32).
  { pose proof (base64UrlEncode_length token Hok) as Hb.
    rewrite len_app in Hsmall. pose proof (len_nonneg PREFIX). lia. }
  destruct (encode_decode P parse laws text o token Hwf Henc Htok)
    as [r [Hdec [Htps [Hcomp Hepoch]]]].
  split.
  { assert (En : e = now).
    { unfold epoch_of, o in Hep. cbn [opt_epochMs] in Hep.
      apply OK_inj in Hep. congruence. }
    rewrite <- En. exact He. }
  exists r. split; [| split; [| split]].
  + unfold decodeBinaryB64. cbv zeta.
    rewrite trim_no_whitespace
      by (apply identifier_no_whitespace;
          apply base64UrlEncode_chars; exact Hok).
    rewrite startsWith_prefix. cbn [negb].
    rewrite slice_from_app.
    rewrite (base64Url_roundtrip P laws) by exact Hok.
    exact Hdec.
  + unfold epoch_of, o in Hepoch. cbn [opt_epochMs] in Hepoch.
    apply OK_inj in Hepoch. congruence.
  + rewrite Htps. apply strip_bom_generateTPSString.
  + rewrite Hcomp. exact Hc.
Qed.

End ClaimOnGenerate.

(** * The further properties at the concrete platform *)

Ltac run := vm_compute; reflexivity.
Ltac below := apply Z.ltb_lt; vm_compute; reflexivity.

Lemma model_float_at_free (x : Float Model.platform) :
  at_free (Float_toString Model.platform x).
Proof.
  change (at_free (toString x)). unfold toString.
  destruct (Z.to_int x) as [u | u].
  - apply includes_digits. apply digits_are_digits.
  - change (45 :: digits u) with ([45] ++ digits u).
    apply at_free_app; [reflexivity |].
    apply includes_digits. apply digits_are_digits.
Qed.

Lemma encode_decode_exact_witness :
  exists e n0 n1 n2 n3,
    epoch_of Model.parse_epoch Model.sample (with_epoch (Int 1700000000000))
      = OK (Int e)
    /\ 0 <= e < 2 ^ 48
    /\ randomBytes Model.platform 4 = OK [n0; n1; n2; n3]
    /\ decodeBinary Model.platform Model.unsealed_sample
       = OK {| version := lit "tpsuid7rb"; epochMs := e;
               compressed := compress_of (with_epoch (Int 1700000000000));
               nonce := n0 * 2 ^ 24 + n1 * 2 ^ 16 + n2 * 2 ^ 8 + n3;
               tps := Model.sample |}.
Proof.
  apply (encode_decode_exact Model.platform Model.parse_epoch model_laws
           Model.sample (with_epoch (Int 1700000000000))
           Model.unsealed_sample).
  - apply well_formed_lit.
  - discriminate.
  - run.
  - below.
Defined.

Lemma seal_verify_exact_witness :
  exists content signature r,
    Model.sealed_sample = content ++ [1] ++ signature /\ len signature = 64
    /\ crypto_sign Model.platform content 5 = Some signature
    /\ get content 5
       = (if compress_of (with_epoch (Int 1700000000000)) then 3 else 2)
    /\ verifyAndDecode Model.platform Model.sealed_sample 1005 = OK r
    /\ decodeBinary Model.platform content = OK r
    /\ tps r = strip_bom Model.sample
    /\ compressed r = compress_of (with_epoch (Int 1700000000000))
    /\ epoch_of Model.parse_epoch Model.sample
         (with_epoch (Int 1700000000000)) = OK (Int (epochMs r)).
Proof.
  apply (seal_verify_exact Model.platform Model.parse_epoch model_laws
           Model.sample 5 1005 (with_epoch (Int 1700000000000))
           Model.sealed_sample).
  - apply well_formed_lit.
  - exact model_key_pair.
  - run.
  - below.
Defined.

Lemma uvarintDecode_result_witness :
  (forall v n,
     uvarintDecode [0x85; 0x01] 0 = OK (v, n) ->
     0 <= v < 2 ^ 32 /\ 1 <= n <= 10 /\ 0 + n <= len [0x85; 0x01])
  /\ (len [0x85; 0x01] <= 0 ->
      uvarintDecode [0x85; 0x01] 0 = Err UvarintOverflow).
Proof.
  apply (uvarintDecode_result [0x85; 0x01] 0). lia.
Defined.

Lemma u48_roundtrip_witness :
  len (writeU48 1700000000000) = 6 /\ bytes_ok (writeU48 1700000000000)
  /\ readU48 ([1; 2] ++ writeU48 1700000000000 ++ [3]) (len [1; 2])
     = OK 1700000000000.
Proof.
  apply (u48_roundtrip 1700000000000 [1; 2] [3]).
  split; [apply Z.leb_le | apply Z.ltb_lt]; run.
Defined.

Lemma base64Url_transport_witness :
  base64UrlDecode Model.platform (base64UrlEncode [0x54; 0x50; 0x55; 0x37; 1])
    = [0x54; 0x50; 0x55; 0x37; 1]
  /\ len (base64UrlEncode [0x54; 0x50; 0x55; 0x37; 1])
     = (4 * len [0x54; 0x50; 0x55; 0x37; 1] + 2) / 3
  /\ forallb is_b64url_char (base64UrlEncode [0x54; 0x50; 0x55; 0x37; 1])
     = true.
Proof.
  apply (base64Url_transport Model.platform model_laws).
  apply forallb_byte_ok. run.
Defined.

Lemma encodeBinaryB64_identifier_witness :
  exists token,
    encodeBinary Model.platform Model.parse_epoch Model.sample
      (with_epoch (Int 1700000000000)) = OK token
    /\ PREFIX ++ base64UrlEncode Model.unsealed_sample
       = PREFIX ++ base64UrlEncode token
    /\ validateBinaryB64 (PREFIX ++ base64UrlEncode Model.unsealed_sample)
       = true
    /\ decodeBinaryB64 Model.platform
         (PREFIX ++ base64UrlEncode Model.unsealed_sample)
       = decodeBinary Model.platform token.
Proof.
  apply (encodeBinaryB64_identifier Model.platform Model.parse_epoch
           model_laws Model.sample (with_epoch (Int 1700000000000))).
  - apply well_formed_lit.
  - run.
Defined.

Lemma decodeBinary_sound_witness :
  17 <= len Model.unsealed_sample
  /\ firstn 4 Model.unsealed_sample = MAGIC
  /\ get Model.unsealed_sample 4 = VER
  /\ version Model.sample_result = lit "tpsuid7rb"
  /\ compressed Model.sample_result = Z.odd (get Model.unsealed_sample 5)
  /\ 0 <= epochMs Model.sample_result < 2 ^ 48
  /\ 0 <= nonce Model.sample_result < 2 ^ 32
  /\ exists tpsLen bytesRead tpsUtf8,
       uvarintDecode Model.unsealed_sample 16 = OK (tpsLen, bytesRead)
       /\ 1 <= bytesRead /\ 0 <= tpsLen
       /\ 16 + bytesRead + tpsLen <= len Model.unsealed_sample
       /\ (let payload :=
             slice Model.unsealed_sample (16 + bytesRead)
               (16 + bytesRead + tpsLen) in
           if compressed Model.sample_result
           then inflateRaw Model.platform payload else OK payload)
          = OK tpsUtf8
       /\ tps Model.sample_result = TextDecoder_decode tpsUtf8.
Proof.
  apply (decodeBinary_sound Model.platform Model.unsealed_sample
           Model.sample_result).
  - apply forallb_byte_ok. run.
  - run.
Defined.

Lemma verifyAndDecode_sound_witness :
  exists content signature,
    Model.sealed_sample = content ++ [1] ++ signature
    /\ len signature = 64
    /\ band (get content 5) 0x02 <> 0
    /\ has_require Model.platform = true
    /\ crypto_verify Model.platform content 1005 signature = Some true
    /\ decodeBinary Model.platform content = OK Model.sample_result.
Proof.
  apply (verifyAndDecode_sound Model.platform Model.sealed_sample 1005
           Model.sample_result).
  run.
Defined.

Lemma truncated_token_rejected_witness :
  (30 < 17 ->
   decodeBinary Model.platform (firstn (Z.to_nat 30) Model.unsealed_sample)
   = Err TooShort)
  /\ (17 <= 30 ->
      decodeBinary Model.platform
        (firstn (Z.to_nat 30) Model.unsealed_sample) = Err UvarintOverflow
      \/ decodeBinary Model.platform
           (firstn (Z.to_nat 30) Model.unsealed_sample) = Err LengthOverflow).
Proof.
  apply (truncated_token_rejected Model.platform Model.parse_epoch model_laws
           Model.sample (with_epoch (Int 1700000000000))
           Model.unsealed_sample 30).
  - run.
  - below.
  - split; [apply Z.leb_le | apply Z.ltb_lt]; run.
Defined.

Lemma sealed_token_framing_witness :
  verifyAndDecode Model.platform (Model.sealed_sample ++ [0]) 1005
    = Err (InvalidSignatureLength (64 + len [0]))
  /\ verifyAndDecode Model.platform
       (firstn (Z.to_nat (len Model.sealed_sample - 3)) Model.sealed_sample)
       1005
     = Err (InvalidSignatureLength (64 - 3))
  /\ verifyAndDecode Model.platform
       (firstn (Z.to_nat (len Model.sealed_sample - 64)) Model.sealed_sample)
       1005
     = Err MissingSignatureData
  /\ verifyAndDecode Model.platform
       (tamper Model.sealed_sample (len Model.sealed_sample - 65) 2) 1005
     = Err (UnsupportedSealType 2).
Proof.
  destruct (sealed_token_framing Model.platform Model.parse_epoch model_laws
              Model.sample 5 (with_epoch (Int 1700000000000))
              Model.sealed_sample 1005 ltac:(run) ltac:(below))
    as [T1 [T2 [T3 T4]]].
  split; [apply T1; discriminate |].
  split; [apply T2; lia |].
  split; [exact T3 |].
  apply T4; [lia | discriminate].
Defined.

Lemma unsealed_token_never_verifies_witness :
  17 <= len Model.unsealed_sample
  /\ (len Model.unsealed_sample = 17 ->
      verifyAndDecode Model.platform Model.unsealed_sample 1005
      = Err TooShort)
  /\ (17 < len Model.unsealed_sample ->
      verifyAndDecode Model.platform Model.unsealed_sample 1005
      = Err NotSealed).
Proof.
  apply (unsealed_token_never_verifies Model.platform Model.parse_epoch
           model_laws Model.sample (with_epoch (Int 1700000000000))).
  run.
Defined.

Lemma seal_extends_encodeBinary_witness :
  exists nonceBuf token signature,
    randomBytes Model.platform 4 = OK nonceBuf
    /\ slice Model.sealed_sample 12 16 = nonceBuf
    /\ encodeBinary (SealFacts.with_nonce Model.platform nonceBuf)
         Model.parse_epoch Model.sample (with_epoch (Int 1700000000000))
       = OK token
    /\ signEd25519 Model.platform
         (store token 5 (bor (get token 5) 0x02)) 5 = OK signature
    /\ Model.sealed_sample
       = store token 5 (bor (get token 5) 0x02) ++ [0x01] ++ signature
    /\ len signature = 64
    /\ len Model.sealed_sample = len token + 65.
Proof.
  apply (seal_extends_encodeBinary Model.platform Model.parse_epoch
           model_laws Model.sample 5 (with_epoch (Int 1700000000000))).
  run.
Defined.

Lemma encodeBinary_wire_format_witness :
  exists e nonceBuf lenVar payload,
    Model.unsealed_sample
    = [0x54; 0x50; 0x55; 0x37; 0x01;
       if compress_of (with_epoch (Int 1700000000000)) then 0x01 else 0x00]
        ++ writeU48 e ++ nonceBuf ++ lenVar ++ payload
    /\ epoch_of Model.parse_epoch Model.sample
         (with_epoch (Int 1700000000000)) = OK (Int e)
    /\ randomBytes Model.platform 4 = OK nonceBuf /\ len nonceBuf = 4
    /\ uvarintEncode (len payload) = OK lenVar
    /\ payload_of Model.platform
         (compress_of (with_epoch (Int 1700000000000))) Model.sample
       = OK payload
    /\ (compress_of (with_epoch (Int 1700000000000)) = false ->
        payload = TextEncoder_encode Model.sample)
    /\ len Model.unsealed_sample = 16 + len lenVar + len payload.
Proof.
  destruct (encodeBinary_wire_format Model.platform Model.parse_epoch
              model_laws Model.sample (with_epoch (Int 1700000000000)))
    as [_ T].
  apply T. run.
Defined.

Lemma fromDate_read_back_witness :
  exists s,
    TPS.fromDate (fun _ => []) TPS.no_drivers 1700000000123 TPS.greg
      = TPS.Text s
    /\ epochMsFromTPSString s = OK (Int (1700000000123 - 1700000000123 mod 1000)).
Proof.
  eexists. split; [reflexivity |].
  apply (fromDate_read_back (fun _ => []) 1700000000123).
  - unfold maxTime. lia.
  - reflexivity.
Defined.

Lemma generateTPSString_time_part_witness :
  exists s space,
    TPS.fromDate (fun _ => []) TPS.no_drivers 1700000000123 TPS.greg
      = TPS.Text s
    /\ generateTPSString Model.platform 1700000000123 None
       = lit "tps://" ++ space ++ lit "@" ++ s
    /\ (@None (GenerateOptions Model.platform) = None ->
        space = lit "unknown").
Proof.
  eexists.
  destruct (generateTPSString_time_part Model.platform (fun _ => [])
              1700000000123 None _ ltac:(unfold maxTime; lia) eq_refl)
    as [space [H1 H2]].
  exists space. split; [reflexivity |]. split; [exact H1 | exact H2].
Defined.

Lemma generateTPSString_read_back_witness :
  epochMsFromTPSString (generateTPSString Model.platform 1700000000123 None)
    = OK (Int (1700000000123 - 1700000000123 mod 1000))
  /\ generateTPSString Model.platform (1700000000123 - 1700000000123 mod 1000)
       None
     = generateTPSString Model.platform 1700000000123 None.
Proof.
  apply (generateTPSString_read_back Model.platform 1700000000123 None).
  - exact model_float_at_free.
  - unfold maxTime. lia.
Defined.

Lemma default_epoch_whole_seconds_witness :
  exists token r,
    encodeBinary Model.platform epochMsFromTPSString
      (generateTPSString Model.platform 1700000000123 None) None = OK token
    /\ decodeBinary Model.platform token = OK r
    /\ epochMs r = 1700000000123 - 1700000000123 mod 1000
    /\ tps r = generateTPSString Model.platform 1700000000123 None.
Proof.
  assert (E : exists token,
    encodeBinary Model.platform epochMsFromTPSString
      (generateTPSString Model.platform 1700000000123 None) None = OK token
    /\ len token < 2 ^ 32).
  { eexists. split; [run | below]. }
  destruct E as [token [E1 E2]].
  destruct (default_epoch_whole_seconds Model.platform model_laws
              1700000000123 None None token model_float_at_free
              ltac:(unfold maxTime; lia) eq_refl E1 E2) as [r [H1 [H2 H3]]].
  exists token, r. repeat split; assumption.
Defined.

Lemma epochMs_ignores_space_part_witness :
  epochMsFromTPSString
    (lit "tps://31.95,35.91,800m" ++ lit "@"
       ++ lit "T:greg.m3.c1.y26.M01.d09.h14.n30.s25")
  = epochMsFromTPSString
      (lit "anything" ++ lit "@"
         ++ lit "T:greg.m3.c1.y26.M01.d09.h14.n30.s25").
Proof.
  apply (epochMs_ignores_space_part (lit "tps://31.95,35.91,800m")
           (lit "anything")); reflexivity.
Defined.

Lemma toURI_not_read_witness :
  epochMsFromTPSString (TPS.toURI Model.platform sample_components)
    = Err TPSUnrecognizedFormat
  /\ encodeBinary Model.platform epochMsFromTPSString
       (TPS.toURI Model.platform sample_components) None
     = Err TPSUnrecognizedFormat
  /\ seal Model.platform epochMsFromTPSString
       (TPS.toURI Model.platform sample_components) 5 None
     = Err TPSUnrecognizedFormat.
Proof.
  apply (toURI_not_read Model.platform sample_components None 5).
  - exact model_float_at_free.
  - unfold at_free_components. cbn.
    repeat split. repeat constructor.
  - reflexivity.
Defined.

Lemma time_text_read_back_witness :
  epochMsFromTPSString
    (lit "T:greg.m" ++ toString 3 ++ lit ".c" ++ toString 1
       ++ lit ".y" ++ toString 26 ++ lit ".M" ++ TPS.pad (toString 1)
       ++ lit ".d" ++ TPS.pad (toString 9) ++ lit ".h" ++ TPS.pad (toString 14)
       ++ lit ".n" ++ TPS.pad (toString 30)
       ++ lit ".s" ++ TPS.pad (toString 25))
  = match Date_UTC ((3 - 1) * 1000 + (1 - 1) * 100 + 26) (1 - 1) 9 14 30 25
    with
    | Some epoch => OK (Int epoch)
    | None => Err TPSEpochFailed
    end.
Proof.
  apply (time_text_read_back 3 1 26 1 9 14 30 25); lia.
Defined.

Lemma two_digit_year_window_witness :
  epochMsFromTPSString (lit "T:greg.y" ++ toString 26)
  = OK (Int (days_from_civil (if 26 <=? 69 then 2000 + 26 else 1900 + 26) 1 1
             * msPerDay)).
Proof.
  apply (two_digit_year_window 26). lia.
Defined.

Lemma without_require_witness :
  (forall tps sk opts token,
     seal Browser.platform Model.parse_epoch tps sk opts <> OK token)
  /\ (forall b pk r, verifyAndDecode Browser.platform b pk <> OK r)
  /\ (forall tps opts token,
        encodeBinary Browser.platform Model.parse_epoch tps opts = OK token ->
        compress_of opts = false)
  /\ (forall b r,
        decodeBinary Browser.platform b = OK r -> compressed r = false)
  /\ (forall n,
        randomBytes Browser.platform n
        = match crypto_getRandomValues Browser.platform n with
          | Some b => OK b
          | None => Err NoCrypto
          end).
Proof.
  apply (without_require Browser.platform Model.parse_epoch). reflexivity.
Defined.

Lemma generate_pins_epoch_witness :
  generate Model.platform Model.parse_epoch 1700000000123 None
    = OK Model.generated_id
  /\ len Model.generated_id < 2 ^ 32
  /\ (exists r,
        decodeBinaryB64 Model.platform Model.generated_id = OK r
        /\ epochMs r = 1700000000123
        /\ tps r = generateTPSString Model.platform 1700000000123 None
        /\ compressed r = gen_compress_of Model.platform None)
  /\ generateTPSString Model.platform 1700000000123 None
     = generateTPSString Model.platform 1700000000000 None
  /\ (forall r,
        decodeBinaryB64 Model.platform Model.generated_id = OK r ->
        epochMs r = 1700000000123
        /\ epochMsFromTPSString (tps r)
           = OK (Int (1700000000123 - 1700000000123 mod 1000))).
Proof.
  assert (H1 : generate Model.platform Model.parse_epoch 1700000000123 None
               = OK Model.generated_id) by (vm_compute; reflexivity).
  assert (H2 : len Model.generated_id < 2 ^ 32)
    by (apply Z.ltb_lt; vm_compute; reflexivity).
  destruct (generate_pins_epoch Model.platform Model.parse_epoch model_laws
              1700000000123 None) as [_ [T2 [T3 T4]]].
  split; [exact H1 |]. split; [exact H2 |].
  split; [exact (T2 _ H1 H2) |]. split; [exact T3 |].
  intros r Hr. exact (T4 model_float_at_free _ r H1 H2 Hr).
Defined.
